(** * Aseprite: PNG load/save (app/file/png_format.cpp) and the
    image replacement command (app/cmd/replace_image.cpp)

  A shallow embedding of [PngFormat::onLoad], [PngFormat::onSave] and
  [ReplaceImage::onExecute/onUndo/onRedo], followed by the properties
  checked against it.

  Conventions:
  - sample and pixel values are [Z]; a store into a [uint8_t] is written
    with [uint8], the packing of samples into 16/32-bit pixels with
    [Z.shiftl]/[Z.lor];
  - loop counters and sizes ([width], [height], [pass], [y], [x]) are [nat];
  - libpng is seen through what it hands to the caller: the header fields,
    the PLTE and tRNS chunks, one byte row per [png_read_row] /
    [png_write_rows] call, the texts it passes to the error and warning
    callbacks, and its jumps to the [setjmp] handler. *)

From stdpp Require Import base numbers list strings pretty gmap.

(** ** doc: colours, images, sprites *)

Module doc.

Definition uint8 (z : Z) : Z := (z mod 256)%Z.

(** Modelled from the spec: doc/color.h ([rgba], [graya], their shifts and
    getters) is not among the sources.  A TrueColor sample is the 4 bytes
    (R,G,B,A), R in the lowest byte; a Grayscale sample is the 2 bytes
    (V,A), V in the lowest byte.  The definitions up to [graya_geta] follow
    this layout. *)
Definition rgba_r_shift : Z := 0.
Definition rgba_g_shift : Z := 8.
Definition rgba_b_shift : Z := 16.
Definition rgba_a_shift : Z := 24.

Definition rgba (r g b a : Z) : Z :=
  Z.lor (Z.lor (Z.lor (Z.shiftl (uint8 r) rgba_r_shift)
                      (Z.shiftl (uint8 g) rgba_g_shift))
               (Z.shiftl (uint8 b) rgba_b_shift))
        (Z.shiftl (uint8 a) rgba_a_shift).

Definition rgba_getr (c : Z) : Z := Z.land (Z.shiftr c rgba_r_shift) 255.
Definition rgba_getg (c : Z) : Z := Z.land (Z.shiftr c rgba_g_shift) 255.
Definition rgba_getb (c : Z) : Z := Z.land (Z.shiftr c rgba_b_shift) 255.
Definition rgba_geta (c : Z) : Z := Z.land (Z.shiftr c rgba_a_shift) 255.

Definition graya_v_shift : Z := 0.
Definition graya_a_shift : Z := 8.

Definition graya (v a : Z) : Z :=
  Z.lor (Z.shiftl (uint8 v) graya_v_shift) (Z.shiftl (uint8 a) graya_a_shift).

Definition graya_getv (c : Z) : Z := Z.land (Z.shiftr c graya_v_shift) 255.
Definition graya_geta (c : Z) : Z := Z.land (Z.shiftr c graya_a_shift) 255.

Inductive PixelFormat := IMAGE_RGB | IMAGE_GRAYSCALE | IMAGE_INDEXED.

Definition ObjectId := nat.

(** An image: its object id, its format and size, and its rows of pixels
    (32-bit for RGB, 16-bit for grayscale, 8-bit for indexed). *)
Record Image := mkImage {
  id : ObjectId;
  pixelFormat : PixelFormat;
  width : nat;
  height : nat;
  pixels : list (list Z);
}.

(** [image->getPixelAddress(0, y)]: the row the loops read from. *)
Definition getPixelAddress (image : Image) (y : nat) : list Z :=
  default [] (pixels image !! y).

(** Writing [row] through [image->getPixelAddress(0, y)]. *)
Definition putPixels (image : Image) (y : nat) (row : list Z) : Image :=
  mkImage (id image) (pixelFormat image) (width image) (height image)
          (<[y := row]> (pixels image)).

(** Modelled from the spec: [Image::setId] is not among the sources; it
    stamps the image with an identity. *)
Definition setId (i : ObjectId) (image : Image) : Image :=
  mkImage i (pixelFormat image) (width image) (height image) (pixels image).

Definition NullId : ObjectId := 0%nat.

(** Modelled from the spec: [Image::createCopy] is not among the sources; it
    makes a deep copy of the buffer, a new object that has no identity of
    its own yet. *)
Definition createCopy (image : Image) : Image := setId NullId image.

(** Modelled from the spec: [doc::Sprite] is not among the sources.  The
    sprite owns the mask index ([transparentColor]), answers [needAlpha] and
    [backgroundLayer] (here: whether there is one), and holds the registry
    that binds an image identity to exactly one buffer. *)
Record Sprite := mkSprite {
  transparentColor : Z;
  needAlpha : bool;
  backgroundLayer : bool;
  images : gmap ObjectId Image;
}.

(** Modelled from the spec: [Sprite::setTransparentColor] is not among the
    sources; it sets the mask index that [transparentColor] returns. *)
Definition setTransparentColor (index : Z) (s : Sprite) : Sprite :=
  mkSprite index (needAlpha s) (backgroundLayer s) (images s).

(** Modelled from the spec: [Sprite::getImageRef] is not among the sources;
    it returns the buffer bound to an identity, a null reference when the
    identity is not bound. *)
Definition getImageRef (imageId : ObjectId) (s : Sprite) : option Image :=
  images s !! imageId.

(** Modelled from the spec: [Sprite::replaceImage] is not among the
    sources; it rebinds the registry: the binding of [curImageId] is removed
    and [newImage] is bound under its own identity.  Nothing is rebound when
    [curImageId] is not bound. *)
Definition replaceImage (curImageId : ObjectId) (newImage : Image)
    (s : Sprite) : Sprite :=
  match images s !! curImageId with
  | Some _ =>
      mkSprite (transparentColor s) (needAlpha s) (backgroundLayer s)
               (<[id newImage := newImage]> (delete curImageId (images s)))
  | None => s
  end.

End doc.

(** ** app::FileOp and the libpng interface *)

Module file.
Import doc.

Definition png_color : Type := Z * Z * Z.

Definition PNG_COLOR_TYPE_GRAY : Z := 0.
Definition PNG_COLOR_TYPE_RGB : Z := 2.
Definition PNG_COLOR_TYPE_PALETTE : Z := 3.
Definition PNG_COLOR_TYPE_GRAY_ALPHA : Z := 4.
Definition PNG_COLOR_TYPE_RGB_ALPHA : Z := 6.
Definition PNG_INTERLACE_NONE : Z := 0.
Definition PNG_INTERLACE_ADAM7 : Z := 1.
Definition PNG_MAX_PALETTE_LENGTH : nat := 256.

(** What libpng reads from, or writes to, a file: the IHDR fields, the
    optional PLTE and tRNS chunks and the rows, in the order in which
    [png_read_row] delivers them ([png_write_rows] receives them). *)
Record PngData := mkPngData {
  png_width : nat;
  png_height : nat;
  png_bit_depth : Z;
  png_color_type : Z;
  png_interlace_type : Z;
  png_PLTE : option (list png_color);
  png_tRNS : option (list Z);
  png_rows : list (list Z);
}.

(** The libpng calls of a load or a save during which libpng can reach the
    error and warning functions registered with the struct. *)
Inductive PngCall :=
| CreateStruct          (* png_create_read_struct, png_create_write_struct *)
| ReadInfo              (* png_read_info ... png_read_update_info *)
| ReadRow (left : nat)  (* png_read_row, [left] rows still to deliver *)
| WriteInfo             (* png_set_IHDR ... png_write_info *)
| WriteRow (y : nat)    (* png_write_rows for row [y] *)
| WriteEnd.             (* png_write_end *)

(** The libpng side of one call of [onLoad] or [onSave]: whether the two
    structs can be created; for a load, the file as [png_read_info] finds it
    ([None]: the header cannot be read and libpng jumps to the error
    handler); for a save, the calls in which libpng fails and jumps to the
    error handler; and the texts that libpng passes, during each call, to its
    error and warning functions (when a call fails, the last of them is the
    text of the error). *)
Record PngLib := mkPngLib {
  create_struct : bool;
  create_info_struct : bool;
  read_info : option PngData;
  write_fails : PngCall -> bool;
  callbacks : PngCall -> list string;
}.

(** [png_set_interlace_handling]: 7 passes for an interlaced image, 1
    otherwise. *)
Definition png_set_interlace_handling (png : PngData) : nat :=
  if (png_interlace_type png =? PNG_INTERLACE_NONE)%Z then 1%nat else 7%nat.

(** Modelled from the spec: app/file/file.cpp is not among the sources.
    The caller's side of a file operation is the cancellation flag, as
    successive [fop_is_stop] polls see it, and the factory of the destination
    image that [fop_sequence_image] asks for a format and a size ([None]: it
    returns NULL). *)
Record Host := mkHost {
  is_stop : nat -> bool;
  sequence_image : PixelFormat -> nat -> nat -> option Image;
}.

(** One [fop_progress] report, kept as the integers it is computed from:
    (pass + (y+1)/height) / number_passes. *)
Record Progress := mkProgress {
  pr_pass : nat;
  pr_row : nat;
  pr_height : nat;
  pr_passes : nat;
}.

Record FileOp := mkFileOp {
  sprite : Sprite;                              (* fop->document->sprite() *)
  seq_palette : list png_color;                 (* fop->seq.palette *)
  seq_image : option Image;                     (* fop->seq.image *)
  seq_has_alpha : bool;                         (* fop->seq.has_alpha *)
  errors : list string;                         (* fop_error messages *)
  progress : list Progress;                     (* fop_progress reports *)
  image_requests : list (PixelFormat * nat * nat); (* fop_sequence_image calls *)
  stop_polls : nat;                             (* fop_is_stop calls so far *)
}.

Definition set_sprite (s : Sprite) (fop : FileOp) : FileOp :=
  mkFileOp s (seq_palette fop) (seq_image fop) (seq_has_alpha fop)
           (errors fop) (progress fop) (image_requests fop) (stop_polls fop).

Definition set_seq_image (i : option Image) (fop : FileOp) : FileOp :=
  mkFileOp (sprite fop) (seq_palette fop) i (seq_has_alpha fop)
           (errors fop) (progress fop) (image_requests fop) (stop_polls fop).

Definition set_has_alpha (b : bool) (fop : FileOp) : FileOp :=
  mkFileOp (sprite fop) (seq_palette fop) (seq_image fop) b
           (errors fop) (progress fop) (image_requests fop) (stop_polls fop).

(** Modelled from the spec: [fop_error] attaches a message to the file
    operation (kept here without its line break). *)
Definition fop_error (msg : string) (fop : FileOp) : FileOp :=
  mkFileOp (sprite fop) (seq_palette fop) (seq_image fop) (seq_has_alpha fop)
           (errors fop ++ [msg]) (progress fop) (image_requests fop)
           (stop_polls fop).

(** Modelled from the spec: [fop_progress] reports a fraction to the
    progress sink. *)
Definition fop_progress (p : Progress) (fop : FileOp) : FileOp :=
  mkFileOp (sprite fop) (seq_palette fop) (seq_image fop) (seq_has_alpha fop)
           (errors fop) (progress fop ++ [p]) (image_requests fop)
           (stop_polls fop).

(** Modelled from the spec: [fop_is_stop] polls the cancellation signal of
    the caller once more. *)
Definition fop_is_stop (host : Host) (fop : FileOp) : bool * FileOp :=
  (is_stop host (stop_polls fop),
   mkFileOp (sprite fop) (seq_palette fop) (seq_image fop) (seq_has_alpha fop)
            (errors fop) (progress fop) (image_requests fop)
            (S (stop_polls fop))).

(** Modelled from the spec: [fop_sequence_image] asks the factory for the
    image and keeps it in [fop->seq.image]. *)
Definition fop_sequence_image (host : Host) (pixelFormat : PixelFormat)
    (w h : nat) (fop : FileOp) : option Image * FileOp :=
  let fop1 :=
    mkFileOp (sprite fop) (seq_palette fop) (seq_image fop) (seq_has_alpha fop)
             (errors fop) (progress fop)
             (image_requests fop ++ [(pixelFormat, w, h)]) (stop_polls fop) in
  match sequence_image host pixelFormat w h with
  | Some image => (Some image, set_seq_image (Some image) fop1)
  | None => (None, fop1)
  end.

Definition set_seq_palette (p : list png_color) (fop : FileOp) : FileOp :=
  mkFileOp (sprite fop) p (seq_image fop) (seq_has_alpha fop) (errors fop)
           (progress fop) (image_requests fop) (stop_polls fop).

(** Modelled from the spec: the palette is an ordered array of 256 RGB
    triples; [fop_sequence_set_color] writes entry [index]. *)
Definition fop_sequence_set_color (index : nat) (r g b : Z) (fop : FileOp)
    : FileOp :=
  set_seq_palette (<[index := (r, g, b)]> (seq_palette fop)) fop.

(** Modelled from the spec: [fop_sequence_get_color] reads entry [index]
    of the palette (black beyond the array). *)
Definition fop_sequence_get_color (index : nat) (fop : FileOp) : png_color :=
  default (0, 0, 0)%Z (seq_palette fop !! index).

End file.

(** ** app::PngFormat *)

Module PngFormat.
Import doc file.

(** What the code does not decide: accesses that C++ leaves undefined (an
    index beyond the 256 entries of [pal_alphas], a missing
    [fop->seq.image]), and a negative size handed to libpng. *)
Inductive Fault :=
| PalAlphasWrite     (* pal_alphas[i] = trans[i] with i >= 256 *)
| PalAlphasRead      (* pal_alphas[c] with c >= 256 *)
| NullImage          (* image->width() with a null image *)
| TransSize.         (* png_malloc(png_ptr, num_trans) with num_trans < 0 *)

Inductive Outcome :=
| Returned (ok : bool)
| Undefined (f : Fault).

(** [report_png_error], which [onLoad] and [onSave] register as the error
    function and as the warning function of libpng: the text goes to the
    file operation as "libpng: %s". *)
Definition report_png_error (error : string) (fop : FileOp) : FileOp :=
  fop_error ("libpng: " +:+ error) fop.

(** A libpng call, as the file operation sees it: the texts of the call
    come through [report_png_error], one after the other. *)
Definition png_call (lib : PngLib) (call : PngCall) (fop : FileOp) : FileOp :=
  foldl (fun fop' error => report_png_error error fop') fop
        (callbacks lib call).

(** *** onLoad *)

(** The [switch] on the colour type: the pixel format, and
    [fop->seq.has_alpha] set for the two alpha types; [None] is the
    [default:] branch. *)
Definition select_format (color_type : Z) (fop : FileOp)
    : option (PixelFormat * FileOp) :=
  if (color_type =? PNG_COLOR_TYPE_RGB_ALPHA)%Z then
    Some (IMAGE_RGB, set_has_alpha true fop)
  else if (color_type =? PNG_COLOR_TYPE_RGB)%Z then
    Some (IMAGE_RGB, fop)
  else if (color_type =? PNG_COLOR_TYPE_GRAY_ALPHA)%Z then
    Some (IMAGE_GRAYSCALE, set_has_alpha true fop)
  else if (color_type =? PNG_COLOR_TYPE_GRAY)%Z then
    Some (IMAGE_GRAYSCALE, fop)
  else if (color_type =? PNG_COLOR_TYPE_PALETTE)%Z then
    Some (IMAGE_INDEXED, fop)
  else None.

(** [for (c = 0; c < num_palette; c++) fop_sequence_set_color(...)] *)
Fixpoint load_palette (palette : list png_color) (c : nat) (fop : FileOp)
    : FileOp :=
  match palette with
  | [] => fop
  | (r, g, b) :: palette' =>
      load_palette palette' (S c) (fop_sequence_set_color c r g b fop)
  end.

(** [for (; c < 256; c++) fop_sequence_set_color(fop, c, 0, 0, 0)],
    [n] entries from [c] on. *)
Fixpoint fill_palette (n c : nat) (fop : FileOp) : FileOp :=
  match n with
  | O => fop
  | S n' => fill_palette n' (S c) (fop_sequence_set_color c 0 0 0 fop)
  end.

(** The loop over the tRNS entries, from entry [i] on: the alpha table,
    [mask_entry] and the file operation after it; [None] when an entry
    falls beyond the table.  [pal_alphas[i] < 128] is tested on [t], the
    byte just stored in [pal_alphas[i]]. *)
Fixpoint load_trans (trans : list Z) (i : nat) (pal_alphas : list Z)
    (mask_entry : Z) (fop : FileOp) : option (list Z * Z * FileOp) :=
  match trans with
  | [] => Some (pal_alphas, mask_entry, fop)
  | t :: trans' =>
      if decide (i < length pal_alphas)%nat then
        let pal_alphas1 := <[i := t]> pal_alphas in
        if (t <? 128)%Z then
          load_trans trans' (S i) pal_alphas1
                     (if (mask_entry <? 0)%Z then Z.of_nat i else mask_entry)
                     (set_has_alpha true fop)
        else
          load_trans trans' (S i) pal_alphas1 mask_entry fop
      else None
  end.

(** The five row conversions; each reads [width] pixels from the scratch
    row and stops where the row ends. *)
Fixpoint load_rgb_alpha (width : nat) (src : list Z) : list Z :=
  match width, src with
  | S x, r :: g :: b :: a :: src' => rgba r g b a :: load_rgb_alpha x src'
  | _, _ => []
  end.

Fixpoint load_rgb (width : nat) (src : list Z) : list Z :=
  match width, src with
  | S x, r :: g :: b :: src' => rgba r g b 255 :: load_rgb x src'
  | _, _ => []
  end.

Fixpoint load_gray_alpha (width : nat) (src : list Z) : list Z :=
  match width, src with
  | S x, k :: a :: src' => graya k a :: load_gray_alpha x src'
  | _, _ => []
  end.

Fixpoint load_gray (width : nat) (src : list Z) : list Z :=
  match width, src with
  | S x, k :: src' => graya k 255 :: load_gray x src'
  | _, _ => []
  end.

Fixpoint load_indexed (pal_alphas : list Z) (mask_entry : Z) (width : nat)
    (src : list Z) : option (list Z) :=
  match width, src with
  | S x, c :: src' =>
      match pal_alphas !! Z.to_nat c with
      | Some alpha =>
          match load_indexed pal_alphas mask_entry x src' with
          | Some dst =>
              Some ((if (alpha <? 128)%Z then uint8 mask_entry else uint8 c)
                    :: dst)
          | None => None
          end
      | None => None
      end
  | _, _ => Some []
  end.

(** The [if]/[else if] chain of one row: the pixels to write, [Some None]
    when no branch applies, [None] on a read beyond [pal_alphas]. *)
Definition load_row (color_type : Z) (pal_alphas : list Z) (mask_entry : Z)
    (width : nat) (row_pointer : list Z) : option (option (list Z)) :=
  if (color_type =? PNG_COLOR_TYPE_RGB_ALPHA)%Z then
    Some (Some (load_rgb_alpha width row_pointer))
  else if (color_type =? PNG_COLOR_TYPE_RGB)%Z then
    Some (Some (load_rgb width row_pointer))
  else if (color_type =? PNG_COLOR_TYPE_GRAY_ALPHA)%Z then
    Some (Some (load_gray_alpha width row_pointer))
  else if (color_type =? PNG_COLOR_TYPE_GRAY)%Z then
    Some (Some (load_gray width row_pointer))
  else if (color_type =? PNG_COLOR_TYPE_PALETTE)%Z then
    match load_indexed pal_alphas mask_entry width row_pointer with
    | Some dst => Some (Some dst)
    | None => None
    end
  else Some None.

(** Writes row [y] of [fop->seq.image], the image [onLoad] fills. *)
Definition put_row (y : nat) (dst : option (list Z)) (fop : FileOp) : FileOp :=
  match dst, seq_image fop with
  | Some row, Some image => set_seq_image (Some (putPixels image y row)) fop
  | _, _ => fop
  end.

(** How the two nested loops end: they ran to their end (a [break] ends
    the row loop only), libpng jumped to the error handler, or an access
    was undefined. *)
Inductive Loop :=
| Finished (rows : list (list Z)) (fop : FileOp)
| Longjmp (fop : FileOp)
| Faulted (f : Fault) (fop : FileOp).

Section Rows.
Variable host : Host.
Variable lib : PngLib.
Variables (color_type : Z) (pal_alphas : list Z) (mask_entry : Z).
Variables (width height number_passes : nat).

(** [for (y = ...; y < height; y++)], [n] rows from [y] on; [rows] is
    what libpng still has to deliver.  [png_read_row] jumps to the error
    handler when it has no row to deliver. *)
Fixpoint load_rows (pass n y : nat) (rows : list (list Z)) (fop : FileOp)
    : Loop :=
  match n with
  | O => Finished rows fop
  | S n' =>
      let fop0 := png_call lib (ReadRow (length rows)) fop in
      match rows with
      | [] => Longjmp fop0
      | row_pointer :: rows' =>
          match load_row color_type pal_alphas mask_entry width
                         row_pointer with
          | None => Faulted PalAlphasRead fop0
          | Some dst =>
              let fop1 := put_row y dst fop0 in
              let fop2 :=
                fop_progress (mkProgress pass (y + 1) height number_passes)
                             fop1 in
              let '(stop, fop3) := fop_is_stop host fop2 in
              if stop then Finished rows' fop3
              else load_rows pass n' (S y) rows' fop3
          end
      end
  end.

(** [for (pass = ...; pass < number_passes; pass++)], [n] passes from
    [pass] on. *)
Fixpoint load_passes (n pass : nat) (rows : list (list Z)) (fop : FileOp)
    : Loop :=
  match n with
  | O => Finished rows fop
  | S n' =>
      match load_rows pass height 0 rows fop with
      | Finished rows' fop' => load_passes n' (S pass) rows' fop'
      | stopped => stopped
      end
  end.
End Rows.

(** The palette block of [onLoad]: entered for a palette image with a PLTE
    chunk; fills the palette, reads the alpha table and publishes the
    first transparent entry. *)
Definition load_palette_block (png : PngData) (fop : FileOp)
    : option (list Z * FileOp) :=
  let pal_alphas := replicate 256 255%Z in
  let mask_entry := (-1)%Z in
  if (png_color_type png =? PNG_COLOR_TYPE_PALETTE)%Z then
    match png_PLTE png with
    | Some palette =>
        let fop1 := load_palette palette 0 fop in
        let fop2 := fill_palette (256 - length palette)
                                 (length palette) fop1 in
        let trans := default [] (png_tRNS png) in
        match load_trans trans 0 pal_alphas mask_entry fop2 with
        | Some (pal_alphas', mask_entry', fop3) =>
            if (0 <=? mask_entry')%Z then
              Some (pal_alphas',
                    set_sprite (setTransparentColor mask_entry' (sprite fop3))
                               fop3)
            else Some (pal_alphas', fop3)
        | None => None
        end
    | None => Some (pal_alphas, fop)
    end
  else Some (pal_alphas, fop).

(** The file operation once libpng is through the calls that come before
    the [switch]: creation of the struct and reading of the header. *)
Definition png_read_header (lib : PngLib) (fop : FileOp) : FileOp :=
  png_call lib ReadInfo (png_call lib CreateStruct fop).

Definition onLoad (host : Host) (lib : PngLib) (fop : FileOp)
    : Outcome * FileOp :=
  if negb (create_struct lib) then
    (Returned false,
     fop_error "png_create_read_struct" (png_call lib CreateStruct fop))
  else if negb (create_info_struct lib) then
    (Returned false,
     fop_error "png_create_info_struct" (png_call lib CreateStruct fop))
  else
    let fop0 := png_read_header lib fop in
    match read_info lib with
    | None => (Returned false, fop_error "Error reading PNG file" fop0)
    | Some png =>
        let width := png_width png in
        let height := png_height png in
        let number_passes := png_set_interlace_handling png in
        match select_format (png_color_type png) fop0 with
        | None => (Returned false, fop_error "Color type not supported)" fop0)
        | Some (pixelFormat, fop1) =>
            match fop_sequence_image host pixelFormat width height fop1 with
            | (None, fop2) =>
                (Returned false,
                 fop_error ("file_sequence_image " +:+ pretty width +:+ "x"
                            +:+ pretty height) fop2)
            | (Some _, fop2) =>
                match load_palette_block png fop2 with
                | None => (Undefined PalAlphasWrite, fop2)
                | Some (pal_alphas, fop3) =>
                    let mask_entry := transparentColor (sprite fop3) in
                    match load_passes host lib (png_color_type png) pal_alphas
                                      mask_entry width height number_passes
                                      number_passes 0 (png_rows png) fop3 with
                    | Finished _ fop4 => (Returned true, fop4)
                    | Longjmp fop4 =>
                        (Returned false,
                         fop_error "Error reading PNG file" fop4)
                    | Faulted f fop4 => (Undefined f, fop4)
                    end
                end
            end
        end
    end.

(** *** onSave *)

Fixpoint save_rgb_alpha (width : nat) (src : list Z) : list Z :=
  match width, src with
  | S x, c :: src' =>
      rgba_getr c :: rgba_getg c :: rgba_getb c :: rgba_geta c
      :: save_rgb_alpha x src'
  | _, _ => []
  end.

Fixpoint save_rgb (width : nat) (src : list Z) : list Z :=
  match width, src with
  | S x, c :: src' =>
      rgba_getr c :: rgba_getg c :: rgba_getb c :: save_rgb x src'
  | _, _ => []
  end.

Fixpoint save_gray_alpha (width : nat) (src : list Z) : list Z :=
  match width, src with
  | S x, c :: src' => graya_getv c :: graya_geta c :: save_gray_alpha x src'
  | _, _ => []
  end.

Fixpoint save_gray (width : nat) (src : list Z) : list Z :=
  match width, src with
  | S x, c :: src' => graya_getv c :: save_gray x src'
  | _, _ => []
  end.

Fixpoint save_indexed (width : nat) (src : list Z) : list Z :=
  match width, src with
  | S x, c :: src' => c :: save_indexed x src'
  | _, _ => []
  end.

Definition save_row (color_type : Z) (width : nat) (src : list Z) : list Z :=
  if (color_type =? PNG_COLOR_TYPE_RGB_ALPHA)%Z then save_rgb_alpha width src
  else if (color_type =? PNG_COLOR_TYPE_RGB)%Z then save_rgb width src
  else if (color_type =? PNG_COLOR_TYPE_GRAY_ALPHA)%Z then
    save_gray_alpha width src
  else if (color_type =? PNG_COLOR_TYPE_GRAY)%Z then save_gray width src
  else if (color_type =? PNG_COLOR_TYPE_PALETTE)%Z then save_indexed width src
  else [].

(** The row loop of [onSave], [n] rows from [y] on: the rows handed to
    [png_write_rows] and the progress reported; [None] when libpng fails
    in one of these calls and jumps to the error handler. *)
Fixpoint save_rows (lib : PngLib) (image : Image) (color_type : Z)
    (width height : nat) (n y : nat) (fop : FileOp)
    : option (list (list Z)) * FileOp :=
  match n with
  | O => (Some [], fop)
  | S n' =>
      let row_pointer := save_row color_type width (getPixelAddress image y) in
      let fop1 := png_call lib (WriteRow y) fop in
      if write_fails lib (WriteRow y) then (None, fop1)
      else
        let fop2 := fop_progress (mkProgress 0 (y + 1) height 1) fop1 in
        let '(rows, fop3) :=
          save_rows lib image color_type width height n' (S y) fop2 in
        (cons row_pointer <$> rows, fop3)
  end.

(** The [switch] on the pixel format. *)
Definition save_color_type (image : Image) (s : Sprite) : Z :=
  match pixelFormat image with
  | IMAGE_RGB =>
      if needAlpha s then PNG_COLOR_TYPE_RGB_ALPHA else PNG_COLOR_TYPE_RGB
  | IMAGE_GRAYSCALE =>
      if needAlpha s then PNG_COLOR_TYPE_GRAY_ALPHA else PNG_COLOR_TYPE_GRAY
  | IMAGE_INDEXED => PNG_COLOR_TYPE_PALETTE
  end.

(** [for (c = 0; c < PNG_MAX_PALETTE_LENGTH; c++)]: the palette written. *)
Definition save_palette (fop : FileOp) : list png_color :=
  map (fun c => let '(r, g, b) := fop_sequence_get_color c fop in
                (uint8 r, uint8 g, uint8 b))
      (seq 0 PNG_MAX_PALETTE_LENGTH).

(** [trans[c] = (c == mask_entry ? 0: 255)] for [c < num_trans], with
    [num_trans = mask_entry+1] not negative. *)
Definition save_trans (mask_entry : Z) : list Z :=
  let num_trans := (mask_entry + 1)%Z in
  map (fun c => if (Z.of_nat c =? mask_entry)%Z then 0%Z else 255%Z)
      (seq 0 (Z.to_nat num_trans)).

(** [onSave] returns its outcome, the file operation, and the file that
    libpng has written when it got through all its calls. *)
Definition onSave (lib : PngLib) (fop : FileOp)
    : Outcome * FileOp * option PngData :=
  let fop0 := png_call lib CreateStruct fop in
  if negb (create_struct lib) then (Returned false, fop0, None)
  else if negb (create_info_struct lib) then (Returned false, fop0, None)
  else
    match seq_image fop0 with
    | None => (Undefined NullImage, fop0, None)
    | Some image =>
        let width := doc.width image in
        let height := doc.height image in
        let color_type := save_color_type image (sprite fop0) in
        let indexed :=
          match pixelFormat image with IMAGE_INDEXED => true | _ => false end in
        let with_trans := indexed && negb (backgroundLayer (sprite fop0)) in
        let mask_entry := transparentColor (sprite fop0) in
        if with_trans && (mask_entry + 1 <? 0)%Z then
          (Undefined TransSize, fop0, None)
        else
          let plte := if indexed then Some (save_palette fop0) else None in
          let trns := if with_trans then Some (save_trans mask_entry)
                      else None in
          let fop1 := png_call lib WriteInfo fop0 in
          if write_fails lib WriteInfo then (Returned false, fop1, None)
          else
            match save_rows lib image color_type width height height 0 fop1
            with
            | (None, fop2) => (Returned false, fop2, None)
            | (Some rows, fop2) =>
                let fop3 := png_call lib WriteEnd fop2 in
                if write_fails lib WriteEnd then (Returned false, fop3, None)
                else
                  (Returned true, fop3,
                   Some (mkPngData width height 8 color_type
                                   PNG_INTERLACE_NONE plte trns rows))
            end
    end.

(** libpng reading back a file it wrote: the structs are created, the
    header is read, and libpng has nothing to report. *)
Definition reopen (png : PngData) : PngLib :=
  mkPngLib true true (Some png) (fun _ => false) (fun _ => []).

End PngFormat.

(** ** app::cmd::ReplaceImage *)

Module ReplaceImage.
Import doc.

(** The command: the two identities, the new image until it is handed to
    the sprite, and the private copy of the displaced image. *)
Record Cmd := mkCmd {
  m_oldImageId : ObjectId;
  m_newImageId : ObjectId;
  m_newImage : option Image;
  m_copy : option Image;
}.

Definition create (oldImage newImage : Image) : Cmd :=
  mkCmd (id oldImage) (id newImage) (Some newImage) None.

(** Each step returns [None] where the code asserts or dereferences a
    null reference: the command was called out of order. *)
Definition onExecute (cmd : Cmd) (s : Sprite) : option (Cmd * Sprite) :=
  match getImageRef (m_oldImageId cmd) s with
  | None => None
  | Some oldImage =>
      let copy := createCopy oldImage in
      match m_newImage cmd with
      | None => None
      | Some newImage =>
          Some (mkCmd (m_oldImageId cmd) (m_newImageId cmd) None (Some copy),
                replaceImage (m_oldImageId cmd) newImage s)
      end
  end.

Definition onUndo (cmd : Cmd) (s : Sprite) : option (Cmd * Sprite) :=
  match getImageRef (m_newImageId cmd) s with
  | None => None
  | Some newImage =>
      match getImageRef (m_oldImageId cmd) s with
      | Some _ => None
      | None =>
          match m_copy cmd with
          | None => None
          | Some copy =>
              let copy1 := setId (m_oldImageId cmd) copy in
              Some (mkCmd (m_oldImageId cmd) (m_newImageId cmd)
                          (m_newImage cmd) (Some (createCopy newImage)),
                    replaceImage (m_newImageId cmd) copy1 s)
          end
      end
  end.

Definition onRedo (cmd : Cmd) (s : Sprite) : option (Cmd * Sprite) :=
  match getImageRef (m_oldImageId cmd) s with
  | None => None
  | Some oldImage =>
      match getImageRef (m_newImageId cmd) s with
      | Some _ => None
      | None =>
          match m_copy cmd with
          | None => None
          | Some copy =>
              let copy1 := setId (m_newImageId cmd) copy in
              Some (mkCmd (m_oldImageId cmd) (m_newImageId cmd)
                          (m_newImage cmd) (Some (createCopy oldImage)),
                    replaceImage (m_oldImageId cmd) copy1 s)
          end
      end
  end.

End ReplaceImage.

(** ** Vocabulary of the statements *)

Module props.
Import doc file PngFormat.

(** The lowest index of an alpha table whose value is below 128. *)
Fixpoint first_transparent (trans : list Z) : option nat :=
  match trans with
  | [] => None
  | t :: trans' =>
      if (t <? 128)%Z then Some 0%nat else S <$> first_transparent trans'
  end.

(** The alpha of palette entry [c]: what the tRNS chunk supplies, 255 for
    the entries it does not cover. *)
Definition entry_alpha (trans : list Z) (c : Z) : Z :=
  default 255%Z (trans !! Z.to_nat c).

Definition is_byte (z : Z) : Prop := (0 <= z < 256)%Z.

Definition byte_rows (rows : list (list Z)) : Prop :=
  Forall (Forall is_byte) rows.

(** The pixels of a row fit the pixel type of the format. *)
Definition pixel_bits (f : PixelFormat) : Z :=
  match f with IMAGE_RGB => 32 | IMAGE_GRAYSCALE => 16 | IMAGE_INDEXED => 8 end.

Definition is_pixel (f : PixelFormat) (c : Z) : Prop :=
  (0 <= c < 2 ^ pixel_bits f)%Z.

(** An image buffer as allocated: [height] rows of [width] pixels. *)
Definition wf_image (image : Image) : Prop :=
  length (pixels image) = height image /\
  Forall (fun row => length row = width image /\
                     Forall (is_pixel (pixelFormat image)) row)
         (pixels image).

(** The host hands out an image of the format and size it is asked for. *)
Definition allocates (host : Host) (f : PixelFormat) (w h : nat)
    (image : Image) : Prop :=
  sequence_image host f w h = Some image /\
  pixelFormat image = f /\ width image = w /\ height image = h /\
  length (pixels image) = h.

(** None of the next [n] polls of the cancellation flag finds it set. *)
Definition not_stopped (host : Host) (fop : FileOp) (n : nat) : Prop :=
  forall k, (k < n)%nat -> is_stop host (stop_polls fop + k) = false.

(** libpng opens the file [png]. *)
Definition opens (lib : PngLib) (png : PngData) : Prop :=
  create_struct lib = true /\ create_info_struct lib = true /\
  read_info lib = Some png.

(** libpng gets through every call of a save. *)
Definition completes (lib : PngLib) : Prop :=
  forall call, write_fails lib call = false.

(** [fop] with further messages. *)
Definition logged (msgs : list string) (fop : FileOp) : FileOp :=
  mkFileOp (sprite fop) (seq_palette fop) (seq_image fop) (seq_has_alpha fop)
           (errors fop ++ msgs) (progress fop) (image_requests fop)
           (stop_polls fop).

(** The messages [errors'] are [errors] followed by texts that libpng
    reported. *)
Definition reported (errors errors' : list string) : Prop :=
  exists texts, errors' = errors ++ (String.append "libpng: " <$> texts).

Definition supported_color_type (color_type : Z) : Prop :=
  color_type = PNG_COLOR_TYPE_RGB \/ color_type = PNG_COLOR_TYPE_RGB_ALPHA \/
  color_type = PNG_COLOR_TYPE_GRAY \/ color_type = PNG_COLOR_TYPE_GRAY_ALPHA \/
  color_type = PNG_COLOR_TYPE_PALETTE.

(** The mask entry the tRNS loop ends with. *)
Definition resolved (trans : list Z) (i : nat) (mask_entry : Z) : Z :=
  if (mask_entry <? 0)%Z then
    match first_transparent trans with
    | Some k => Z.of_nat (i + k)
    | None => mask_entry
    end
  else mask_entry.

Definition flagged (trans : list Z) (fop : FileOp) : FileOp :=
  if existsb (fun a => (a <? 128)%Z) trans then set_has_alpha true fop else fop.

(** [image] with other pixels. *)
Definition with_pixels (image : Image) (px : list (list Z)) : Image :=
  mkImage (id image) (pixelFormat image) (width image) (height image) px.

(** The pixel at column [x] of row [y]. *)
Definition pixel_at (image : Image) (x y : nat) : option Z :=
  pixels image !! y ≫= fun row => row !! x.

(** The conversion of one indexed row, entry by entry. *)
Definition indexed_pixel (pal_alphas : list Z) (mask_entry : Z) (c : Z) : Z :=
  if (default 255%Z (pal_alphas !! Z.to_nat c) <? 128)%Z
  then uint8 mask_entry else uint8 c.

(** What the row loops leave alone: everything but the image, the
    progress reports and the count of polls; the only messages they add
    are those of libpng. *)
Definition kept (fop fop' : FileOp) : Prop :=
  sprite fop' = sprite fop /\ seq_palette fop' = seq_palette fop /\
  seq_has_alpha fop' = seq_has_alpha fop /\
  reported (errors fop) (errors fop') /\
  image_requests fop' = image_requests fop.

Definition loop_fop (l : Loop) : FileOp :=
  match l with
  | Finished _ fop => fop
  | Longjmp fop => fop
  | Faulted _ fop => fop
  end.

End props.

(** ** Concrete inputs *)

Module samples.
Import doc file PngFormat.

Definition blank (f : PixelFormat) (w h : nat) : Image :=
  mkImage 7 f w h (replicate h (replicate w 0%Z)).

(** A host that never cancels, one whose flag is set from the first poll
    on, and one whose flag is set from poll [k] on. *)
Definition host_run : Host :=
  mkHost (fun _ => false) (fun f w h => Some (blank f w h)).
Definition host_cancel : Host :=
  mkHost (fun _ => true) (fun f w h => Some (blank f w h)).
Definition host_cancel_at (k : nat) : Host :=
  mkHost (fun n => bool_decide (k <= n)%nat) (fun f w h => Some (blank f w h)).

Definition sprite5 : Sprite := mkSprite 5 true false ∅.

Definition fop5 : FileOp :=
  mkFileOp sprite5 (replicate 256 (0, 0, 0)%Z) None false [] [] [] 0.

Definition colors : list png_color :=
  [(0, 0, 0); (255, 0, 0); (0, 255, 0); (0, 0, 255); (9, 9, 9); (1, 2, 3)]%Z.

(** A 3x2 palette image with the alpha table [255,255,0,255,50,255]. *)
Definition indexed_png : PngData :=
  mkPngData 3 2 8 PNG_COLOR_TYPE_PALETTE PNG_INTERLACE_NONE
            (Some colors) (Some [255; 255; 0; 255; 50; 255]%Z)
            [[0; 2; 4]; [1; 4; 5]]%Z.

(** The same palette image without a transparent entry. *)
Definition opaque_png : PngData :=
  mkPngData 3 2 8 PNG_COLOR_TYPE_PALETTE PNG_INTERLACE_NONE
            (Some colors) (Some [255; 200; 128]%Z)
            [[0; 2; 4]; [1; 4; 5]]%Z.

(** A header with a colour type libpng does not define. *)
Definition odd_png : PngData :=
  mkPngData 3 2 8 5 PNG_INTERLACE_NONE None None [[0; 2; 4]; [1; 4; 5]]%Z.

(** A 1x2 interlaced grayscale image: libpng delivers a row for each of
    the 7 passes over the 2 rows. *)
Definition interlaced_png : PngData :=
  mkPngData 1 2 8 PNG_COLOR_TYPE_GRAY PNG_INTERLACE_ADAM7 None None
            [[10]; [11]; [20]; [21]; [30]; [31]; [40]; [41]; [50]; [51];
             [60]; [61]; [70]; [71]]%Z.

Definition rgb_image : Image :=
  mkImage 3 IMAGE_RGB 2 2 [[4278190335; 16909060]; [0; 2155905152]]%Z.

Definition gray_image : Image :=
  mkImage 4 IMAGE_GRAYSCALE 2 1 [[65535; 258]]%Z.

Definition indexed_image : Image :=
  mkImage 6 IMAGE_INDEXED 2 1 [[2; 1]]%Z.

Definition with_image (image : Image) (s : Sprite) : FileOp :=
  mkFileOp s (replicate 256 (0, 0, 0)%Z) (Some image) false [] [] [] 0.

(** A libpng that creates its structs, writes without failing and has
    nothing to report. *)
Definition lib_ok : PngLib :=
  mkPngLib true true None (fun _ => false) (fun _ => []).

(** A sprite whose registry binds image 1. *)
Definition old_image : Image := mkImage 1 IMAGE_INDEXED 2 1 [[1; 2]]%Z.
Definition new_image : Image := mkImage 2 IMAGE_INDEXED 2 1 [[3; 4]]%Z.
Definition sprite_reg : Sprite := mkSprite 0 false true {[ 1%nat := old_image ]}.

End samples.

(** ** Vocabulary of the further statements *)

Module more.
Import doc file PngFormat props ReplaceImage.

(** The pixel format that [onLoad] chooses for a colour type. *)
Definition format_of (color_type : Z) : PixelFormat :=
  if (color_type =? PNG_COLOR_TYPE_RGB_ALPHA)%Z then IMAGE_RGB
  else if (color_type =? PNG_COLOR_TYPE_RGB)%Z then IMAGE_RGB
  else if (color_type =? PNG_COLOR_TYPE_GRAY_ALPHA)%Z then IMAGE_GRAYSCALE
  else if (color_type =? PNG_COLOR_TYPE_GRAY)%Z then IMAGE_GRAYSCALE
  else IMAGE_INDEXED.

Definition has_alpha_channel (color_type : Z) : bool :=
  (color_type =? PNG_COLOR_TYPE_RGB_ALPHA)%Z
  || (color_type =? PNG_COLOR_TYPE_GRAY_ALPHA)%Z.

(** Bytes per pixel of a row of the file. *)
Definition channels (color_type : Z) : nat :=
  if (color_type =? PNG_COLOR_TYPE_RGB_ALPHA)%Z then 4
  else if (color_type =? PNG_COLOR_TYPE_RGB)%Z then 3
  else if (color_type =? PNG_COLOR_TYPE_GRAY_ALPHA)%Z then 2
  else 1.

(** The alpha table of a file: its tRNS entries, 255 beyond them. *)
Definition file_alphas (png : PngData) : list Z :=
  list_inserts 0 (default [] (png_tRNS png)) (replicate 256 255%Z).

(** The pixels that one delivered row is converted to. *)
Definition row_pixels (color_type : Z) (pal_alphas : list Z) (mask_entry : Z)
    (w : nat) (row_pointer : list Z) : list Z :=
  match load_row color_type pal_alphas mask_entry w row_pointer with
  | Some (Some dst) => dst
  | _ => []
  end.

(** What libpng guarantees of the chunks and rows it hands over: a palette
    image has its PLTE chunk and at most 256 tRNS entries, and rows are
    rows of bytes. *)
Definition well_read (png : PngData) : Prop :=
  (png_color_type png = PNG_COLOR_TYPE_PALETTE ->
   is_Some (png_PLTE png) /\
   (length (default [] (png_tRNS png)) <= 256)%nat) /\
  byte_rows (png_rows png).

(** The alpha of a pixel, and the pixel made opaque. *)
Definition pixel_alpha (f : PixelFormat) (c : Z) : Z :=
  match f with
  | IMAGE_RGB => rgba_geta c
  | IMAGE_GRAYSCALE => graya_geta c
  | IMAGE_INDEXED => 255
  end.

Definition opaque_pixel (f : PixelFormat) (c : Z) : Z :=
  match f with
  | IMAGE_RGB => rgba (rgba_getr c) (rgba_getg c) (rgba_getb c) 255
  | IMAGE_GRAYSCALE => graya (graya_getv c) 255
  | IMAGE_INDEXED => c
  end.

Definition opaque_rows (f : PixelFormat) (px : list (list Z)) : list (list Z) :=
  (fun row : list Z => opaque_pixel f <$> row) <$> px.

(** [image'] is [image] up to the contents of its rows. *)
Definition same_shape (image image' : Image) : Prop :=
  id image' = id image /\ pixelFormat image' = pixelFormat image /\
  width image' = width image /\ height image' = height image /\
  length (pixels image') = length (pixels image).

(** The progress reports of one pass, and of a whole load. *)
Definition pass_reports (pass h np : nat) : list Progress :=
  (fun y => mkProgress pass (y + 1) h np) <$> seq 0 h.

Definition load_reports (np h : nat) : list Progress :=
  flat_map (fun pass => pass_reports pass h np) (seq 0 np).

Definition black : png_color := (0, 0, 0)%Z.

Definition is_color (c : png_color) : Prop :=
  is_byte c.1.1 /\ is_byte c.1.2 /\ is_byte c.2.

(** A command as [create] makes it and the steps keep it: the new image,
    while the command holds it, carries the new identity. *)
Definition wf_cmd (cmd : Cmd) : Prop :=
  m_oldImageId cmd <> m_newImageId cmd /\
  forall image, m_newImage cmd = Some image -> id image = m_newImageId cmd.

(** [n] times undo and then redo. *)
Fixpoint undo_redo (n : nat) (cmd : Cmd) (s : Sprite) : option (Cmd * Sprite) :=
  match n with
  | O => Some (cmd, s)
  | S n' =>
      match onUndo cmd s with
      | Some (cmd1, s1) =>
          match onRedo cmd1 s1 with
          | Some (cmd2, s2) => undo_redo n' cmd2 s2
          | None => None
          end
      | None => None
      end
  end.

(** Further concrete inputs. *)
Definition gray_png : PngData :=
  mkPngData 2 2 8 PNG_COLOR_TYPE_GRAY PNG_INTERLACE_NONE None None
            [[10; 20]; [30; 40]]%Z.

Definition short_png : PngData :=
  mkPngData 2 2 8 PNG_COLOR_TYPE_GRAY PNG_INTERLACE_NONE None None [[10; 20]]%Z.

Definition rgb_png : PngData :=
  mkPngData 1 1 8 PNG_COLOR_TYPE_RGB PNG_INTERLACE_NONE None None [[1; 2; 3]]%Z.

Definition opaque_rgb_image : Image :=
  mkImage 3 IMAGE_RGB 2 1 [[4278190335; 4278255873]]%Z.

Definition sprite_opaque : Sprite := mkSprite 0 false true ∅.

Definition sprite_mask2 : Sprite := mkSprite 2 false false ∅.

Definition fop_colors : FileOp :=
  mkFileOp sprite_mask2
           ([(1, 2, 3); (4, 5, 6)]%Z ++ replicate 254 (0, 0, 0)%Z)
           (Some samples.indexed_image) false [] [] [] 0.

Definition edited_image : Image := mkImage 2 IMAGE_INDEXED 2 1 [[9; 9]]%Z.

Definition other_image : Image := mkImage 5 IMAGE_INDEXED 1 1 [[7]]%Z.

Definition sprite_two : Sprite :=
  mkSprite 0 false true {[ 1%nat := samples.old_image; 5%nat := other_image ]}.

(** The libpng calls of a save of [h] rows that can fail, in the order in
    which [onSave] makes them. *)
Definition save_calls (h : nat) : list PngCall :=
  WriteInfo :: (WriteRow <$> seq 0 h) ++ [WriteEnd].

(** A libpng whose write fails at row [y] with the text "Write Error". *)
Definition lib_fail_at (y : nat) : PngLib :=
  mkPngLib true true None
    (fun call => match call with
                 | WriteRow y' => bool_decide (y' = y)
                 | _ => false
                 end)
    (fun call => match call with
                 | WriteRow y' => if bool_decide (y' = y) then ["Write Error"]
                                  else []
                 | _ => []
                 end).


End more.

Import doc file PngFormat props.

(** ** The callbacks of libpng *)

Section Callbacks.

Lemma logged_nil fop : logged [] fop = fop.
Proof. destruct fop. unfold logged. simpl. rewrite app_nil_r. reflexivity. Qed.

Lemma logged_logged a b fop : logged b (logged a fop) = logged (a ++ b) fop.
Proof. unfold logged. simpl. rewrite app_assoc. reflexivity. Qed.

Lemma fop_error_logged msg fop : fop_error msg fop = logged [msg] fop.
Proof. reflexivity. Qed.

(** A libpng call adds its texts to the messages and changes nothing
    else. *)
Lemma png_call_logged lib call fop :
  png_call lib call fop
  = logged (String.append "libpng: " <$> callbacks lib call) fop.
Proof.
  unfold png_call. generalize (callbacks lib call) as texts. intros texts.
  revert fop. induction texts as [|t texts IH]; intros fop; simpl.
  - symmetry. apply logged_nil.
  - rewrite IH. unfold report_png_error. rewrite fop_error_logged.
    apply logged_logged.
Qed.

Lemma png_read_header_logged lib fop :
  png_read_header lib fop
  = logged (String.append "libpng: "
              <$> (callbacks lib CreateStruct ++ callbacks lib ReadInfo)) fop.
Proof.
  unfold png_read_header. rewrite !png_call_logged, logged_logged, fmap_app.
  reflexivity.
Qed.

Lemma reported_refl l : reported l l.
Proof. exists []. simpl. rewrite app_nil_r. reflexivity. Qed.

Lemma reported_trans l1 l2 l3 :
  reported l1 l2 -> reported l2 l3 -> reported l1 l3.
Proof.
  intros [t1 ->] [t2 ->]. exists (t1 ++ t2).
  rewrite fmap_app, app_assoc. reflexivity.
Qed.

Lemma reported_logged texts fop :
  reported (errors fop)
           (errors (logged (String.append "libpng: " <$> texts) fop)).
Proof. exists texts. reflexivity. Qed.

End Callbacks.

(** Rewrites the libpng calls of the goal into the messages they add. *)
Ltac calls := rewrite ?png_read_header_logged, ?png_call_logged; simpl.

(** ** Packing and unpacking of samples *)

Section Samples.
Local Open Scope Z_scope.

Lemma uint8_small z : 0 <= z < 256 -> uint8 z = z.
Proof. intros H. unfold uint8. apply Z.mod_small. lia. Qed.

Lemma sample_range c s : 0 <= Z.land (Z.shiftr c s) 255 < 256.
Proof.
  change 255 with (Z.ones 8). rewrite Z.land_ones by lia.
  apply Z.mod_pos_bound. lia.
Qed.

Lemma sample_testbit c s n :
  0 <= n ->
  Z.testbit (Z.land (Z.shiftr c s) 255) n = Z.testbit c (n + s) && (n <? 8).
Proof.
  intros Hn. change 255 with (Z.ones 8).
  rewrite Z.land_spec, Z.shiftr_spec by lia.
  destruct (Z.ltb_spec n 8).
  - rewrite Z.ones_spec_low by lia. reflexivity.
  - rewrite Z.ones_spec_high by lia. reflexivity.
Qed.

Lemma testbit_beyond c k n :
  0 <= c < 2 ^ k -> 0 <= k -> k <= n -> Z.testbit c n = false.
Proof.
  intros Hc Hk Hn. rewrite <- (Z.mod_small c (2 ^ k)) by lia.
  apply Z.mod_pow2_bits_high. lia.
Qed.

Ltac split_bit n :=
  repeat match goal with
         | |- context [(?a <? ?b)] => destruct (Z.ltb_spec a b); try lia
         end;
  rewrite ?Z.sub_add, ?Z.add_0_r, ?andb_true_r, ?andb_false_r,
          ?orb_false_r, ?orb_false_l;
  try reflexivity.

(** A 32-bit pixel is the packing of its four samples. *)
Lemma rgba_getters c :
  0 <= c < 2 ^ 32 ->
  rgba (rgba_getr c) (rgba_getg c) (rgba_getb c) (rgba_geta c) = c.
Proof.
  intros Hc. unfold rgba, rgba_getr, rgba_getg, rgba_getb, rgba_geta.
  rewrite !uint8_small by apply sample_range.
  unfold rgba_r_shift, rgba_g_shift, rgba_b_shift, rgba_a_shift.
  apply Z.bits_inj'. intros n Hn.
  rewrite !Z.lor_spec, !Z.shiftl_spec by lia.
  destruct (Z.ltb_spec n 8) as [H8|H8];
    [|destruct (Z.ltb_spec n 16) as [H16|H16];
      [|destruct (Z.ltb_spec n 24) as [H24|H24]]].
  all: rewrite ?(Z.testbit_neg_r _ (n - 8)), ?(Z.testbit_neg_r _ (n - 16)),
         ?(Z.testbit_neg_r _ (n - 24)) by lia.
  all: rewrite ?sample_testbit by lia.
  all: split_bit n.
  symmetry. apply (testbit_beyond c 32); lia.
Qed.

(** A 16-bit pixel is the packing of its two samples. *)
Lemma graya_getters c :
  0 <= c < 2 ^ 16 -> graya (graya_getv c) (graya_geta c) = c.
Proof.
  intros Hc. unfold graya, graya_getv, graya_geta.
  rewrite !uint8_small by apply sample_range.
  unfold graya_v_shift, graya_a_shift.
  apply Z.bits_inj'. intros n Hn.
  rewrite !Z.lor_spec, !Z.shiftl_spec by lia.
  destruct (Z.ltb_spec n 8) as [H8|H8].
  all: rewrite ?(Z.testbit_neg_r _ (n - 8)) by lia.
  all: rewrite ?sample_testbit by lia.
  all: split_bit n.
  symmetry. apply (testbit_beyond c 16); lia.
Qed.

Lemma load_save_rgb_alpha row :
  Forall (is_pixel IMAGE_RGB) row ->
  load_rgb_alpha (length row) (save_rgb_alpha (length row) row) = row.
Proof.
  induction 1 as [|c row Hc _ IH]; simpl; [reflexivity|].
  rewrite IH. f_equal. apply rgba_getters. exact Hc.
Qed.

Lemma load_save_gray_alpha row :
  Forall (is_pixel IMAGE_GRAYSCALE) row ->
  load_gray_alpha (length row) (save_gray_alpha (length row) row) = row.
Proof.
  induction 1 as [|c row Hc _ IH]; simpl; [reflexivity|].
  rewrite IH. f_equal. apply graya_getters. exact Hc.
Qed.
End Samples.

(** ** The alpha table and the mask index *)

Section Transparency.

Lemma first_transparent_lowest trans k :
  first_transparent trans = Some k ->
  (exists a, trans !! k = Some a /\ (a < 128)%Z) /\
  (forall j a, (j < k)%nat -> trans !! j = Some a -> (128 <= a)%Z).
Proof.
  revert k. induction trans as [|t trans IH]; intros k; simpl; [discriminate|].
  destruct (Z.ltb_spec t 128) as [Ht|Ht].
  - intros [= <-]. split; [exists t; auto | intros j a Hj; lia].
  - destruct (first_transparent trans) as [k'|] eqn:Hk'; simpl; [|discriminate].
    intros [= <-]. destruct (IH k' eq_refl) as [Hat Hlow]. split; [exact Hat|].
    intros [|j] a Hj; simpl.
    + intros [= <-]. exact Ht.
    + apply Hlow. lia.
Qed.

Lemma first_transparent_none trans :
  first_transparent trans = None -> Forall (fun a => (128 <= a)%Z) trans.
Proof.
  induction trans as [|t trans IH]; simpl; [constructor|].
  destruct (Z.ltb_spec t 128) as [Ht|Ht]; [discriminate|].
  destruct (first_transparent trans); simpl; [discriminate|].
  intros _. constructor; auto.
Qed.

Lemma first_transparent_opaque trans :
  Forall (fun a => (128 <= a)%Z) trans -> first_transparent trans = None.
Proof.
  induction 1 as [|t trans Ht _ IH]; simpl; [reflexivity|].
  destruct (Z.ltb_spec t 128); [lia|]. rewrite IH. reflexivity.
Qed.

(** The lowest transparent index is the one [first_transparent] finds. *)
Lemma first_transparent_unique trans k a :
  trans !! k = Some a -> (a < 128)%Z ->
  (forall j a', (j < k)%nat -> trans !! j = Some a' -> (128 <= a')%Z) ->
  first_transparent trans = Some k.
Proof.
  revert k. induction trans as [|t trans IH]; intros k Hk Ha Hlow;
    [discriminate|]. simpl.
  destruct k as [|k]; simpl in Hk.
  - injection Hk as ->. destruct (Z.ltb_spec a 128); [reflexivity|lia].
  - destruct (Z.ltb_spec t 128) as [Ht|Ht].
    + specialize (Hlow 0%nat t ltac:(lia) eq_refl). lia.
    + rewrite (IH k Hk Ha); [reflexivity|].
      intros j a' Hj Hj'. apply (Hlow (S j) a'); [lia|exact Hj'].
Qed.

Lemma first_transparent_exists trans :
  existsb (fun a => (a <? 128)%Z) trans = true ->
  exists k, first_transparent trans = Some k.
Proof.
  induction trans as [|t trans IH]; simpl; [discriminate|].
  destruct (t <? 128)%Z; simpl; [eauto|].
  intros H. destruct (IH H) as [k ->]. simpl. eauto.
Qed.

Lemma first_transparent_existsb trans :
  existsb (fun a => (a <? 128)%Z) trans = bool_decide (is_Some (first_transparent trans)).
Proof.
  induction trans as [|t trans IH]; simpl; [reflexivity|].
  destruct (t <? 128)%Z; simpl; [reflexivity|].
  rewrite IH. destruct (first_transparent trans); reflexivity.
Qed.

Lemma first_transparent_lt trans k :
  first_transparent trans = Some k -> (k < length trans)%nat.
Proof.
  intros H. destruct (first_transparent_lowest _ _ H) as [[a [Ha _]] _].
  eapply lookup_lt_Some, Ha.
Qed.

Lemma resolved_cons t trans i me :
  resolved (t :: trans) i me =
  if (t <? 128)%Z then (if (me <? 0)%Z then Z.of_nat i else me)
  else resolved trans (S i) me.
Proof.
  unfold resolved. simpl. destruct (t <? 128)%Z; simpl.
  - destruct (me <? 0)%Z; [f_equal; lia|reflexivity].
  - destruct (me <? 0)%Z; [|reflexivity].
    destruct (first_transparent trans); simpl; [f_equal; lia|reflexivity].
Qed.

Lemma resolved_keep trans i me : (0 <= me)%Z -> resolved trans i me = me.
Proof. intros H. unfold resolved. destruct (Z.ltb_spec me 0); [lia|reflexivity]. Qed.

Lemma flagged_cons t trans fop :
  flagged (t :: trans) fop =
  if (t <? 128)%Z then set_has_alpha true fop else flagged trans fop.
Proof. unfold flagged. simpl. destruct (t <? 128)%Z; reflexivity. Qed.

Lemma flagged_set trans fop :
  flagged trans (set_has_alpha true fop) = set_has_alpha true fop.
Proof. unfold flagged. destruct (existsb _ trans); reflexivity. Qed.

(** The tRNS loop in one step: the entries are written from [i] on, the
    mask entry is the first transparent one, and the flag is raised when
    there is one. *)
Lemma load_trans_run trans i pal_alphas mask_entry fop :
  (i + length trans <= length pal_alphas)%nat ->
  load_trans trans i pal_alphas mask_entry fop =
  Some (list_inserts i trans pal_alphas, resolved trans i mask_entry,
        flagged trans fop).
Proof.
  revert i pal_alphas mask_entry fop.
  induction trans as [|t trans IH]; intros i pa me fop Hlen; simpl in *.
  - unfold resolved. destruct (me <? 0)%Z; reflexivity.
  - destruct (decide (i < length pa)%nat) as [Hi|Hi]; [|lia].
    rewrite list_insert_inserts_lt by lia.
    rewrite resolved_cons, flagged_cons.
    destruct (Z.ltb_spec t 128) as [Ht|Ht];
      rewrite IH by (rewrite length_insert; lia); [|reflexivity].
    rewrite flagged_set, resolved_keep; [reflexivity|].
    destruct (Z.ltb_spec me 0); lia.
Qed.

Lemma load_trans_overflow trans i pal_alphas mask_entry fop :
  (i <= length pal_alphas)%nat ->
  (length pal_alphas < i + length trans)%nat ->
  load_trans trans i pal_alphas mask_entry fop = None.
Proof.
  revert i pal_alphas mask_entry fop.
  induction trans as [|t trans IH]; intros i pa me fop Hi' Hlen; simpl in *;
    [lia|].
  destruct (decide (i < length pa)%nat) as [Hi|Hi]; [|reflexivity].
  destruct (t <? 128)%Z; apply IH; rewrite length_insert; lia.
Qed.

(** The alpha table after the loop holds the tRNS entries, and 255
    beyond them. *)
Lemma pal_alphas_lookup trans c :
  (length trans <= 256)%nat -> (0 <= c < 256)%Z ->
  list_inserts 0 trans (replicate 256 255%Z) !! Z.to_nat c
  = Some (entry_alpha trans c).
Proof.
  intros Hlen Hc. unfold entry_alpha.
  destruct (decide (Z.to_nat c < length trans)%nat) as [Hlt|Hge].
  - rewrite list_lookup_inserts by (rewrite ?length_replicate; lia).
    rewrite Nat.sub_0_r. destruct (lookup_lt_is_Some_2 trans _ Hlt) as [a Ha].
    rewrite Ha. reflexivity.
  - rewrite list_lookup_inserts_ge by lia.
    rewrite lookup_replicate_2 by lia.
    rewrite lookup_ge_None_2 by lia. reflexivity.
Qed.
End Transparency.

(** ** The palette block *)

Section PaletteBlock.
#[local] Arguments replicate : simpl never.

Lemma load_palette_only palette c fop :
  exists p, load_palette palette c fop = set_seq_palette p fop.
Proof.
  revert c fop. induction palette as [|[[r g] b] palette IH]; intros c fop; simpl.
  - exists (seq_palette fop). destruct fop; reflexivity.
  - destruct (IH (S c) (fop_sequence_set_color c r g b fop)) as [p ->].
    exists p. reflexivity.
Qed.

Lemma fill_palette_only n c fop :
  exists p, fill_palette n c fop = set_seq_palette p fop.
Proof.
  revert c fop. induction n as [|n IH]; intros c fop; simpl.
  - exists (seq_palette fop). destruct fop; reflexivity.
  - destruct (IH (S c) (fop_sequence_set_color c 0 0 0 fop)) as [p ->].
    exists p. reflexivity.
Qed.

(** What the block publishes: for a palette image with a PLTE chunk, the
    tRNS entries land in the alpha table and the first transparent entry,
    when there is one, becomes the sprite's transparent colour. *)
Lemma palette_block_run png palette fop :
  png_color_type png = PNG_COLOR_TYPE_PALETTE ->
  png_PLTE png = Some palette ->
  (length (default [] (png_tRNS png)) <= 256)%nat ->
  exists p,
    load_palette_block png fop =
    Some (list_inserts 0 (default [] (png_tRNS png)) (replicate 256 255%Z),
          match first_transparent (default [] (png_tRNS png)) with
          | Some k =>
              set_sprite (setTransparentColor (Z.of_nat k) (sprite fop))
                         (set_has_alpha true (set_seq_palette p fop))
          | None => set_seq_palette p fop
          end).
Proof.
  intros Hct Hpl Hlen. unfold load_palette_block. rewrite Hct, Hpl. simpl.
  destruct (load_palette_only palette 0 fop) as [p1 ->].
  destruct (fill_palette_only (256 - length palette) (length palette)
              (set_seq_palette p1 fop)) as [p2 ->].
  exists p2. rewrite load_trans_run by (rewrite length_replicate; lia).
  unfold resolved, flagged. simpl.
  rewrite first_transparent_existsb.
  destruct (first_transparent (default [] (png_tRNS png))) as [k|]; simpl.
  - destruct (Z.leb_spec 0 (Z.of_nat k)); [reflexivity|lia].
  - reflexivity.
Qed.

Lemma palette_block_overflow png palette fop :
  png_color_type png = PNG_COLOR_TYPE_PALETTE ->
  png_PLTE png = Some palette ->
  (256 < length (default [] (png_tRNS png)))%nat ->
  load_palette_block png fop = None.
Proof.
  intros Hct Hpl Hlen. unfold load_palette_block. rewrite Hct, Hpl. simpl.
  rewrite load_trans_overflow; [reflexivity|lia|].
  rewrite length_replicate. lia.
Qed.

Lemma palette_block_skip png fop :
  png_color_type png <> PNG_COLOR_TYPE_PALETTE \/ png_PLTE png = None ->
  load_palette_block png fop = Some (replicate 256 255%Z, fop).
Proof.
  intros H. unfold load_palette_block.
  destruct (Z.eqb_spec (png_color_type png) PNG_COLOR_TYPE_PALETTE) as [He|He];
    [|reflexivity].
  destruct H as [H|H]; [contradiction|]. rewrite H. reflexivity.
Qed.

(** The alpha table always has its 256 entries. *)
Lemma palette_block_length png fop pal_alphas fop' :
  load_palette_block png fop = Some (pal_alphas, fop') ->
  length pal_alphas = 256%nat.
Proof.
  destruct (Z.eq_dec (png_color_type png) PNG_COLOR_TYPE_PALETTE) as [Hct|Hct].
  - destruct (png_PLTE png) as [palette|] eqn:Hpl.
    + destruct (decide (length (default [] (png_tRNS png)) <= 256)%nat)
        as [Hlen|Hlen].
      * destruct (palette_block_run png palette fop Hct Hpl Hlen) as [p ->].
        intros [= <- _]. rewrite length_inserts, length_replicate. reflexivity.
      * rewrite (palette_block_overflow png palette) by (auto; lia).
        discriminate.
    + rewrite palette_block_skip by auto. intros [= <- _].
      apply length_replicate.
  - rewrite palette_block_skip by auto. intros [= <- _].
    apply length_replicate.
Qed.

(** Without a transparent entry the block leaves the sprite and the flag
    as they are. *)
Lemma palette_block_opaque png fop pal_alphas fop' :
  Forall (fun a => (128 <= a)%Z) (default [] (png_tRNS png)) ->
  load_palette_block png fop = Some (pal_alphas, fop') ->
  sprite fop' = sprite fop /\ seq_has_alpha fop' = seq_has_alpha fop.
Proof.
  intros Hop.
  destruct (Z.eq_dec (png_color_type png) PNG_COLOR_TYPE_PALETTE) as [Hct|Hct].
  - destruct (png_PLTE png) as [palette|] eqn:Hpl.
    + destruct (decide (length (default [] (png_tRNS png)) <= 256)%nat)
        as [Hlen|Hlen].
      * destruct (palette_block_run png palette fop Hct Hpl Hlen) as [p ->].
        rewrite (first_transparent_opaque _ Hop). intros [= _ <-]. auto.
      * rewrite (palette_block_overflow png palette) by (auto; lia).
        discriminate.
    + rewrite palette_block_skip by auto. intros [= _ <-]. auto.
  - rewrite palette_block_skip by auto. intros [= _ <-]. auto.
Qed.

End PaletteBlock.

(** ** The row loops *)

Section RowLoops.
Variable host : Host.
Variable lib : PngLib.
Variables (color_type : Z) (pal_alphas : list Z) (mask_entry : Z).
Variables (width height number_passes : nat).

Lemma kept_refl fop : kept fop fop.
Proof. repeat split; apply reported_refl. Qed.

Lemma kept_trans fop1 fop2 fop3 : kept fop1 fop2 -> kept fop2 fop3 -> kept fop1 fop3.
Proof.
  unfold kept. intros (?&?&?&Hr1&?) (?&?&?&Hr2&?).
  repeat split; try congruence. exact (reported_trans _ _ _ Hr1 Hr2).
Qed.

Lemma put_row_kept y dst fop : kept fop (put_row y dst fop).
Proof.
  unfold put_row. destruct dst, (seq_image fop); repeat split;
    apply reported_refl.
Qed.

Lemma png_call_kept call fop : kept fop (png_call lib call fop).
Proof.
  rewrite png_call_logged. repeat split. apply reported_logged.
Qed.

(** Reading a row and writing its conversion. *)
Lemma read_row_kept call y dst fop :
  kept fop (put_row y dst (png_call lib call fop)).
Proof.
  apply (kept_trans _ (png_call lib call fop));
    [apply png_call_kept|apply put_row_kept].
Qed.

Lemma load_rows_kept pass n y rows fop :
  kept fop (loop_fop (load_rows host lib color_type pal_alphas mask_entry width
                                height number_passes pass n y rows fop)).
Proof.
  revert y rows fop. induction n as [|n IH]; intros y rows fop; simpl.
  - apply kept_refl.
  - destruct rows as [|row_pointer rows]; [apply png_call_kept|].
    destruct (load_row _ _ _ _ _) as [dst|]; [|apply png_call_kept].
    destruct (read_row_kept (ReadRow (length (row_pointer :: rows))) y dst fop)
      as (?&?&?&?&?).
    destruct (is_stop host _).
    + simpl. repeat split; assumption.
    + eapply kept_trans; [|apply IH]. repeat split; assumption.
Qed.

Lemma load_passes_kept n pass rows fop :
  kept fop (loop_fop (load_passes host lib color_type pal_alphas mask_entry width
                                  height number_passes n pass rows fop)).
Proof.
  revert pass rows fop. induction n as [|n IH]; intros pass rows fop; simpl.
  - apply kept_refl.
  - pose proof (load_rows_kept pass height 0 rows fop) as Hk.
    destruct (load_rows _ _ _ _ _ _ _ _ _ _ _ _ _) as [rows' fop'|fop'|f fop'];
      simpl in Hk; [|exact Hk|exact Hk].
    eapply kept_trans; [exact Hk|apply IH].
Qed.

Lemma list_inserts_snoc {A} (k : list A) i x (l : list A) :
  list_inserts i (k ++ [x]) l = <[(i + length k)%nat := x]> (list_inserts i k l).
Proof.
  revert i. induction k as [|a k IH]; intros i; simpl.
  - rewrite Nat.add_0_r. reflexivity.
  - rewrite IH. rewrite list_insert_insert_ne by lia.
    replace (S i + length k)%nat with (i + S (length k))%nat by lia.
    reflexivity.
Qed.

Lemma list_inserts_all {A} (k l : list A) :
  length k = length l -> list_inserts 0 k l = k.
Proof.
  intros H. rewrite <- (app_nil_r k) at 1. apply list_inserts_0_l. exact H.
Qed.

(** The row loop, [m] rows further: as long as the flag is not set the
    loop converts one delivered row after the other into the image. *)
Lemma load_rows_advance (conv : list Z -> list Z) pass m n y rows fop image :
  (m <= n)%nat -> (m <= length rows)%nat ->
  Forall (fun r => load_row color_type pal_alphas mask_entry width r
                   = Some (Some (conv r))) (take m rows) ->
  seq_image fop = Some image ->
  not_stopped host fop m ->
  exists fop',
    load_rows host lib color_type pal_alphas mask_entry width height number_passes
              pass n y rows fop
    = load_rows host lib color_type pal_alphas mask_entry width height number_passes
                pass (n - m) (y + m) (drop m rows) fop' /\
    seq_image fop'
    = Some (with_pixels image
              (list_inserts y (conv <$> take m rows) (pixels image))) /\
    kept fop fop' /\ stop_polls fop' = (stop_polls fop + m)%nat.
Proof.
  revert n y rows fop image.
  induction m as [|m IH]; intros n y rows fop image Hn Hrows Hconv Himg Hgo.
  - exists fop. rewrite Nat.sub_0_r, !Nat.add_0_r, drop_0. simpl.
    split; [reflexivity|]. split; [|split; [apply kept_refl|reflexivity]].
    rewrite Himg. destruct image; reflexivity.
  - destruct n as [|n]; [lia|]. destruct rows as [|r rows]; [simpl in Hrows; lia|].
    simpl in Hrows. rewrite firstn_cons in Hconv.
    apply Forall_cons in Hconv as [Hr Hconv].
    simpl load_rows at 1. rewrite Hr, png_call_logged.
    pose proof (Hgo 0%nat ltac:(lia)) as H0. rewrite Nat.add_0_r in H0.
    unfold put_row. simpl. rewrite Himg. simpl. rewrite H0.
    match goal with
    | |- context [load_rows _ _ _ _ _ _ _ _ _ n (S y) rows ?f] =>
        destruct (IH n (S y) rows f (putPixels image y (conv r)))
          as (fop' & Hrun & Himg' & Hkept & Hpolls)
    end; [lia|lia|exact Hconv|reflexivity| |].
    + intros k Hk. simpl. specialize (Hgo (S k) ltac:(lia)).
      rewrite <- Hgo. f_equal. lia.
    + exists fop'. rewrite Hrun. split; [f_equal; lia|].
      split; [|split].
      * rewrite Himg'. unfold with_pixels, putPixels. simpl.
        rewrite list_insert_inserts_lt by lia. reflexivity.
      * destruct Hkept as (?&?&?&Hrep&?). repeat split; try assumption.
        eapply reported_trans; [|exact Hrep]. apply reported_logged.
      * rewrite Hpolls. simpl. lia.
Qed.

(** A pass that is not cancelled writes all its rows. *)
Lemma load_rows_run (conv : list Z -> list Z) pass y rows rest fop image :
  Forall (fun r => load_row color_type pal_alphas mask_entry width r
                   = Some (Some (conv r))) rows ->
  seq_image fop = Some image ->
  not_stopped host fop (length rows) ->
  exists fop',
    load_rows host lib color_type pal_alphas mask_entry width height number_passes
              pass (length rows) y (rows ++ rest) fop
    = Finished rest fop' /\
    seq_image fop'
    = Some (with_pixels image (list_inserts y (conv <$> rows) (pixels image))) /\
    kept fop fop' /\ stop_polls fop' = (stop_polls fop + length rows)%nat.
Proof.
  intros Hconv Himg Hgo.
  destruct (load_rows_advance conv pass (length rows) (length rows) y
              (rows ++ rest) fop image) as (fop' & Hrun & Himg' & Hk & Hp);
    [lia|rewrite length_app; lia| |exact Himg|exact Hgo|].
  - rewrite take_app_length. exact Hconv.
  - exists fop'. rewrite Hrun, Nat.sub_diag, drop_app_length.
    rewrite take_app_length in Himg'. auto.
Qed.

(** A pass cancelled after row [y + k] has written the rows up to that one
    and ends there. *)
Lemma load_rows_cancel (conv : list Z -> list Z) pass n y k rows fop image :
  (k < n)%nat -> (k < length rows)%nat ->
  Forall (fun r => load_row color_type pal_alphas mask_entry width r
                   = Some (Some (conv r))) (take (S k) rows) ->
  seq_image fop = Some image ->
  not_stopped host fop k ->
  is_stop host (stop_polls fop + k) = true ->
  exists fop',
    load_rows host lib color_type pal_alphas mask_entry width height number_passes
              pass n y rows fop
    = Finished (drop (S k) rows) fop' /\
    seq_image fop'
    = Some (with_pixels image
              (list_inserts y (conv <$> take (S k) rows) (pixels image))) /\
    kept fop fop' /\ stop_polls fop' = (stop_polls fop + S k)%nat.
Proof.
  intros Hn Hrows Hconv Himg Hgo Hstop.
  destruct (lookup_lt_is_Some_2 rows k Hrows) as [r Hr].
  rewrite (take_S_r _ _ _ Hr) in Hconv.
  apply Forall_app in Hconv as [Hconv Hlast].
  apply (proj1 (Forall_singleton _ _)) in Hlast.
  destruct (load_rows_advance conv pass k n y rows fop image)
    as (fop1 & Hrun & Himg1 & Hk1 & Hp1); [lia|lia|exact Hconv|exact Himg|exact Hgo|].
  rewrite Hrun. rewrite (drop_S _ _ _ Hr).
  destruct (n - k)%nat as [|d] eqn:Hd; [lia|].
  simpl load_rows. rewrite Hlast, png_call_logged.
  unfold put_row. simpl. rewrite Himg1. simpl. rewrite Hp1, Hstop.
  eexists. split; [reflexivity|]. simpl.
  split; [|split].
  - unfold with_pixels, putPixels. simpl. do 2 f_equal.
    rewrite (take_S_r _ _ _ Hr), fmap_app. simpl.
    rewrite list_inserts_snoc, length_fmap, length_take.
    do 2 f_equal. lia.
  - destruct Hk1 as (?&?&?&Hrep&?). repeat split; try assumption.
    eapply reported_trans; [exact Hrep|]. apply reported_logged.
  - lia.
Qed.

(** Passes that are not cancelled: each one converts the next [height]
    rows that libpng delivers and writes them over those of the pass
    before, so that the image ends with the rows of the last pass. *)
Lemma load_passes_complete (conv : list Z -> list Z) n pass rows fop image :
  (n * height <= length rows)%nat ->
  Forall (fun r => load_row color_type pal_alphas mask_entry width r
                   = Some (Some (conv r))) (take (n * height) rows) ->
  seq_image fop = Some image ->
  length (pixels image) = height ->
  not_stopped host fop (n * height) ->
  exists fop',
    load_passes host lib color_type pal_alphas mask_entry width height
                number_passes n pass rows fop
    = Finished (drop (n * height) rows) fop' /\
    seq_image fop'
    = Some (with_pixels image
              (match n with
               | O => pixels image
               | S n' => conv <$> take height (drop (n' * height) rows)
               end)) /\
    kept fop fop' /\ stop_polls fop' = (stop_polls fop + n * height)%nat.
Proof.
  revert pass rows fop image.
  induction n as [|n IH]; intros pass rows fop image Hrows Hconv Himg Hlen Hgo.
  - exists fop. simpl. rewrite drop_0, Nat.add_0_r.
    split; [reflexivity|]. split; [|split; [apply kept_refl|reflexivity]].
    rewrite Himg. destruct image; reflexivity.
  - simpl in Hrows.
    destruct (load_rows_advance conv pass height height 0 rows fop image)
      as (fop1 & Hrun & Himg1 & Hk1 & Hp1); [lia|lia| |exact Himg| |].
    { replace (take height rows)
        with (take height (take (S n * height) rows))
        by (rewrite take_take; f_equal; simpl; lia).
      apply Forall_take, Hconv. }
    { intros k Hk. apply Hgo. simpl. lia. }
    rewrite Nat.sub_diag in Hrun. simpl in Hrun.
    simpl load_passes. rewrite Hrun.
    rewrite list_inserts_all in Himg1
      by (rewrite length_fmap, length_take; lia).
    destruct (IH (S pass) (drop height rows) fop1
                (with_pixels image (conv <$> take height rows)))
      as (fop2 & Hpasses & Himg2 & Hk2 & Hp2).
    + rewrite length_drop. lia.
    + rewrite take_drop_commute.
      apply Forall_drop.
      replace (height + n * height)%nat with (S n * height)%nat by (simpl; lia).
      exact Hconv.
    + exact Himg1.
    + simpl. rewrite length_fmap, length_take. lia.
    + intros k Hk. rewrite Hp1. rewrite <- Nat.add_assoc. apply Hgo.
      simpl. lia.
    + exists fop2. rewrite Hpasses, drop_drop.
      split; [simpl; reflexivity|]. split; [|split].
      * rewrite Himg2. unfold with_pixels. simpl.
        destruct n as [|n']; [simpl; rewrite drop_0; reflexivity|].
        rewrite drop_drop.
        replace (height + n' * height)%nat with (S n' * height)%nat
          by (simpl; lia).
        reflexivity.
      * eapply kept_trans; eassumption.
      * rewrite Hp2, Hp1. simpl. lia.
Qed.

End RowLoops.

(** ** onLoad as a whole *)

Section Header.
#[local] Arguments replicate : simpl never.
Variable host : Host.

(** [onLoad] once the file is open, its format chosen, the image allocated
    and the palette block through: the result is that of the row loops, which
    leave the sprite and the alpha flag as the block left them. *)
Lemma onLoad_rows lib png fop f fop1 image pal_alphas fop3 :
  opens lib png ->
  select_format (png_color_type png) (png_read_header lib fop)
  = Some (f, fop1) ->
  sequence_image host f (png_width png) (png_height png) = Some image ->
  load_palette_block png
    (snd (fop_sequence_image host f (png_width png) (png_height png) fop1))
  = Some (pal_alphas, fop3) ->
  let loop :=
    load_passes host lib (png_color_type png) pal_alphas
      (transparentColor (sprite fop3)) (png_width png) (png_height png)
      (png_set_interlace_handling png) (png_set_interlace_handling png) 0
      (png_rows png) fop3 in
  onLoad host lib fop
  = match loop with
    | Finished _ fop4 => (Returned true, fop4)
    | Longjmp fop4 => (Returned false, fop_error "Error reading PNG file" fop4)
    | Faulted f fop4 => (Undefined f, fop4)
    end /\
  sprite (snd (onLoad host lib fop)) = sprite fop3 /\
  seq_has_alpha (snd (onLoad host lib fop)) = seq_has_alpha fop3 /\
  image_requests (snd (onLoad host lib fop)) = image_requests fop3.
Proof.
  intros (Hs & Hi & Hr) Hsel Himg Hblock loop.
  assert (onLoad host lib fop
          = match loop with
            | Finished _ fop4 => (Returned true, fop4)
            | Longjmp fop4 =>
                (Returned false, fop_error "Error reading PNG file" fop4)
            | Faulted f fop4 => (Undefined f, fop4)
            end) as ->.
  { unfold onLoad. rewrite Hs, Hi, Hr. simpl. rewrite Hsel.
    unfold fop_sequence_image in *. rewrite Himg in *. simpl in Hblock.
    rewrite Hblock. reflexivity. }
  split; [reflexivity|].
  pose proof (load_passes_kept host lib (png_color_type png) pal_alphas
                (transparentColor (sprite fop3)) (png_width png)
                (png_height png) (png_set_interlace_handling png)
                (png_set_interlace_handling png) 0 (png_rows png) fop3)
    as (Hk1 & _ & Hk2 & _ & Hk3).
  fold loop in Hk1, Hk2, Hk3. destruct loop; simpl in *; auto.
Qed.

Lemma select_format_only color_type fop f fop1 :
  select_format color_type fop = Some (f, fop1) ->
  sprite fop1 = sprite fop /\ image_requests fop1 = image_requests fop /\
  seq_image fop1 = seq_image fop.
Proof.
  unfold select_format.
  repeat match goal with
         | |- context [if ?b then _ else _] => destruct b
         end; intros [= <- <-] || discriminate; auto.
Qed.

Lemma select_format_supported color_type fop :
  select_format color_type fop = None <-> ~ supported_color_type color_type.
Proof.
  unfold select_format, supported_color_type.
  destruct (Z.eqb_spec color_type PNG_COLOR_TYPE_RGB_ALPHA);
    [split; [discriminate|intros H; exfalso; apply H; auto]|].
  destruct (Z.eqb_spec color_type PNG_COLOR_TYPE_RGB);
    [split; [discriminate|intros H; exfalso; apply H; auto]|].
  destruct (Z.eqb_spec color_type PNG_COLOR_TYPE_GRAY_ALPHA);
    [split; [discriminate|intros H; exfalso; apply H; auto]|].
  destruct (Z.eqb_spec color_type PNG_COLOR_TYPE_GRAY);
    [split; [discriminate|intros H; exfalso; apply H; auto]|].
  destruct (Z.eqb_spec color_type PNG_COLOR_TYPE_PALETTE);
    [split; [discriminate|intros H; exfalso; apply H; auto 6]|].
  split; [|reflexivity]. intros _ [?|[?|[?|[?|?]]]]; contradiction.
Qed.

Lemma select_format_palette fop :
  select_format PNG_COLOR_TYPE_PALETTE fop = Some (IMAGE_INDEXED, fop).
Proof. reflexivity. Qed.

(** What loading a palette image publishes: the first transparent entry of
    the alpha table as the sprite's transparent colour, and the alpha flag
    raised, when there is such an entry; neither is touched otherwise. *)
Lemma onLoad_indexed lib png palette image fop :
  opens lib png ->
  png_color_type png = PNG_COLOR_TYPE_PALETTE ->
  png_PLTE png = Some palette ->
  (length (default [] (png_tRNS png)) <= 256)%nat ->
  sequence_image host IMAGE_INDEXED (png_width png) (png_height png)
  = Some image ->
  let fop' := snd (onLoad host lib fop) in
  match first_transparent (default [] (png_tRNS png)) with
  | Some k =>
      sprite fop' = setTransparentColor (Z.of_nat k) (sprite fop) /\
      seq_has_alpha fop' = true
  | None =>
      sprite fop' = sprite fop /\ seq_has_alpha fop' = seq_has_alpha fop
  end.
Proof.
  intros Hopen Hct Hpl Hlen Himg fop'.
  destruct (palette_block_run png palette
              (snd (fop_sequence_image host IMAGE_INDEXED (png_width png)
                      (png_height png) (png_read_header lib fop)))
              Hct Hpl Hlen) as [p Hblock].
  edestruct (onLoad_rows lib png fop IMAGE_INDEXED (png_read_header lib fop)
                         image)
    as (_ & Hsp & Hal & _); [exact Hopen|rewrite Hct; reflexivity|exact Himg
                            |exact Hblock|].
  subst fop'. rewrite Hsp, Hal.
  unfold fop_sequence_image. rewrite Himg, png_read_header_logged.
  destruct (first_transparent _); simpl; auto.
Qed.

End Header.

(** ** Mask index, alpha flag and unsupported colour types *)

Section Resolver.
#[local] Arguments replicate : simpl never.

Lemma first_transparent_Exists trans :
  Exists (fun a => (a < 128)%Z) trans ->
  exists k, first_transparent trans = Some k.
Proof.
  induction 1 as [t trans Ht|t trans _ [k IH]]; simpl.
  - destruct (Z.ltb_spec t 128); [eauto|lia].
  - destruct (t <? 128)%Z; [eauto|]. rewrite IH. simpl. eauto.
Qed.

(** C2: for a palette image, the transparent colour published to the sprite
    is the lowest index of the alpha table whose alpha is below 128. *)
Theorem mask_index_is_lowest host lib png palette trans image fop k a :
  opens lib png ->
  png_color_type png = PNG_COLOR_TYPE_PALETTE ->
  png_PLTE png = Some palette ->
  png_tRNS png = Some trans ->
  (length trans <= 256)%nat ->
  sequence_image host IMAGE_INDEXED (png_width png) (png_height png)
  = Some image ->
  trans !! k = Some a -> (a < 128)%Z ->
  (forall j a', (j < k)%nat -> trans !! j = Some a' -> (128 <= a')%Z) ->
  transparentColor (sprite (snd (onLoad host lib fop))) = Z.of_nat k.
Proof.
  intros Hopen Hct Hpl Htr Hlen Himg Hk Ha Hlow.
  pose proof (onLoad_indexed host lib png palette image fop Hopen Hct Hpl) as H.
  rewrite Htr in H. simpl in H. specialize (H Hlen Himg).
  rewrite (first_transparent_unique trans k a Hk Ha Hlow) in H.
  destruct H as [-> _]. reflexivity.
Qed.

(** For the table [255,255,0,255,50,255] the mask index is 2, not 4. *)
Lemma mask_index_is_lowest_witness :
  transparentColor
    (sprite (snd (onLoad samples.host_run (reopen samples.indexed_png)
                         samples.fop5))) = 2%Z.
Proof.
  apply (mask_index_is_lowest samples.host_run (reopen samples.indexed_png)
           samples.indexed_png samples.colors [255; 255; 0; 255; 50; 255]%Z
           (samples.blank IMAGE_INDEXED 3 2) samples.fop5 2%nat 0%Z).
  - repeat split.
  - reflexivity.
  - reflexivity.
  - reflexivity.
  - simpl. lia.
  - reflexivity.
  - reflexivity.
  - lia.
  - intros j a' Hj Hl. destruct j as [|[|j]]; [| |lia];
      simpl in Hl; injection Hl as <-; lia.
Defined.

(** C6: a colour type other than the five supported ones makes the load
    fail before any image is asked for; once libpng has created its structs
    the last message of the load is the unsupported-format error, which the
    code stores as "Color type not supported\n)". *)
Theorem unsupported_color_type_fails host lib png fop :
  read_info lib = Some png ->
  ~ supported_color_type (png_color_type png) ->
  fst (onLoad host lib fop) = Returned false /\
  image_requests (snd (onLoad host lib fop)) = image_requests fop /\
  seq_image (snd (onLoad host lib fop)) = seq_image fop /\
  (create_struct lib = true -> create_info_struct lib = true ->
   last (errors (snd (onLoad host lib fop)))
   = Some "Color type not supported)").
Proof.
  intros Hr Hct.
  apply select_format_supported with (fop := png_read_header lib fop) in Hct.
  unfold onLoad. destruct (create_struct lib); simpl.
  - destruct (create_info_struct lib); simpl.
    + rewrite Hr, Hct, png_read_header_logged. simpl.
      repeat split; auto. intros _ _. apply last_snoc.
    + rewrite png_call_logged. repeat split; discriminate.
  - rewrite png_call_logged. repeat split; discriminate.
Qed.

Lemma unsupported_color_type_fails_witness :
  fst (onLoad samples.host_run (reopen samples.odd_png) samples.fop5)
  = Returned false /\
  image_requests (snd (onLoad samples.host_run (reopen samples.odd_png)
                              samples.fop5)) = [] /\
  last (errors (snd (onLoad samples.host_run (reopen samples.odd_png)
                            samples.fop5)))
  = Some "Color type not supported)".
Proof.
  destruct (unsupported_color_type_fails samples.host_run
              (reopen samples.odd_png) samples.odd_png samples.fop5)
    as (Hret & Hreq & _ & Hlast).
  - reflexivity.
  - intros [H|[H|[H|[H|H]]]]; discriminate H.
  - split; [exact Hret|]. split; [exact Hreq|].
    apply Hlast; reflexivity.
Defined.

(** C7: when no entry of the alpha table is below 128, or there is no
    table, loading leaves the sprite's transparent colour as it was. *)
Theorem opaque_table_keeps_mask_index host lib png fop :
  read_info lib = Some png ->
  Forall (fun a => (128 <= a)%Z) (default [] (png_tRNS png)) ->
  transparentColor (sprite (snd (onLoad host lib fop)))
  = transparentColor (sprite fop).
Proof.
  intros Hr Hop. f_equal.
  destruct (create_struct lib) eqn:Hs;
    [|unfold onLoad; rewrite Hs; calls; reflexivity].
  destruct (create_info_struct lib) eqn:Hi;
    [|unfold onLoad; rewrite Hs, Hi; calls; reflexivity].
  destruct (select_format (png_color_type png) (png_read_header lib fop))
    as [[f fop1]|] eqn:Hsel;
    [|unfold onLoad; rewrite Hs, Hi, Hr; simpl; rewrite Hsel; calls;
      reflexivity].
  destruct (select_format_only _ _ _ _ Hsel) as (Hsp1 & _).
  rewrite png_read_header_logged in Hsp1. simpl in Hsp1.
  destruct (sequence_image host f (png_width png) (png_height png))
    as [image|] eqn:Himg.
  - destruct (load_palette_block png
                (snd (fop_sequence_image host f (png_width png)
                        (png_height png) fop1))) as [[pa fop3]|] eqn:Hblock.
    + destruct (onLoad_rows host lib png fop f fop1 image pa fop3)
        as (_ & -> & _); [repeat split; assumption|assumption..|].
      destruct (palette_block_opaque _ _ _ _ Hop Hblock) as [-> _].
      unfold fop_sequence_image. rewrite Himg. exact Hsp1.
    + unfold onLoad. rewrite Hs, Hi, Hr. simpl. rewrite Hsel.
      unfold fop_sequence_image in *. rewrite Himg in *. simpl in Hblock.
      rewrite Hblock. exact Hsp1.
  - unfold onLoad. rewrite Hs, Hi, Hr. simpl. rewrite Hsel.
    unfold fop_sequence_image. rewrite Himg. exact Hsp1.
Qed.

Lemma opaque_table_keeps_mask_index_witness :
  transparentColor
    (sprite (snd (onLoad samples.host_run (reopen samples.opaque_png)
                         samples.fop5))) = 5%Z.
Proof.
  apply (opaque_table_keeps_mask_index samples.host_run
           (reopen samples.opaque_png) samples.opaque_png samples.fop5).
  - reflexivity.
  - simpl. repeat (constructor; [lia|]). constructor.
Defined.

(** C10: loading a palette image raises the alpha flag exactly when an
    entry of the alpha table is below 128; with no table, or with none of
    its entries below 128, the flag stays as it was. *)
Theorem indexed_has_alpha host lib png palette image fop :
  opens lib png ->
  png_color_type png = PNG_COLOR_TYPE_PALETTE ->
  png_PLTE png = Some palette ->
  (length (default [] (png_tRNS png)) <= 256)%nat ->
  sequence_image host IMAGE_INDEXED (png_width png) (png_height png)
  = Some image ->
  (Exists (fun a => (a < 128)%Z) (default [] (png_tRNS png)) ->
   seq_has_alpha (snd (onLoad host lib fop)) = true) /\
  (Forall (fun a => (128 <= a)%Z) (default [] (png_tRNS png)) ->
   seq_has_alpha (snd (onLoad host lib fop)) = seq_has_alpha fop).
Proof.
  intros Hopen Hct Hpl Hlen Himg.
  pose proof (onLoad_indexed host lib png palette image fop Hopen Hct Hpl
                Hlen Himg) as H.
  split.
  - intros Hex. destruct (first_transparent_Exists _ Hex) as [k Hk].
    rewrite Hk in H. apply H.
  - intros Hall. rewrite (first_transparent_opaque _ Hall) in H. apply H.
Qed.

Lemma indexed_has_alpha_witness :
  seq_has_alpha (snd (onLoad samples.host_run (reopen samples.indexed_png)
                             samples.fop5)) = true /\
  seq_has_alpha (snd (onLoad samples.host_run (reopen samples.opaque_png)
                             samples.fop5)) = false.
Proof.
  split.
  - apply (indexed_has_alpha samples.host_run (reopen samples.indexed_png)
             samples.indexed_png samples.colors
             (samples.blank IMAGE_INDEXED 3 2) samples.fop5).
    + repeat split.
    + reflexivity.
    + reflexivity.
    + simpl. lia.
    + reflexivity.
    + simpl. do 2 apply Exists_cons_tl. apply Exists_cons_hd. lia.
  - apply (indexed_has_alpha samples.host_run (reopen samples.opaque_png)
             samples.opaque_png samples.colors
             (samples.blank IMAGE_INDEXED 3 2) samples.fop5).
    + repeat split.
    + reflexivity.
    + reflexivity.
    + simpl. lia.
    + reflexivity.
    + simpl. repeat (constructor; [lia|]). constructor.
Defined.

End Resolver.

(** ** onSave *)

Section Save.
#[local] Arguments replicate : simpl never.

Lemma rows_of_addresses (l : list (list Z)) :
  (fun y => default [] (l !! y)) <$> seq 0 (length l) = l.
Proof.
  apply list_eq. intros i. rewrite list_lookup_fmap.
  destruct (decide (i < length l)%nat) as [Hi|Hi].
  - rewrite lookup_seq_lt by lia. simpl.
    destruct (lookup_lt_is_Some_2 l i Hi) as [r ->]. reflexivity.
  - rewrite lookup_seq_ge by lia. simpl.
    rewrite lookup_ge_None_2 by lia. reflexivity.
Qed.

(** When libpng takes every row, the row loop of [onSave] hands over one
    converted row per image row. *)
Lemma save_rows_run lib image color_type w h n y fop :
  completes lib ->
  exists fop',
    save_rows lib image color_type w h n y fop
    = (Some ((fun y' => save_row color_type w (getPixelAddress image y'))
               <$> seq y n), fop') /\
    sprite fop' = sprite fop /\ seq_image fop' = seq_image fop.
Proof.
  intros Hok. revert y fop. induction n as [|n IH]; intros y fop; simpl.
  - eauto.
  - rewrite Hok.
    destruct (IH (S y) (fop_progress (mkProgress 0 (y + 1) h 1)
                                     (png_call lib (WriteRow y) fop)))
      as (fop' & -> & Hs & Hi).
    exists fop'. rewrite Hs, Hi, png_call_logged. auto.
Qed.

Lemma save_palette_logged msgs fop :
  save_palette (logged msgs fop) = save_palette fop.
Proof. reflexivity. Qed.

(** For an image with its [height] rows these are the rows of the image,
    converted. *)
Lemma saved_rows image color_type :
  length (pixels image) = height image ->
  (fun y => save_row color_type (width image) (getPixelAddress image y))
    <$> seq 0 (height image)
  = save_row color_type (width image) <$> pixels image.
Proof.
  intros Hlen.
  replace (save_row color_type (width image) <$> pixels image)
    with (save_row color_type (width image)
            <$> ((fun y => default [] (pixels image !! y))
                   <$> seq 0 (length (pixels image))))
    by (rewrite rows_of_addresses; reflexivity).
  rewrite <- list_fmap_compose, Hlen. reflexivity.
Qed.

(** What [onSave] writes for an image when libpng gets through all its
    calls. *)
Lemma onSave_run lib fop image :
  seq_image fop = Some image ->
  create_struct lib = true -> create_info_struct lib = true ->
  completes lib ->
  (pixelFormat image = IMAGE_INDEXED ->
   (0 <= transparentColor (sprite fop))%Z) ->
  exists fop',
    onSave lib fop
    = (Returned true, fop',
       Some (mkPngData (width image) (height image) 8
               (save_color_type image (sprite fop)) PNG_INTERLACE_NONE
               (match pixelFormat image with
                | IMAGE_INDEXED => Some (save_palette fop)
                | _ => None
                end)
               (match pixelFormat image with
                | IMAGE_INDEXED =>
                    if backgroundLayer (sprite fop) then None
                    else Some (save_trans (transparentColor (sprite fop)))
                | _ => None
                end)
               ((fun y => save_row (save_color_type image (sprite fop))
                            (width image) (getPixelAddress image y))
                  <$> seq 0 (height image)))).
Proof.
  intros Himg Hs Hi Hok Hm. unfold onSave. rewrite Hs, Hi. simpl.
  rewrite !(png_call_logged lib CreateStruct). simpl. rewrite Himg.
  rewrite save_palette_logged.
  assert (Hsize : (match pixelFormat image with
                   | IMAGE_INDEXED => true
                   | _ => false
                   end && negb (backgroundLayer (sprite fop))
                   && (transparentColor (sprite fop) + 1 <? 0)%Z) = false).
  { destruct (pixelFormat image) eqn:Hf; try reflexivity.
    specialize (Hm eq_refl).
    destruct (Z.ltb_spec (transparentColor (sprite fop) + 1) 0); [lia|].
    apply andb_false_r. }
  rewrite Hsize, !Hok.
  match goal with
  | |- context [save_rows lib image ?ct ?w ?h ?n ?y ?f] =>
      destruct (save_rows_run lib image ct w h n y f Hok) as (fop' & -> & _)
  end.
  eexists. destruct (pixelFormat image); simpl; try reflexivity.
  destruct (backgroundLayer (sprite fop)); reflexivity.
Qed.

Lemma save_trans_lookup m j :
  (0 <= m)%Z -> (j <= Z.to_nat m)%nat ->
  save_trans m !! j = Some (if decide (j = Z.to_nat m) then 0%Z else 255%Z).
Proof.
  intros Hm Hj. unfold save_trans. rewrite list_lookup_fmap.
  rewrite lookup_seq_lt by lia. simpl.
  destruct (decide (j = Z.to_nat m)) as [->|Hne].
  - rewrite Z2Nat.id by lia. rewrite Z.eqb_refl. reflexivity.
  - destruct (Z.eqb_spec (Z.of_nat j) m); [lia|reflexivity].
Qed.

Lemma save_trans_length m : length (save_trans m) = Z.to_nat (m + 1).
Proof. unfold save_trans. rewrite length_fmap, length_seq. reflexivity. Qed.

(** Decoding the table that [onSave] writes gives the mask index back. *)
Lemma save_trans_first m :
  (0 <= m)%Z -> first_transparent (save_trans m) = Some (Z.to_nat m).
Proof.
  intros Hm. apply (first_transparent_unique _ _ 0%Z).
  - rewrite save_trans_lookup by lia. rewrite decide_True by reflexivity.
    reflexivity.
  - lia.
  - intros j a' Hj. rewrite save_trans_lookup by lia.
    rewrite decide_False by lia. intros [= <-]. lia.
Qed.

(** C4: when libpng gets through the save, saving an indexed image of a
    sprite without background layer whose mask index is [m] writes an alpha
    table of [m+1] entries, all 255 but entry [m], which is 0; with a
    background layer no table is written. *)
Theorem save_indexed_alpha_table lib fop image m :
  seq_image fop = Some image ->
  pixelFormat image = IMAGE_INDEXED ->
  create_struct lib = true -> create_info_struct lib = true ->
  completes lib ->
  transparentColor (sprite fop) = m -> (0 <= m < 256)%Z ->
  exists fop' png,
    onSave lib fop = (Returned true, fop', Some png) /\
    if backgroundLayer (sprite fop) then png_tRNS png = None
    else exists trans,
        png_tRNS png = Some trans /\
        Z.of_nat (length trans) = (m + 1)%Z /\
        trans !! Z.to_nat m = Some 0%Z /\
        forall j, (j < Z.to_nat m)%nat -> trans !! j = Some 255%Z.
Proof.
  intros Himg Hfmt Hs Hi Hok Hm Hrange.
  destruct (onSave_run lib fop image Himg Hs Hi Hok) as [fop' Hsave];
    [intros _; lia|].
  eexists fop', _. split; [exact Hsave|]. simpl. rewrite Hfmt, Hm.
  destruct (backgroundLayer (sprite fop)); [reflexivity|].
  eexists. split; [reflexivity|]. split; [|split].
  - rewrite save_trans_length. lia.
  - rewrite save_trans_lookup by lia. rewrite decide_True by reflexivity.
    reflexivity.
  - intros j Hj. rewrite save_trans_lookup by lia.
    rewrite decide_False by lia. reflexivity.
Qed.

Lemma save_indexed_alpha_table_witness :
  exists fop' png,
    onSave samples.lib_ok
           (samples.with_image samples.indexed_image (mkSprite 2 true false ∅))
    = (Returned true, fop', Some png) /\
    exists trans,
      png_tRNS png = Some trans /\
      Z.of_nat (length trans) = 3%Z /\
      trans !! 2%nat = Some 0%Z /\
      forall j, (j < 2)%nat -> trans !! j = Some 255%Z.
Proof.
  apply (save_indexed_alpha_table samples.lib_ok
           (samples.with_image samples.indexed_image (mkSprite 2 true false ∅))
           samples.indexed_image 2%Z).
  - reflexivity.
  - reflexivity.
  - reflexivity.
  - reflexivity.
  - intros call. reflexivity.
  - reflexivity.
  - lia.
Defined.

End Save.

(** ** Complete and cancelled loads *)

Section WholeLoad.
#[local] Arguments replicate : simpl never.
Variable host : Host.
Variables (lib : PngLib) (png : PngData) (fop fop1 fop3 : FileOp).
Variables (f : PixelFormat) (image : Image) (pal_alphas : list Z).
Variable conv : list Z -> list Z.

Hypothesis Hopen : opens lib png.
Hypothesis Hpass : png_interlace_type png = PNG_INTERLACE_NONE.
Hypothesis Hformat :
  select_format (png_color_type png) (png_read_header lib fop) = Some (f, fop1).
Hypothesis Himage :
  sequence_image host f (png_width png) (png_height png) = Some image.
Hypothesis Hblock :
  load_palette_block png
    (snd (fop_sequence_image host f (png_width png) (png_height png) fop1))
  = Some (pal_alphas, fop3).

Lemma select_format_polls color_type fop0 f0 fop0' :
  select_format color_type fop0 = Some (f0, fop0') ->
  stop_polls fop0' = stop_polls fop0 /\ errors fop0' = errors fop0.
Proof.
  unfold select_format.
  repeat match goal with
         | |- context [if ?b then _ else _] => destruct b
         end; intros [= <- <-] || discriminate; auto.
Qed.

Lemma palette_block_frame png0 fop0 pa fop0' :
  load_palette_block png0 fop0 = Some (pa, fop0') ->
  seq_image fop0' = seq_image fop0 /\ stop_polls fop0' = stop_polls fop0 /\
  errors fop0' = errors fop0 /\ image_requests fop0' = image_requests fop0.
Proof.
  destruct (Z.eq_dec (png_color_type png0) PNG_COLOR_TYPE_PALETTE) as [Hct|Hct].
  - destruct (png_PLTE png0) as [palette|] eqn:Hpl.
    + destruct (decide (length (default [] (png_tRNS png0)) <= 256)%nat)
        as [Hlen|Hlen].
      * destruct (palette_block_run png0 palette fop0 Hct Hpl Hlen) as [p ->].
        intros [= _ <-]. destruct (first_transparent _); auto.
      * rewrite (palette_block_overflow png0 palette) by (auto; lia).
        discriminate.
    + rewrite palette_block_skip by auto. intros [= _ <-]. auto.
  - rewrite palette_block_skip by auto. intros [= _ <-]. auto.
Qed.

Lemma block_image : seq_image fop3 = Some image.
Proof.
  destruct (palette_block_frame _ _ _ _ Hblock) as (-> & _).
  unfold fop_sequence_image. rewrite Himage. reflexivity.
Qed.

Lemma block_polls : stop_polls fop3 = stop_polls fop.
Proof.
  destruct (palette_block_frame _ _ _ _ Hblock) as (_ & -> & _).
  unfold fop_sequence_image. rewrite Himage. simpl.
  destruct (select_format_polls _ _ _ _ Hformat) as (-> & _).
  calls. reflexivity.
Qed.

(** A load that is not cancelled converts, pass after pass, the rows that
    libpng delivers; the image ends as the conversion of the rows of the
    last pass. *)
Lemma onLoad_complete :
  length (pixels image) = png_height png ->
  (png_set_interlace_handling png * png_height png
   <= length (png_rows png))%nat ->
  Forall (fun r => load_row (png_color_type png) pal_alphas
                     (transparentColor (sprite fop3)) (png_width png) r
                   = Some (Some (conv r)))
         (take (png_set_interlace_handling png * png_height png)
               (png_rows png)) ->
  not_stopped host fop (png_set_interlace_handling png * png_height png) ->
  exists fop',
    onLoad host lib fop = (Returned true, fop') /\
    seq_image fop'
    = Some (with_pixels image
              (conv <$> take (png_height png)
                          (drop ((png_set_interlace_handling png - 1)
                                 * png_height png) (png_rows png)))) /\
    kept fop3 fop'.
Proof.
  intros Hlen Hrows Hconv Hgo.
  destruct (onLoad_rows host lib png fop f fop1 image pal_alphas fop3
              Hopen Hformat Himage Hblock) as (-> & _).
  destruct (load_passes_complete host lib (png_color_type png) pal_alphas
              (transparentColor (sprite fop3)) (png_width png) (png_height png)
              (png_set_interlace_handling png) conv
              (png_set_interlace_handling png) 0 (png_rows png) fop3 image)
    as (fop' & -> & Himg' & Hk & _);
    [exact Hrows|exact Hconv|exact block_image|exact Hlen| |].
  - intros k Hk. rewrite block_polls. apply Hgo, Hk.
  - exists fop'. split; [reflexivity|]. split; [|exact Hk].
    rewrite Himg'. unfold png_set_interlace_handling.
    destruct (png_interlace_type png =? PNG_INTERLACE_NONE)%Z; reflexivity.
Qed.

(** A load cancelled after row [k] has converted the rows up to row [k],
    has left the other rows of the image alone, and returns true. *)
Lemma onLoad_cancelled k :
  (k < png_height png)%nat -> (k < length (png_rows png))%nat ->
  Forall (fun r => load_row (png_color_type png) pal_alphas
                     (transparentColor (sprite fop3)) (png_width png) r
                   = Some (Some (conv r)))
         (take (S k) (png_rows png)) ->
  not_stopped host fop k ->
  is_stop host (stop_polls fop + k) = true ->
  exists fop',
    onLoad host lib fop = (Returned true, fop') /\
    seq_image fop'
    = Some (with_pixels image
              (list_inserts 0 (conv <$> take (S k) (png_rows png))
                 (pixels image))) /\
    kept fop3 fop'.
Proof.
  intros Hk Hrows Hconv Hgo Hstop.
  destruct (onLoad_rows host lib png fop f fop1 image pal_alphas fop3
              Hopen Hformat Himage Hblock) as (-> & _).
  unfold png_set_interlace_handling. rewrite Hpass. simpl.
  destruct (load_rows_cancel host lib (png_color_type png) pal_alphas
              (transparentColor (sprite fop3)) (png_width png) (png_height png)
              1 conv 0 (png_height png) 0 k (png_rows png) fop3 image)
    as (fop' & -> & Himg' & Hkept & _);
    [exact Hk|exact Hrows|exact Hconv|exact block_image| | |].
  - intros j Hj. rewrite block_polls. apply Hgo, Hj.
  - rewrite block_polls. exact Hstop.
  - eauto.
Qed.

End WholeLoad.

(** ** Round trip of images with alpha *)

Section RoundTrip.
#[local] Arguments replicate : simpl never.

Lemma fmap_fixed {A} (g : A -> A) (l : list A) :
  Forall (fun a => g a = a) l -> g <$> l = l.
Proof.
  induction 1 as [|a l Ha _ IH]; [reflexivity|].
  rewrite fmap_cons, Ha, IH. reflexivity.
Qed.

(** C1: an RGB or grayscale image saved with alpha, in a save that libpng
    gets through, and loaded again is the image that was saved, pixel for
    pixel. *)
Theorem roundtrip_with_alpha host lib fop image fop0 blank :
  seq_image fop = Some image ->
  wf_image image ->
  pixelFormat image = IMAGE_RGB \/ pixelFormat image = IMAGE_GRAYSCALE ->
  needAlpha (sprite fop) = true ->
  create_struct lib = true -> create_info_struct lib = true ->
  completes lib ->
  allocates host (pixelFormat image) (width image) (height image) blank ->
  not_stopped host fop0 (height image) ->
  exists fop1 png fop2 image',
    onSave lib fop = (Returned true, fop1, Some png) /\
    onLoad host (reopen png) fop0 = (Returned true, fop2) /\
    seq_image fop2 = Some image' /\
    pixelFormat image' = pixelFormat image /\
    width image' = width image /\ height image' = height image /\
    pixels image' = pixels image.
Proof.
  intros Himg [Hlen Hrows] Hfmt Halpha Hs Hi Hok
         (Hblank & Hbf & Hbw & Hbh & Hbl) Hgo.
  destruct (onSave_run lib fop image Himg Hs Hi Hok) as [fop1 Hsave];
    [destruct Hfmt as [-> | ->]; discriminate|].
  rewrite (saved_rows image _ Hlen) in Hsave.
  set (ct := save_color_type image (sprite fop)) in *.
  set (conv := if (ct =? PNG_COLOR_TYPE_RGB_ALPHA)%Z
               then load_rgb_alpha (width image)
               else load_gray_alpha (width image)).
  assert (Hct : (ct = PNG_COLOR_TYPE_RGB_ALPHA /\ pixelFormat image = IMAGE_RGB)
                \/ (ct = PNG_COLOR_TYPE_GRAY_ALPHA
                    /\ pixelFormat image = IMAGE_GRAYSCALE)).
  { subst ct. unfold save_color_type. rewrite Halpha.
    destruct Hfmt as [-> | ->]; auto. }
  match type of Hsave with
  | _ = (_, _, Some ?p) => set (png := p) in *
  end.
  assert (Hsel : select_format (png_color_type png) fop0
                 = Some (pixelFormat image, set_has_alpha true fop0)).
  { simpl. destruct Hct as [[-> ->] | [-> ->]]; reflexivity. }
  assert (Hconv : forall r,
             load_row (png_color_type png) (replicate 256 255%Z)
               (transparentColor (sprite fop0)) (png_width png) r
             = Some (Some (conv r))).
  { intros r. subst conv. simpl.
    destruct Hct as [[-> _] | [-> _]]; reflexivity. }
  destruct (onLoad_complete host (reopen png) png fop0
              (set_has_alpha true fop0)
              (snd (fop_sequence_image host (pixelFormat image)
                      (png_width png) (png_height png)
                      (set_has_alpha true fop0)))
              (pixelFormat image) blank (replicate 256 255%Z) conv)
    as (fop2 & Hload & Himg2 & _).
  - repeat split.
  - exact Hsel.
  - exact Hblank.
  - apply palette_block_skip. left. simpl.
    destruct Hct as [[-> _] | [-> _]]; discriminate.
  - simpl. exact Hbl.
  - simpl. rewrite length_fmap. lia.
  - apply Forall_forall. intros r _.
    unfold fop_sequence_image. simpl png_width. simpl png_height.
    rewrite Hblank. apply Hconv.
  - simpl. rewrite Nat.add_0_r. exact Hgo.
  - exists fop1, png, fop2. eexists. split; [exact Hsave|].
    split; [exact Hload|]. split; [exact Himg2|]. simpl.
    repeat split; try assumption.
    rewrite drop_0, firstn_all2 by (rewrite length_fmap; lia).
    rewrite <- list_fmap_compose. apply fmap_fixed.
    eapply Forall_impl; [exact Hrows|].
    intros row [Hw Hpx]. unfold compose. subst conv. simpl.
    destruct Hct as [[-> Hf] | [-> Hf]]; simpl; rewrite Hf in Hpx; rewrite <- Hw.
    + apply load_save_rgb_alpha, Hpx.
    + apply load_save_gray_alpha, Hpx.
Qed.

Lemma roundtrip_with_alpha_witness :
  exists fop1 png fop2 image',
    onSave samples.lib_ok (samples.with_image samples.rgb_image samples.sprite5)
    = (Returned true, fop1, Some png) /\
    onLoad samples.host_run (reopen png) samples.fop5 = (Returned true, fop2) /\
    seq_image fop2 = Some image' /\
    pixelFormat image' = IMAGE_RGB /\
    width image' = 2%nat /\ height image' = 2%nat /\
    pixels image' = [[4278190335; 16909060]; [0; 2155905152]]%Z.
Proof.
  apply (roundtrip_with_alpha samples.host_run samples.lib_ok
           (samples.with_image samples.rgb_image samples.sprite5)
           samples.rgb_image samples.fop5 (samples.blank IMAGE_RGB 2 2)).
  - reflexivity.
  - split; [reflexivity|].
    repeat (constructor; [split; [reflexivity|]|]); repeat constructor;
      unfold is_pixel; simpl; lia.
  - left. reflexivity.
  - reflexivity.
  - reflexivity.
  - reflexivity.
  - intros call. reflexivity.
  - repeat split.
  - intros k _. reflexivity.
Defined.

End RoundTrip.

(** ** Indexed rows *)

Section Indexed.
#[local] Arguments replicate : simpl never.

(** With its 256 entries the alpha table answers every byte. *)
Lemma load_indexed_run pal_alphas mask_entry w src :
  length pal_alphas = 256%nat ->
  Forall is_byte src ->
  load_indexed pal_alphas mask_entry w src
  = Some (indexed_pixel pal_alphas mask_entry <$> take w src).
Proof.
  intros Hlen Hsrc. revert w.
  induction Hsrc as [|c src Hc _ IH]; intros [|w]; simpl; try reflexivity.
  destruct (lookup_lt_is_Some_2 pal_alphas (Z.to_nat c)) as [alpha Ha].
  { unfold is_byte in Hc. lia. }
  rewrite Ha, IH. unfold indexed_pixel at 2. rewrite Ha. reflexivity.
Qed.

Lemma load_row_indexed pal_alphas mask_entry w src :
  length pal_alphas = 256%nat ->
  Forall is_byte src ->
  load_row PNG_COLOR_TYPE_PALETTE pal_alphas mask_entry w src
  = Some (Some (indexed_pixel pal_alphas mask_entry <$> take w src)).
Proof.
  intros Hlen Hsrc. unfold load_row. simpl.
  rewrite load_indexed_run by assumption. reflexivity.
Qed.

(** No row of bytes makes a conversion read beyond the table. *)
Lemma load_row_bytes color_type pal_alphas mask_entry w src :
  length pal_alphas = 256%nat ->
  Forall is_byte src ->
  is_Some (load_row color_type pal_alphas mask_entry w src).
Proof.
  intros Hlen Hsrc. unfold load_row.
  repeat match goal with
         | |- context [if ?b then _ else _] => destruct b
         end; eauto.
  rewrite load_indexed_run by assumption. eauto.
Qed.

Lemma load_rows_bytes host lib color_type pal_alphas mask_entry w h np pass n y
    rows fop :
  length pal_alphas = 256%nat ->
  byte_rows rows ->
  match load_rows host lib color_type pal_alphas mask_entry w h np pass n y rows fop
  with
  | Finished rows' _ => byte_rows rows'
  | Longjmp _ => True
  | Faulted _ _ => False
  end.
Proof.
  intros Hlen. revert y rows fop.
  induction n as [|n IH]; intros y rows fop Hrows; simpl; [exact Hrows|].
  destruct rows as [|r rows]; [exact I|].
  apply Forall_cons in Hrows as [Hr Hrows].
  destruct (load_row_bytes color_type pal_alphas mask_entry w r Hlen Hr)
    as [dst ->].
  destruct (is_stop host _); [exact Hrows|]. apply IH, Hrows.
Qed.

Lemma load_passes_bytes host lib color_type pal_alphas mask_entry w h np n pass
    rows fop :
  length pal_alphas = 256%nat ->
  byte_rows rows ->
  match load_passes host lib color_type pal_alphas mask_entry w h np n pass rows fop
  with
  | Finished rows' _ => byte_rows rows'
  | Longjmp _ => True
  | Faulted _ _ => False
  end.
Proof.
  intros Hlen. revert pass rows fop.
  induction n as [|n IH]; intros pass rows fop Hrows; simpl; [exact Hrows|].
  pose proof (load_rows_bytes host lib color_type pal_alphas mask_entry w h np
                pass h 0 rows fop Hlen Hrows) as H.
  destruct (load_rows _ _ _ _ _ _ _ _ _ _ _ _ _) as [rows' fop'| |];
    [|exact I|contradiction].
  apply IH, H.
Qed.

(** C9: the alpha table has exactly 256 entries whatever the file supplies,
    and a load whose rows are bytes never reads beyond it. *)
Theorem pal_alphas_reads_in_bounds host lib png fop :
  read_info lib = Some png ->
  byte_rows (png_rows png) ->
  (forall fop0 pal_alphas fop0',
      load_palette_block png fop0 = Some (pal_alphas, fop0') ->
      length pal_alphas = 256%nat /\
      forall c, is_byte c -> is_Some (pal_alphas !! Z.to_nat c)) /\
  fst (onLoad host lib fop) <> Undefined PalAlphasRead.
Proof.
  intros Hr Hrows. split.
  - intros fop0 pa fop0' Hblock.
    pose proof (palette_block_length _ _ _ _ Hblock) as Hlen.
    split; [exact Hlen|].
    intros c Hc. apply lookup_lt_is_Some_2. unfold is_byte in Hc. lia.
  - unfold onLoad.
    destruct (create_struct lib); simpl; [|discriminate].
    destruct (create_info_struct lib); simpl; [|discriminate].
    rewrite Hr.
    destruct (select_format _ _) as [[f fop1]|]; [|discriminate].
    destruct (fop_sequence_image _ _ _ _ _) as [[image|] fop2]; [|discriminate].
    destruct (load_palette_block png fop2) as [[pa fop3]|] eqn:Hblock;
      [|discriminate].
    pose proof (load_passes_bytes host lib (png_color_type png) pa
                  (transparentColor (sprite fop3)) (png_width png)
                  (png_height png) (png_set_interlace_handling png)
                  (png_set_interlace_handling png) 0 (png_rows png) fop3
                  (palette_block_length _ _ _ _ Hblock) Hrows) as H.
    destruct (load_passes _ _ _ _ _ _ _ _ _ _ _ _); [discriminate..|contradiction].
Qed.

Lemma pal_alphas_reads_in_bounds_witness :
  fst (onLoad samples.host_run (reopen samples.indexed_png) samples.fop5)
  <> Undefined PalAlphasRead.
Proof.
  apply (pal_alphas_reads_in_bounds samples.host_run
           (reopen samples.indexed_png) samples.indexed_png samples.fop5).
  - reflexivity.
  - unfold byte_rows, is_byte. simpl.
    repeat (constructor; [repeat (constructor; [lia|]); constructor|]).
    constructor.
Defined.

(** C3: in a complete load of a palette image, interlaced or not, a pixel
    whose index has an alpha below 128 is stored as the sprite's mask index,
    and any other pixel is stored as its index.  The index [c] of pixel
    [(x, y)] is byte [x] of row [y] of the last pass. *)
Theorem indexed_collapse host lib png palette image fop x y row c :
  opens lib png ->
  png_color_type png = PNG_COLOR_TYPE_PALETTE ->
  png_PLTE png = Some palette ->
  (length (default [] (png_tRNS png)) <= 256)%nat ->
  allocates host IMAGE_INDEXED (png_width png) (png_height png) image ->
  (png_set_interlace_handling png * png_height png
   <= length (png_rows png))%nat ->
  byte_rows (png_rows png) ->
  not_stopped host fop (png_set_interlace_handling png * png_height png) ->
  (y < png_height png)%nat -> (x < png_width png)%nat ->
  png_rows png !! ((png_set_interlace_handling png - 1) * png_height png + y)%nat
  = Some row ->
  row !! x = Some c ->
  exists fop' image',
    onLoad host lib fop = (Returned true, fop') /\
    seq_image fop' = Some image' /\
    pixel_at image' x y
    = Some (if (entry_alpha (default [] (png_tRNS png)) c <? 128)%Z
            then transparentColor (sprite fop') else c).
Proof.
  intros Hopen Hct Hpl Hlen (Himg & _ & _ & _ & Hpx) Hh Hbytes Hgo Hy Hx
         Hrow Hc.
  set (trans := default [] (png_tRNS png)) in *.
  destruct (palette_block_run png palette
              (snd (fop_sequence_image host IMAGE_INDEXED (png_width png)
                      (png_height png) (png_read_header lib fop)))
              Hct Hpl Hlen) as [p Hblock].
  fold trans in Hblock.
  match type of Hblock with
  | _ = Some (?a, ?b) => set (pa := a) in *; set (fop3 := b) in *
  end.
  assert (Hpa : length pa = 256%nat)
    by (subst pa; rewrite length_inserts, length_replicate; reflexivity).
  destruct (onLoad_complete host lib png fop (png_read_header lib fop) fop3
              IMAGE_INDEXED image pa
              (fun r => indexed_pixel pa (transparentColor (sprite fop3))
                          <$> take (png_width png) r))
    as (fop' & Hload & Himg' & (Hsp & _)).
  - exact Hopen.
  - rewrite Hct. reflexivity.
  - exact Himg.
  - exact Hblock.
  - exact Hpx.
  - exact Hh.
  - rewrite Hct. apply Forall_take.
    eapply Forall_impl; [exact Hbytes|].
    intros r Hr. apply load_row_indexed; [exact Hpa|exact Hr].
  - exact Hgo.
  - exists fop'. eexists. split; [exact Hload|]. split; [exact Himg'|].
    assert (Hbyte : is_byte c).
    { unfold byte_rows in Hbytes.
      rewrite Forall_forall in Hbytes.
      specialize (Hbytes row (list_elem_of_lookup_2 _ _ _ Hrow)).
      rewrite Forall_forall in Hbytes.
      apply Hbytes. eapply list_elem_of_lookup_2, Hc. }
    unfold pixel_at, with_pixels. simpl.
    rewrite list_lookup_fmap, lookup_take_lt, lookup_drop, Hrow by lia.
    simpl. rewrite list_lookup_fmap, lookup_take_lt, Hc by lia. simpl.
    f_equal. unfold indexed_pixel. subst pa.
    rewrite pal_alphas_lookup by (assumption || exact Hbyte). simpl.
    rewrite Hsp.
    destruct (Z.ltb_spec (entry_alpha trans c) 128) as [Hlow|Hhigh];
      [|apply uint8_small, Hbyte].
    apply uint8_small.
    assert (Hex : Exists (fun a => (a < 128)%Z) trans).
    { unfold entry_alpha in Hlow.
      destruct (trans !! Z.to_nat c) as [a|] eqn:Ha; simpl in Hlow; [|lia].
      apply Exists_exists. exists a. split; [|exact Hlow].
      eapply list_elem_of_lookup_2, Ha. }
    destruct (first_transparent_Exists _ Hex) as [k Hk].
    pose proof (first_transparent_lt _ _ Hk) as Hklt.
    subst fop3. rewrite Hk. simpl. lia.
Qed.

Lemma indexed_collapse_witness :
  exists fop' image',
    onLoad samples.host_run (reopen samples.indexed_png) samples.fop5
    = (Returned true, fop') /\
    seq_image fop' = Some image' /\
    pixel_at image' 2 0
    = Some (if (entry_alpha [255; 255; 0; 255; 50; 255]%Z 4 <? 128)%Z
            then transparentColor (sprite fop') else 4%Z).
Proof.
  apply (indexed_collapse samples.host_run (reopen samples.indexed_png)
           samples.indexed_png samples.colors (samples.blank IMAGE_INDEXED 3 2)
           samples.fop5 2%nat 0%nat [0; 2; 4]%Z 4%Z).
  - repeat split.
  - reflexivity.
  - reflexivity.
  - simpl. lia.
  - repeat split.
  - simpl. lia.
  - unfold byte_rows, is_byte. simpl.
    repeat (constructor; [repeat (constructor; [lia|]); constructor|]).
    constructor.
  - intros k _. reflexivity.
  - simpl. lia.
  - simpl. lia.
  - reflexivity.
  - reflexivity.
Defined.

End Indexed.

(** ** Cancellation *)

Section Cancel.

(** The rows of a load cancelled after row [k]: the first [k+1] rows hold
    what was converted, the rows below are those of the allocated image. *)
Lemma cancelled_rows {A} (k : nat) (done rows : list A) y :
  length done = S k -> (S k <= length rows)%nat ->
  list_inserts 0 done rows !! y
  = if decide (y <= k)%nat then done !! y else rows !! y.
Proof.
  intros Hd Hr. destruct (decide (y <= k)%nat).
  - rewrite list_lookup_inserts by lia. f_equal. lia.
  - rewrite list_lookup_inserts_ge by lia. reflexivity.
Qed.

(** A single-pass load cancelled after row 0: row 0 is converted, row 1 is
    as allocated, and the load returns true without an error message. *)
Example cancel_single_pass :
  fst (onLoad (samples.host_cancel_at 0) (reopen samples.indexed_png)
              samples.fop5) = Returned true /\
  errors (snd (onLoad (samples.host_cancel_at 0) (reopen samples.indexed_png)
                      samples.fop5)) = [] /\
  pixels <$> seq_image
    (snd (onLoad (samples.host_cancel_at 0) (reopen samples.indexed_png)
                 samples.fop5)) = Some [[0; 2; 2]; [0; 0; 0]]%Z.
Proof. vm_compute. repeat split. Qed.

(** C5: with an interlaced file the cancelled load goes on.  The flag is
    set from the first poll on, that is after row 0 of pass 0; [onLoad]
    still reads one row in each of the 7 passes and writes it to row 0,
    which was written with sample 10 and ends with sample 40. *)
Theorem cancel_interlaced_goes_on :
  fst (onLoad samples.host_cancel (reopen samples.interlaced_png) samples.fop5)
  = Returned true /\
  stop_polls
    (snd (onLoad samples.host_cancel (reopen samples.interlaced_png)
                 samples.fop5)) = 7%nat /\
  pr_pass <$> progress
    (snd (onLoad samples.host_cancel (reopen samples.interlaced_png)
                 samples.fop5)) = [0; 1; 2; 3; 4; 5; 6]%nat /\
  pixels <$> seq_image
    (snd (onLoad samples.host_cancel (reopen samples.interlaced_png)
                 samples.fop5)) = Some [[graya 40 255]; [0%Z]] /\
  graya 40 255 <> graya 10 255.
Proof. vm_compute. repeat split; discriminate. Qed.

End Cancel.

(** ** ReplaceImage *)

Section Replace.
Import ReplaceImage.

Lemma setId_own image : setId (id image) (createCopy image) = image.
Proof. destruct image; reflexivity. Qed.

Lemma replaceImage_bound cur newImage s old :
  images s !! cur = Some old ->
  images (replaceImage cur newImage s)
  = <[id newImage := newImage]> (delete cur (images s)).
Proof. intros H. unfold replaceImage. rewrite H. reflexivity. Qed.

Lemma replaceImage_fields cur newImage s :
  transparentColor (replaceImage cur newImage s) = transparentColor s /\
  needAlpha (replaceImage cur newImage s) = needAlpha s /\
  backgroundLayer (replaceImage cur newImage s) = backgroundLayer s.
Proof. unfold replaceImage. destruct (images s !! cur); auto. Qed.

Lemma sprite_ext s s' :
  transparentColor s = transparentColor s' ->
  needAlpha s = needAlpha s' ->
  backgroundLayer s = backgroundLayer s' ->
  images s = images s' ->
  s = s'.
Proof. destruct s, s'; simpl; congruence. Qed.

(** One step of the command on a registry where the identity to displace
    is bound and the other one is not. *)
Lemma onExecute_run cmd s oldImage newImage :
  getImageRef (m_oldImageId cmd) s = Some oldImage ->
  m_newImage cmd = Some newImage ->
  onExecute cmd s
  = Some (mkCmd (m_oldImageId cmd) (m_newImageId cmd) None
                (Some (createCopy oldImage)),
          replaceImage (m_oldImageId cmd) newImage s).
Proof. intros Ho Hn. unfold onExecute. rewrite Ho, Hn. reflexivity. Qed.

Lemma onUndo_run cmd s newImage copy :
  getImageRef (m_newImageId cmd) s = Some newImage ->
  getImageRef (m_oldImageId cmd) s = None ->
  m_copy cmd = Some copy ->
  onUndo cmd s
  = Some (mkCmd (m_oldImageId cmd) (m_newImageId cmd) (m_newImage cmd)
                (Some (createCopy newImage)),
          replaceImage (m_newImageId cmd) (setId (m_oldImageId cmd) copy) s).
Proof. intros Hn Ho Hc. unfold onUndo. rewrite Hn, Ho, Hc. reflexivity. Qed.

Lemma onRedo_run cmd s oldImage copy :
  getImageRef (m_oldImageId cmd) s = Some oldImage ->
  getImageRef (m_newImageId cmd) s = None ->
  m_copy cmd = Some copy ->
  onRedo cmd s
  = Some (mkCmd (m_oldImageId cmd) (m_newImageId cmd) (m_newImage cmd)
                (Some (createCopy oldImage)),
          replaceImage (m_oldImageId cmd) (setId (m_newImageId cmd) copy) s).
Proof. intros Ho Hn Hc. unfold onRedo. rewrite Ho, Hn, Hc. reflexivity. Qed.

(** C8: execute unbinds the old identity and binds the new one to the new
    image; undo binds the old identity to an image with the pixels that
    were bound before execute and unbinds the new one; redo brings the
    sprite back to what it was after execute. *)
Theorem replace_image_cycle s oldImage newImage :
  getImageRef (id oldImage) s = Some oldImage ->
  id newImage <> id oldImage ->
  exists cmd1 s1 cmd2 s2 cmd3 s3 restored,
    onExecute (create oldImage newImage) s = Some (cmd1, s1) /\
    getImageRef (id oldImage) s1 = None /\
    getImageRef (id newImage) s1 = Some newImage /\
    onUndo cmd1 s1 = Some (cmd2, s2) /\
    getImageRef (id oldImage) s2 = Some restored /\
    pixelFormat restored = pixelFormat oldImage /\
    width restored = width oldImage /\ height restored = height oldImage /\
    pixels restored = pixels oldImage /\
    getImageRef (id newImage) s2 = None /\
    onRedo cmd2 s2 = Some (cmd3, s3) /\
    s3 = s1.
Proof.
  intros Hold Hne.
  set (cmd := create oldImage newImage).
  pose proof (onExecute_run cmd s oldImage newImage Hold eq_refl) as Hexec.
  simpl in Hexec.
  set (s1 := replaceImage (id oldImage) newImage s) in *.
  assert (Hs1 : images s1
                = <[id newImage := newImage]> (delete (id oldImage) (images s)))
    by (apply (replaceImage_bound _ _ _ oldImage), Hold).
  assert (Hold1 : getImageRef (id oldImage) s1 = None).
  { unfold getImageRef. rewrite Hs1.
    rewrite lookup_insert_ne by exact Hne. apply lookup_delete_eq. }
  assert (Hnew1 : getImageRef (id newImage) s1 = Some newImage).
  { unfold getImageRef. rewrite Hs1. apply lookup_insert_eq. }
  match type of Hexec with _ = Some (?c, _) => set (cmd1 := c) in * end.
  pose proof (onUndo_run cmd1 s1 newImage (createCopy oldImage)
                Hnew1 Hold1 eq_refl) as Hundo.
  simpl in Hundo. rewrite setId_own in Hundo.
  set (s2 := replaceImage (id newImage) oldImage s1) in *.
  assert (Hs2 : images s2
                = <[id oldImage := oldImage]> (delete (id newImage) (images s1)))
    by (apply (replaceImage_bound _ _ _ newImage), Hnew1).
  assert (Hold2 : getImageRef (id oldImage) s2 = Some oldImage).
  { unfold getImageRef. rewrite Hs2. apply lookup_insert_eq. }
  assert (Hnew2 : getImageRef (id newImage) s2 = None).
  { unfold getImageRef. rewrite Hs2.
    rewrite lookup_insert_ne by (intros E; apply Hne; symmetry; exact E).
    apply lookup_delete_eq. }
  match type of Hundo with _ = Some (?c, _) => set (cmd2 := c) in * end.
  pose proof (onRedo_run cmd2 s2 oldImage (createCopy newImage)
                Hold2 Hnew2 eq_refl) as Hredo.
  simpl in Hredo. rewrite setId_own in Hredo.
  set (s3 := replaceImage (id oldImage) newImage s2) in *.
  assert (Hs3 : images s3
                = <[id newImage := newImage]> (delete (id oldImage) (images s2)))
    by (apply (replaceImage_bound _ _ _ oldImage), Hold2).
  exists cmd1, s1, cmd2, s2. eexists. exists s3, oldImage.
  repeat (split; [first [assumption|reflexivity]|]).
  assert (Himgs : images s3 = images s1).
  { rewrite Hs3, Hs2, Hs1. apply map_eq. intros i.
    destruct (decide (i = id newImage)) as [->|Hi].
    - rewrite !lookup_insert_eq. reflexivity.
    - rewrite !(lookup_insert_ne _ (id newImage)) by congruence.
      destruct (decide (i = id oldImage)) as [->|Hi'].
      + rewrite !lookup_delete_eq. reflexivity.
      + rewrite !(lookup_delete_ne _ (id oldImage)) by congruence.
        rewrite lookup_insert_ne by congruence.
        rewrite lookup_delete_ne by congruence.
        rewrite lookup_insert_ne by congruence.
        rewrite lookup_delete_ne by congruence. reflexivity. }
  split; [exact Hredo|].
  apply sprite_ext; [..|exact Himgs]; subst s3 s2 s1.
  - rewrite !(proj1 (replaceImage_fields _ _ _)). reflexivity.
  - rewrite !(proj1 (proj2 (replaceImage_fields _ _ _))). reflexivity.
  - rewrite !(proj2 (proj2 (replaceImage_fields _ _ _))). reflexivity.
Qed.

Lemma replace_image_cycle_witness :
  exists cmd1 s1 cmd2 s2 cmd3 s3 restored,
    onExecute (create samples.old_image samples.new_image) samples.sprite_reg
    = Some (cmd1, s1) /\
    getImageRef 1%nat s1 = None /\
    getImageRef 2%nat s1 = Some samples.new_image /\
    onUndo cmd1 s1 = Some (cmd2, s2) /\
    getImageRef 1%nat s2 = Some restored /\
    pixelFormat restored = IMAGE_INDEXED /\
    width restored = 2%nat /\ height restored = 1%nat /\
    pixels restored = [[1; 2]]%Z /\
    getImageRef 2%nat s2 = None /\
    onRedo cmd2 s2 = Some (cmd3, s3) /\
    s3 = s1.
Proof.
  apply (replace_image_cycle samples.sprite_reg samples.old_image
           samples.new_image).
  - reflexivity.
  - simpl. lia.
Defined.

End Replace.

Import more.

(** ** Loading any supported file *)

Section Decode.
#[local] Arguments replicate : simpl never.
Variable host : Host.

Ltac each_color_type H :=
  destruct H as [H|[H|[H|[H|H]]]]; rewrite H.

Lemma select_format_of color_type fop :
  supported_color_type color_type ->
  select_format color_type fop
  = Some (format_of color_type,
          if has_alpha_channel color_type then set_has_alpha true fop else fop).
Proof. intros H. each_color_type H; reflexivity. Qed.

(** Outside palette images a row conversion looks at neither the alpha
    table nor the mask entry. *)
Lemma load_row_plain color_type pa me pa' me' w r :
  color_type <> PNG_COLOR_TYPE_PALETTE ->
  load_row color_type pa me w r = load_row color_type pa' me' w r.
Proof.
  intros Hne. unfold load_row.
  repeat match goal with
         | |- context [if ?b then _ else _] => destruct b eqn:?
         end; try reflexivity.
  apply Z.eqb_eq in Heqb3. contradiction.
Qed.

Lemma load_row_pixels color_type pa me w r :
  supported_color_type color_type ->
  length pa = 256%nat ->
  Forall is_byte r ->
  load_row color_type pa me w r = Some (Some (row_pixels color_type pa me w r)).
Proof.
  intros Hs Hpa Hr. unfold row_pixels.
  destruct (Z.eq_dec color_type PNG_COLOR_TYPE_PALETTE) as [->|Hne].
  - rewrite load_row_indexed by assumption. reflexivity.
  - each_color_type Hs; try reflexivity. contradiction.
Qed.

(** The three ways the palette block leaves the file operation. *)
Lemma palette_block_cases png fop pa fop' :
  load_palette_block png fop = Some (pa, fop') ->
  fop' = fop \/
  (exists p, fop' = set_seq_palette p fop) \/
  (exists p k,
      fop' = set_sprite (setTransparentColor k (sprite fop))
                        (set_has_alpha true (set_seq_palette p fop))).
Proof.
  destruct (Z.eq_dec (png_color_type png) PNG_COLOR_TYPE_PALETTE) as [Hct|Hct].
  - destruct (png_PLTE png) as [palette|] eqn:Hpl.
    + destruct (decide (length (default [] (png_tRNS png)) <= 256)%nat)
        as [Hlen|Hlen].
      * destruct (palette_block_run png palette fop Hct Hpl Hlen) as [p ->].
        intros [= _ <-]. destruct (first_transparent _); eauto 6.
      * rewrite (palette_block_overflow png palette) by (auto; lia).
        discriminate.
    + rewrite palette_block_skip by auto. intros [= _ <-]. auto.
  - rewrite palette_block_skip by auto. intros [= _ <-]. auto.
Qed.

(** The [switch], the allocation and the palette block, for a file that
    libpng reads well. *)
Lemma setup_block png fop image :
  supported_color_type (png_color_type png) ->
  well_read png ->
  sequence_image host (format_of (png_color_type png)) (png_width png)
                 (png_height png) = Some image ->
  exists fop1 pa fop3,
    select_format (png_color_type png) fop
    = Some (format_of (png_color_type png), fop1) /\
    load_palette_block png
      (snd (fop_sequence_image host (format_of (png_color_type png))
              (png_width png) (png_height png) fop1))
    = Some (pa, fop3) /\
    (forall me r,
        Forall is_byte r ->
        load_row (png_color_type png) pa me (png_width png) r
        = Some (Some (row_pixels (png_color_type png) (file_alphas png) me
                                 (png_width png) r))) /\
    seq_image fop3 = Some image /\
    progress fop3 = progress fop /\ errors fop3 = errors fop /\
    stop_polls fop3 = stop_polls fop.
Proof.
  intros Hs [Hpal Hbytes] Himg.
  pose proof (select_format_of _ fop Hs) as Hsel.
  eexists. 
  destruct (load_palette_block png
              (snd (fop_sequence_image host (format_of (png_color_type png))
                      (png_width png) (png_height png)
                      (if has_alpha_channel (png_color_type png)
                       then set_has_alpha true fop else fop))))
    as [[pa fop3]|] eqn:Hblock.
  - exists pa, fop3. split; [exact Hsel|]. split; [exact Hblock|].
    pose proof (palette_block_length _ _ _ _ Hblock) as Hlen.
    split.
    { intros me r Hr.
      destruct (Z.eq_dec (png_color_type png) PNG_COLOR_TYPE_PALETTE)
        as [Hct|Hct].
      - destruct (Hpal Hct) as [[palette Hpl] Htr].
        destruct (palette_block_run png palette
                    (snd (fop_sequence_image host
                            (format_of (png_color_type png))
                            (png_width png) (png_height png)
                            (if has_alpha_channel (png_color_type png)
                             then set_has_alpha true fop else fop)))
                    Hct Hpl Htr) as [p Hrun].
        rewrite Hrun in Hblock. injection Hblock as <- _.
        apply load_row_pixels; assumption.
      - rewrite (load_row_plain _ pa me (file_alphas png) me) by exact Hct.
        apply load_row_pixels; [exact Hs| |exact Hr].
        unfold file_alphas. rewrite length_inserts, length_replicate.
        reflexivity. }
    unfold fop_sequence_image in Hblock. rewrite Himg in Hblock.
    simpl in Hblock.
    destruct (palette_block_cases _ _ _ _ Hblock)
      as [->|[[p ->]|(p & k & ->)]];
      destruct (has_alpha_channel (png_color_type png)); simpl; auto.
  - exfalso.
    destruct (Z.eq_dec (png_color_type png) PNG_COLOR_TYPE_PALETTE)
      as [Hct|Hct].
    + destruct (Hpal Hct) as [[palette Hpl] Htr].
      destruct (palette_block_run png palette
                  (snd (fop_sequence_image host
                          (format_of (png_color_type png))
                          (png_width png) (png_height png)
                          (if has_alpha_channel (png_color_type png)
                           then set_has_alpha true fop else fop)))
                  Hct Hpl Htr) as [p Hrun].
      rewrite Hrun in Hblock. discriminate.
    + rewrite palette_block_skip in Hblock by auto. discriminate.
Qed.

(** Everything up to the row loops, for a file that libpng reads well. *)
Lemma onLoad_setup lib png fop image :
  opens lib png ->
  supported_color_type (png_color_type png) ->
  well_read png ->
  sequence_image host (format_of (png_color_type png)) (png_width png)
                 (png_height png) = Some image ->
  exists fop1 pa fop3,
    select_format (png_color_type png) (png_read_header lib fop)
    = Some (format_of (png_color_type png), fop1) /\
    load_palette_block png
      (snd (fop_sequence_image host (format_of (png_color_type png))
              (png_width png) (png_height png) fop1))
    = Some (pa, fop3) /\
    (forall me r,
        Forall is_byte r ->
        load_row (png_color_type png) pa me (png_width png) r
        = Some (Some (row_pixels (png_color_type png) (file_alphas png) me
                                 (png_width png) r))) /\
    seq_image fop3 = Some image /\
    progress fop3 = progress fop /\
    reported (errors fop) (errors fop3) /\
    stop_polls fop3 = stop_polls fop.
Proof.
  intros _ Hs Hwell Himg.
  destruct (setup_block png (png_read_header lib fop) image Hs Hwell Himg)
    as (fop1 & pa & fop3 & Hsel & Hblock & Hconv & Himg3 & Hprog & Herr
        & Hpolls).
  exists fop1, pa, fop3. rewrite Hprog, Herr, Hpolls.
  split; [exact Hsel|]. split; [exact Hblock|]. split; [exact Hconv|].
  split; [exact Himg3|]. rewrite png_read_header_logged. simpl.
  split; [reflexivity|]. split; [|reflexivity].
  eexists. reflexivity.
Qed.

End Decode.

(** ** Progress reports, polls and truncated files *)

Section Reports.
#[local] Arguments replicate : simpl never.
Variable host : Host.
Variable lib : PngLib.
Variables (color_type : Z) (pal_alphas : list Z) (mask_entry : Z).
Variables (width height number_passes : nat).

Lemma put_row_counters y dst fop :
  progress (put_row y dst fop) = progress fop /\
  stop_polls (put_row y dst fop) = stop_polls fop.
Proof. unfold put_row. destruct dst, (seq_image fop); auto. Qed.

Lemma read_row_counters call y dst fop :
  progress (put_row y dst (png_call lib call fop)) = progress fop /\
  stop_polls (put_row y dst (png_call lib call fop)) = stop_polls fop.
Proof.
  destruct (put_row_counters y dst (png_call lib call fop)) as [-> ->].
  rewrite png_call_logged. auto.
Qed.

Ltac row_counters y dst fop Hpr Hpo :=
  match goal with
  | |- context [put_row y dst (png_call lib ?c fop)] =>
      destruct (read_row_counters c y dst fop) as [Hpr Hpo]
  end.

(** A pass that is not cancelled reports once per row and polls once per
    row. *)
Lemma load_rows_reports pass n y rows fop :
  (n <= length rows)%nat ->
  Forall (fun r => is_Some (load_row color_type pal_alphas mask_entry width r))
         (take n rows) ->
  not_stopped host fop n ->
  exists fop',
    load_rows host lib color_type pal_alphas mask_entry width height number_passes
              pass n y rows fop
    = Finished (drop n rows) fop' /\
    progress fop'
    = progress fop
      ++ ((fun i => mkProgress pass (i + 1) height number_passes) <$> seq y n) /\
    stop_polls fop' = (stop_polls fop + n)%nat.
Proof.
  revert y rows fop. induction n as [|n IH]; intros y rows fop Hlen Hconv Hgo.
  - exists fop. simpl. rewrite drop_0, app_nil_r, Nat.add_0_r. auto.
  - destruct rows as [|r rows]; [simpl in Hlen; lia|].
    simpl in Hlen. rewrite firstn_cons in Hconv.
    apply Forall_cons in Hconv as [[dst Hr] Hconv].
    simpl load_rows. rewrite Hr.
    row_counters y dst fop Hpr Hpo.
    simpl. rewrite Hpo.
    pose proof (Hgo 0%nat ltac:(lia)) as H0. rewrite Nat.add_0_r in H0.
    rewrite H0.
    match goal with
    | |- context [load_rows _ _ _ _ _ _ _ _ _ n (S y) rows ?f] =>
        destruct (IH (S y) rows f) as (fop' & -> & Hprog & Hpolls)
    end; [lia|exact Hconv| |].
    + intros k Hk. simpl. specialize (Hgo (S k) ltac:(lia)).
      rewrite <- Hgo. f_equal. lia.
    + exists fop'. split; [reflexivity|]. split.
      * rewrite Hprog. simpl. rewrite Hpr, <- app_assoc. reflexivity.
      * rewrite Hpolls. simpl. lia.
Qed.

Lemma load_passes_reports n pass rows fop :
  (n * height <= length rows)%nat ->
  Forall (fun r => is_Some (load_row color_type pal_alphas mask_entry width r))
         (take (n * height) rows) ->
  not_stopped host fop (n * height) ->
  exists fop',
    load_passes host lib color_type pal_alphas mask_entry width height
                number_passes n pass rows fop
    = Finished (drop (n * height) rows) fop' /\
    progress fop'
    = progress fop
      ++ flat_map (fun p => (fun i => mkProgress p (i + 1) height number_passes)
                              <$> seq 0 height) (seq pass n) /\
    stop_polls fop' = (stop_polls fop + n * height)%nat.
Proof.
  revert pass rows fop. induction n as [|n IH]; intros pass rows fop Hlen Hconv Hgo.
  - exists fop. simpl. rewrite drop_0, app_nil_r, Nat.add_0_r. auto.
  - simpl in Hlen.
    destruct (load_rows_reports pass height 0 rows fop)
      as (fop1 & Hrun & Hprog1 & Hpolls1); [lia| | |].
    { replace (take height rows)
        with (take height (take (S n * height) rows))
        by (rewrite take_take; f_equal; simpl; lia).
      apply Forall_take, Hconv. }
    { intros k Hk. apply Hgo. simpl. lia. }
    simpl load_passes. rewrite Hrun.
    destruct (IH (S pass) (drop height rows) fop1)
      as (fop2 & -> & Hprog2 & Hpolls2).
    + rewrite length_drop. lia.
    + rewrite take_drop_commute. apply Forall_drop.
      replace (height + n * height)%nat with (S n * height)%nat by (simpl; lia).
      exact Hconv.
    + intros k Hk. rewrite Hpolls1, <- Nat.add_assoc. apply Hgo. simpl. lia.
    + exists fop2. rewrite drop_drop. split; [reflexivity|]. split.
      * rewrite Hprog2, Hprog1. simpl. rewrite <- app_assoc. reflexivity.
      * rewrite Hpolls2, Hpolls1. simpl. lia.
Qed.

(** A pass for which libpng has too few rows ends in its error handler. *)
Lemma load_rows_short pass n y rows fop :
  (length rows < n)%nat ->
  Forall (fun r => is_Some (load_row color_type pal_alphas mask_entry width r))
         rows ->
  not_stopped host fop (length rows) ->
  exists fop',
    load_rows host lib color_type pal_alphas mask_entry width height number_passes
              pass n y rows fop
    = Longjmp fop'.
Proof.
  revert n y fop. induction rows as [|r rows IH]; intros n y fop Hlen Hconv Hgo.
  - destruct n as [|n]; [simpl in Hlen; lia|]. simpl. eauto.
  - destruct n as [|n]; [simpl in Hlen; lia|]. simpl in Hlen.
    apply Forall_cons in Hconv as [[dst Hr] Hconv].
    simpl load_rows. rewrite Hr.
    row_counters y dst fop Hpr Hpo.
    simpl. rewrite Hpo.
    pose proof (Hgo 0%nat ltac:(simpl; lia)) as H0. rewrite Nat.add_0_r in H0.
    rewrite H0. apply IH; [lia|exact Hconv|].
    intros k Hk. simpl. specialize (Hgo (S k) ltac:(simpl; lia)).
    rewrite <- Hgo. f_equal. lia.
Qed.

Lemma load_passes_short n pass rows fop :
  (length rows < n * height)%nat ->
  Forall (fun r => is_Some (load_row color_type pal_alphas mask_entry width r))
         rows ->
  not_stopped host fop (length rows) ->
  exists fop',
    load_passes host lib color_type pal_alphas mask_entry width height
                number_passes n pass rows fop
    = Longjmp fop'.
Proof.
  revert pass rows fop. induction n as [|n IH]; intros pass rows fop Hlen Hconv Hgo.
  - simpl in Hlen. lia.
  - simpl in Hlen. simpl load_passes.
    destruct (decide (length rows < height)%nat) as [Hshort|Hfull].
    + destruct (load_rows_short pass height 0 rows fop Hshort Hconv Hgo)
        as [fop' ->]. eauto.
    + destruct (load_rows_reports pass height 0 rows fop)
        as (fop1 & -> & _ & Hpolls1); [lia|apply Forall_take, Hconv| |].
      { intros k Hk. apply Hgo. lia. }
      apply IH.
      * rewrite length_drop. lia.
      * apply Forall_drop, Hconv.
      * intros k Hk. rewrite length_drop in Hk.
        rewrite Hpolls1, <- Nat.add_assoc. apply Hgo. lia.
Qed.

End Reports.

(** ** Whole loads of well-read files *)

Section WholeFile.
#[local] Arguments replicate : simpl never.

Lemma byte_rows_convert png pa me rows :
  (forall me' r,
      Forall is_byte r ->
      load_row (png_color_type png) pa me' (png_width png) r
      = Some (Some (row_pixels (png_color_type png) (file_alphas png) me'
                               (png_width png) r))) ->
  byte_rows rows ->
  Forall (fun r => load_row (png_color_type png) pa me (png_width png) r
                   = Some (Some (row_pixels (png_color_type png)
                                   (file_alphas png) me (png_width png) r)))
         rows.
Proof.
  intros Hconv Hbytes. eapply Forall_impl; [exact Hbytes|].
  intros r Hr. apply Hconv, Hr.
Qed.

Lemma complete_load_run host lib png fop image :
  opens lib png ->
  supported_color_type (png_color_type png) ->
  well_read png ->
  allocates host (format_of (png_color_type png)) (png_width png)
            (png_height png) image ->
  (png_set_interlace_handling png * png_height png
   <= length (png_rows png))%nat ->
  not_stopped host fop (png_set_interlace_handling png * png_height png) ->
  exists fop',
    onLoad host lib fop = (Returned true, fop') /\
    seq_image fop'
    = Some (with_pixels image
              (row_pixels (png_color_type png) (file_alphas png)
                          (transparentColor (sprite fop')) (png_width png)
               <$> take (png_height png)
                        (drop ((png_set_interlace_handling png - 1)
                               * png_height png) (png_rows png)))).
Proof.
  intros Hopen Hs Hwell (Himg & _ & _ & _ & Hpx) Hrows Hgo.
  destruct (onLoad_setup host lib png fop image Hopen Hs Hwell Himg)
    as (fop1 & pa & fop3 & Hsel & Hblock & Hconv & _).
  destruct (onLoad_complete host lib png fop fop1 fop3
              (format_of (png_color_type png)) image pa
              (row_pixels (png_color_type png) (file_alphas png)
                          (transparentColor (sprite fop3)) (png_width png)))
    as (fop' & Hload & Himg' & (Hsp & _));
    [exact Hopen|exact Hsel|exact Himg|exact Hblock|exact Hpx|exact Hrows
    | |exact Hgo|].
  - apply Forall_take, byte_rows_convert; [exact Hconv|apply Hwell].
  - exists fop'. split; [exact Hload|].
    rewrite Hsp. exact Himg'.
Qed.

(** X1: a load that is not cancelled of a file that libpng reads well
    returns true, and the image holds, row by row, the conversion of the
    rows of the last pass. *)
Theorem complete_load host lib png fop image :
  opens lib png ->
  supported_color_type (png_color_type png) ->
  well_read png ->
  allocates host (format_of (png_color_type png)) (png_width png)
            (png_height png) image ->
  (png_set_interlace_handling png * png_height png
   <= length (png_rows png))%nat ->
  not_stopped host fop (png_set_interlace_handling png * png_height png) ->
  exists fop',
    onLoad host lib fop = (Returned true, fop') /\
    seq_image fop'
    = Some (with_pixels image
              (row_pixels (png_color_type png) (file_alphas png)
                          (transparentColor (sprite fop')) (png_width png)
               <$> take (png_height png)
                        (drop ((png_set_interlace_handling png - 1)
                               * png_height png) (png_rows png)))).
Proof. exact (complete_load_run host lib png fop image). Qed.

Lemma complete_load_witness :
  exists fop',
    onLoad samples.host_run (reopen gray_png) samples.fop5
    = (Returned true, fop') /\
    seq_image fop'
    = Some (with_pixels (samples.blank IMAGE_GRAYSCALE 2 2)
              (row_pixels PNG_COLOR_TYPE_GRAY (file_alphas gray_png)
                          (transparentColor (sprite fop')) 2
               <$> [[10; 20]; [30; 40]]%Z)).
Proof.
  apply (complete_load samples.host_run (reopen gray_png) gray_png samples.fop5
           (samples.blank IMAGE_GRAYSCALE 2 2)).
  - repeat split.
  - right. right. left. reflexivity.
  - split; [discriminate|].
    unfold byte_rows, is_byte. simpl.
    repeat (constructor; [repeat (constructor; [lia|]); constructor|]).
    constructor.
  - repeat split.
  - simpl. lia.
  - intros k _. reflexivity.
Defined.

(** X2: such a load reports progress once per row of every pass, in
    order, as (pass + (y+1)/height) / number_passes, and polls the
    cancellation flag as often. *)
Theorem complete_load_reports host lib png fop image :
  opens lib png ->
  supported_color_type (png_color_type png) ->
  well_read png ->
  allocates host (format_of (png_color_type png)) (png_width png)
            (png_height png) image ->
  (png_set_interlace_handling png * png_height png
   <= length (png_rows png))%nat ->
  not_stopped host fop (png_set_interlace_handling png * png_height png) ->
  progress (snd (onLoad host lib fop))
  = progress fop
    ++ load_reports (png_set_interlace_handling png) (png_height png) /\
  stop_polls (snd (onLoad host lib fop))
  = (stop_polls fop + png_set_interlace_handling png * png_height png)%nat.
Proof.
  intros Hopen Hs Hwell (Himg & _) Hrows Hgo.
  destruct (onLoad_setup host lib png fop image Hopen Hs Hwell Himg)
    as (fop1 & pa & fop3 & Hsel & Hblock & Hconv & _ & Hprog & _ & Hpolls).
  destruct (onLoad_rows host lib png fop _ fop1 image pa fop3 Hopen Hsel Himg
              Hblock) as (-> & _).
  destruct (load_passes_reports host lib (png_color_type png) pa
              (transparentColor (sprite fop3)) (png_width png) (png_height png)
              (png_set_interlace_handling png)
              (png_set_interlace_handling png) 0 (png_rows png) fop3)
    as (fop' & -> & Hprog' & Hpolls'); [exact Hrows| | |].
  - apply Forall_take. eapply Forall_impl; [apply Hwell|].
    intros r Hr. rewrite Hconv by exact Hr. eauto.
  - intros k Hk. rewrite Hpolls. apply Hgo, Hk.
  - simpl. rewrite Hprog', Hpolls', Hprog, Hpolls. auto.
Qed.

Lemma complete_load_reports_witness :
  progress (snd (onLoad samples.host_run (reopen gray_png) samples.fop5))
  = [mkProgress 0 1 2 1; mkProgress 0 2 2 1] /\
  stop_polls (snd (onLoad samples.host_run (reopen gray_png) samples.fop5))
  = 2%nat.
Proof.
  apply (complete_load_reports samples.host_run (reopen gray_png) gray_png
           samples.fop5 (samples.blank IMAGE_GRAYSCALE 2 2)).
  - repeat split.
  - right. right. left. reflexivity.
  - split; [discriminate|].
    unfold byte_rows, is_byte. simpl.
    repeat (constructor; [repeat (constructor; [lia|]); constructor|]).
    constructor.
  - repeat split.
  - simpl. lia.
  - intros k _. reflexivity.
Defined.

(** X3: when libpng has fewer rows than the passes ask for and the load is
    not cancelled before they are used up, [onLoad] returns false and its
    last message is "Error reading PNG file". *)
Theorem truncated_load host lib png fop image :
  opens lib png ->
  supported_color_type (png_color_type png) ->
  well_read png ->
  allocates host (format_of (png_color_type png)) (png_width png)
            (png_height png) image ->
  (length (png_rows png)
   < png_set_interlace_handling png * png_height png)%nat ->
  not_stopped host fop (length (png_rows png)) ->
  fst (onLoad host lib fop) = Returned false /\
  last (errors (snd (onLoad host lib fop))) = Some "Error reading PNG file".
Proof.
  intros Hopen Hs Hwell (Himg & _) Hrows Hgo.
  destruct (onLoad_setup host lib png fop image Hopen Hs Hwell Himg)
    as (fop1 & pa & fop3 & Hsel & Hblock & Hconv & _ & _ & _ & Hpolls).
  destruct (onLoad_rows host lib png fop _ fop1 image pa fop3 Hopen Hsel Himg
              Hblock) as (-> & _).
  destruct (load_passes_short host lib (png_color_type png) pa
              (transparentColor (sprite fop3)) (png_width png) (png_height png)
              (png_set_interlace_handling png)
              (png_set_interlace_handling png) 0 (png_rows png) fop3)
    as (fop' & ->); [exact Hrows| | |].
  - eapply Forall_impl; [apply Hwell|].
    intros r Hr. rewrite Hconv by exact Hr. eauto.
  - intros k Hk. rewrite Hpolls. apply Hgo, Hk.
  - simpl. split; [reflexivity|]. apply last_snoc.
Qed.

Lemma truncated_load_witness :
  fst (onLoad samples.host_run (reopen short_png) samples.fop5)
  = Returned false /\
  last (errors (snd (onLoad samples.host_run (reopen short_png) samples.fop5)))
  = Some "Error reading PNG file".
Proof.
  apply (truncated_load samples.host_run (reopen short_png) short_png
           samples.fop5 (samples.blank IMAGE_GRAYSCALE 2 2)).
  - repeat split.
  - right. right. left. reflexivity.
  - split; [discriminate|].
    unfold byte_rows, is_byte. simpl.
    repeat (constructor; [repeat (constructor; [lia|]); constructor|]).
    constructor.
  - repeat split.
  - simpl. lia.
  - intros k _. reflexivity.
Defined.

(** X4: a load of a file without interlacing that finds the flag set at
    its poll after row [k] returns true; rows 0 to [k] of the image hold
    the conversion of the rows delivered, the rows after [k] are as they
    were allocated. *)
Theorem single_pass_cancel host lib png fop image k :
  opens lib png ->
  png_interlace_type png = PNG_INTERLACE_NONE ->
  supported_color_type (png_color_type png) ->
  well_read png ->
  allocates host (format_of (png_color_type png)) (png_width png)
            (png_height png) image ->
  (k < png_height png)%nat -> (k < length (png_rows png))%nat ->
  not_stopped host fop k ->
  is_stop host (stop_polls fop + k) = true ->
  exists fop' image',
    onLoad host lib fop = (Returned true, fop') /\
    seq_image fop' = Some image' /\
    forall y,
      pixels image' !! y
      = if decide (y <= k)%nat
        then row_pixels (png_color_type png) (file_alphas png)
                        (transparentColor (sprite fop')) (png_width png)
             <$> png_rows png !! y
        else pixels image !! y.
Proof.
  intros Hopen Hpass Hs Hwell (Himg & _ & _ & _ & Hpx) Hk Hrows Hgo Hstop.
  destruct (onLoad_setup host lib png fop image Hopen Hs Hwell Himg)
    as (fop1 & pa & fop3 & Hsel & Hblock & Hconv & _).
  destruct (onLoad_cancelled host lib png fop fop1 fop3
              (format_of (png_color_type png)) image pa
              (row_pixels (png_color_type png) (file_alphas png)
                          (transparentColor (sprite fop3)) (png_width png))
              Hopen Hpass Hsel Himg Hblock k)
    as (fop' & Hload & Himg' & (Hsp & _));
    [exact Hk|exact Hrows| |exact Hgo|exact Hstop|].
  - apply Forall_take, byte_rows_convert; [exact Hconv|apply Hwell].
  - exists fop'. eexists. split; [exact Hload|].
    split; [exact Himg'|]. intros y. simpl.
    rewrite (cancelled_rows k)
      by (rewrite ?length_fmap, ?length_take; lia).
    rewrite Hsp. destruct (decide (y <= k)%nat); [|reflexivity].
    rewrite list_lookup_fmap, lookup_take_lt by lia. reflexivity.
Qed.

Lemma single_pass_cancel_witness :
  exists fop' image',
    onLoad (samples.host_cancel_at 0) (reopen gray_png) samples.fop5
    = (Returned true, fop') /\
    seq_image fop' = Some image' /\
    forall y,
      pixels image' !! y
      = if decide (y <= 0)%nat
        then row_pixels PNG_COLOR_TYPE_GRAY (file_alphas gray_png)
                        (transparentColor (sprite fop')) 2
             <$> [[10; 20]; [30; 40]]%Z !! y
        else [[0; 0]; [0; 0]]%Z !! y.
Proof.
  apply (single_pass_cancel (samples.host_cancel_at 0) (reopen gray_png)
           gray_png samples.fop5 (samples.blank IMAGE_GRAYSCALE 2 2) 0%nat).
  - repeat split.
  - reflexivity.
  - right. right. left. reflexivity.
  - split; [discriminate|].
    unfold byte_rows, is_byte. simpl.
    repeat (constructor; [repeat (constructor; [lia|]); constructor|]).
    constructor.
  - repeat split.
  - simpl. lia.
  - simpl. lia.
  - intros k Hk. lia.
  - reflexivity.
Defined.

End WholeFile.

(** ** What a load leaves alone *)

Section Frames.
#[local] Arguments replicate : simpl never.
Variable host : Host.

Lemma same_shape_refl image : same_shape image image.
Proof. repeat split. Qed.

Lemma put_row_shape image y dst fop :
  (exists image', seq_image fop = Some image' /\ same_shape image image') ->
  exists image', seq_image (put_row y dst fop) = Some image'
                 /\ same_shape image image'.
Proof.
  intros (image' & Himg & Hsh). unfold put_row. rewrite Himg.
  destruct dst as [row|]; [|eauto].
  eexists. split; [reflexivity|].
  destruct Hsh as (?&?&?&?&?). repeat split; simpl; try assumption.
  rewrite length_insert. assumption.
Qed.

Lemma load_rows_shape lib image ct pa me w h np pass n y rows fop :
  (exists image', seq_image fop = Some image' /\ same_shape image image') ->
  exists image',
    seq_image (loop_fop (load_rows host lib ct pa me w h np pass n y rows fop))
    = Some image' /\ same_shape image image'.
Proof.
  revert y rows fop. induction n as [|n IH]; intros y rows fop Hsh; simpl;
    [exact Hsh|].
  assert (Hsh0 : exists image',
             seq_image (png_call lib (ReadRow (length rows)) fop) = Some image'
             /\ same_shape image image')
    by (rewrite png_call_logged; exact Hsh).
  destruct rows as [|r rows]; [exact Hsh0|].
  destruct (load_row ct pa me w r) as [dst|]; [|exact Hsh0].
  pose proof (put_row_shape image y dst _ Hsh0) as Hsh'.
  destruct (is_stop host _); [exact Hsh'|]. apply IH. exact Hsh'.
Qed.

Lemma load_passes_shape lib image ct pa me w h np n pass rows fop :
  (exists image', seq_image fop = Some image' /\ same_shape image image') ->
  exists image',
    seq_image (loop_fop (load_passes host lib ct pa me w h np n pass rows fop))
    = Some image' /\ same_shape image image'.
Proof.
  revert pass rows fop. induction n as [|n IH]; intros pass rows fop Hsh; simpl;
    [exact Hsh|].
  pose proof (load_rows_shape lib image ct pa me w h np pass h 0 rows fop Hsh) as H.
  destruct (load_rows _ _ _ _ _ _ _ _ _ _ _ _ _) as [rows' fop'|fop'|flt fop'];
    simpl in H; [|exact H|exact H].
  apply IH, H.
Qed.

(** X5: once the image is allocated, every way out of [onLoad] (complete,
    cancelled, failed) leaves in [fop->seq.image] that image with its
    identity, format, size and number of rows; only the contents of rows
    change. *)
Theorem load_keeps_image_shape lib png fop image :
  opens lib png ->
  supported_color_type (png_color_type png) ->
  sequence_image host (format_of (png_color_type png)) (png_width png)
                 (png_height png) = Some image ->
  exists image',
    seq_image (snd (onLoad host lib fop)) = Some image' /\
    same_shape image image'.
Proof.
  intros Hopen Hs Himg.
  pose proof (select_format_of _ (png_read_header lib fop) Hs) as Hsel.
  set (fop1 := if has_alpha_channel (png_color_type png)
               then set_has_alpha true (png_read_header lib fop)
               else png_read_header lib fop) in *.
  destruct (load_palette_block png
              (snd (fop_sequence_image host (format_of (png_color_type png))
                      (png_width png) (png_height png) fop1)))
    as [[pa fop3]|] eqn:Hblock.
  - destruct (onLoad_rows host lib png fop _ fop1 image pa fop3 Hopen Hsel Himg
                Hblock) as (-> & _).
    assert (Hsh : exists image', seq_image fop3 = Some image'
                                 /\ same_shape image image').
    { exists image. split; [|apply same_shape_refl].
      destruct (palette_block_frame _ _ _ _ Hblock) as (-> & _).
      unfold fop_sequence_image. rewrite Himg. reflexivity. }
    pose proof (load_passes_shape lib image (png_color_type png) pa
                  (transparentColor (sprite fop3)) (png_width png)
                  (png_height png) (png_set_interlace_handling png)
                  (png_set_interlace_handling png) 0 (png_rows png) fop3 Hsh)
      as H.
    destruct (load_passes _ _ _ _ _ _ _ _ _ _ _ _); exact H.
  - destruct Hopen as (Hc & Hi & Hr). unfold onLoad.
    rewrite Hc, Hi, Hr. simpl. rewrite Hsel.
    unfold fop_sequence_image in *. rewrite Himg in *. simpl in Hblock.
    rewrite Hblock. simpl. exists image. split; [reflexivity|].
    apply same_shape_refl.
Qed.

(** The sprite and the alpha flag after [onLoad], on every path: as the
    [switch] left them, or, for a palette image, with a transparent colour
    set and the flag raised. *)
Lemma onLoad_paths lib png fop f fop1 :
  opens lib png ->
  select_format (png_color_type png) (png_read_header lib fop)
  = Some (f, fop1) ->
  (sprite (snd (onLoad host lib fop)) = sprite fop /\
   seq_has_alpha (snd (onLoad host lib fop)) = seq_has_alpha fop1 /\
   (png_color_type png <> PNG_COLOR_TYPE_PALETTE ->
    seq_palette (snd (onLoad host lib fop)) = seq_palette fop)) \/
  (png_color_type png = PNG_COLOR_TYPE_PALETTE /\
   exists k, sprite (snd (onLoad host lib fop))
             = setTransparentColor k (sprite fop) /\
             seq_has_alpha (snd (onLoad host lib fop)) = true).
Proof.
  intros Hopen Hsel.
  destruct (select_format_only _ _ _ _ Hsel) as (Hsp1 & _).
  rewrite png_read_header_logged in Hsp1. simpl in Hsp1.
  assert (Hpal1 : seq_palette fop1 = seq_palette fop).
  { revert Hsel. unfold select_format.
    repeat match goal with
           | |- context [if ?b then _ else _] => destruct b
           end; intros [= <- <-] || discriminate; calls; reflexivity. }
  destruct (sequence_image host f (png_width png) (png_height png))
    as [image|] eqn:Himg.
  - destruct (load_palette_block png
                (snd (fop_sequence_image host f (png_width png)
                        (png_height png) fop1))) as [[pa fop3]|] eqn:Hblock.
    + destruct (onLoad_rows host lib png fop f fop1 image pa fop3 Hopen Hsel
                  Himg Hblock) as (Heq & Hsp & Hal & _).
      assert (Hpal : seq_palette (snd (onLoad host lib fop)) = seq_palette fop3).
      { rewrite Heq.
        pose proof (load_passes_kept host lib (png_color_type png) pa
                      (transparentColor (sprite fop3)) (png_width png)
                      (png_height png) (png_set_interlace_handling png)
                      (png_set_interlace_handling png) 0 (png_rows png) fop3)
          as (_ & Hk & _).
        destruct (load_passes _ _ _ _ _ _ _ _ _ _ _ _); exact Hk. }
      rewrite Hsp, Hal, Hpal.
      unfold fop_sequence_image in Hblock. rewrite Himg in Hblock.
      simpl in Hblock.
      destruct (Z.eq_dec (png_color_type png) PNG_COLOR_TYPE_PALETTE)
        as [Hct|Hct].
      * destruct (palette_block_cases _ _ _ _ Hblock)
          as [->|[[p ->]|(p & k & ->)]]; simpl.
        -- left. repeat split; [exact Hsp1|contradiction].
        -- left. repeat split; [exact Hsp1|contradiction].
        -- right. split; [exact Hct|]. exists k. rewrite Hsp1. auto.
      * rewrite palette_block_skip in Hblock by auto.
        injection Hblock as _ <-. simpl. left. auto.
    + destruct Hopen as (Hc & Hi & Hr). unfold onLoad.
      rewrite Hc, Hi, Hr. simpl. rewrite Hsel.
      unfold fop_sequence_image in *. rewrite Himg in *. simpl in Hblock.
      rewrite Hblock. simpl. left. auto.
  - destruct Hopen as (Hc & Hi & Hr). unfold onLoad.
    rewrite Hc, Hi, Hr. simpl. rewrite Hsel.
    unfold fop_sequence_image. rewrite Himg. simpl. left. auto.
Qed.

(** X6: [onLoad] never touches the sprite beyond its transparent colour:
    the alpha need, the background layer and the image registry are as
    before on every path. *)
Theorem load_touches_only_mask_index lib fop :
  needAlpha (sprite (snd (onLoad host lib fop))) = needAlpha (sprite fop) /\
  backgroundLayer (sprite (snd (onLoad host lib fop)))
  = backgroundLayer (sprite fop) /\
  images (sprite (snd (onLoad host lib fop))) = images (sprite fop).
Proof.
  destruct (create_struct lib) eqn:Hc;
    [|unfold onLoad; rewrite Hc; calls; solve [auto]].
  destruct (create_info_struct lib) eqn:Hi;
    [|unfold onLoad; rewrite Hc, Hi; calls; solve [auto]].
  destruct (read_info lib) as [png|] eqn:Hr;
    [|unfold onLoad; rewrite Hc, Hi, Hr; calls; solve [auto]].
  destruct (select_format (png_color_type png) (png_read_header lib fop))
    as [[f fop1]|] eqn:Hsel;
    [|unfold onLoad; rewrite Hc, Hi, Hr; simpl; rewrite Hsel; calls;
      solve [auto]].
  destruct (onLoad_paths lib png fop f fop1) as [(-> & _)|(_ & k & -> & _)];
    [repeat split; assumption|assumption|auto|auto].
Qed.

(** X7: a file whose colour type is not the palette type leaves the whole
    sprite and the palette as they were; with an alpha channel the alpha
    flag is raised as soon as the header is read, even when the load fails
    afterwards, and without it the flag is not touched. *)
Theorem load_without_palette lib png fop :
  opens lib png ->
  supported_color_type (png_color_type png) ->
  png_color_type png <> PNG_COLOR_TYPE_PALETTE ->
  sprite (snd (onLoad host lib fop)) = sprite fop /\
  seq_palette (snd (onLoad host lib fop)) = seq_palette fop /\
  seq_has_alpha (snd (onLoad host lib fop))
  = (has_alpha_channel (png_color_type png) || seq_has_alpha fop).
Proof.
  intros Hopen Hs Hct.
  pose proof (select_format_of _ (png_read_header lib fop) Hs) as Hsel.
  destruct (onLoad_paths lib png fop _ _ Hopen Hsel)
    as [(Hsp & Hal & Hpal)|(Hct' & _)]; [|contradiction].
  split; [exact Hsp|]. split; [exact (Hpal Hct)|].
  rewrite Hal.
  destruct (has_alpha_channel (png_color_type png)); calls; reflexivity.
Qed.

End Frames.

Lemma load_keeps_image_shape_witness :
  exists image',
    seq_image (snd (onLoad (samples.host_cancel_at 0) (reopen short_png)
                           samples.fop5)) = Some image' /\
    same_shape (samples.blank IMAGE_GRAYSCALE 2 2) image'.
Proof.
  apply (load_keeps_image_shape (samples.host_cancel_at 0)
           (reopen short_png) short_png samples.fop5
           (samples.blank IMAGE_GRAYSCALE 2 2)).
  - repeat split.
  - right. right. left. reflexivity.
  - reflexivity.
Defined.

Lemma load_without_palette_witness :
  sprite (snd (onLoad samples.host_run (reopen short_png) samples.fop5))
  = samples.sprite5 /\
  seq_palette (snd (onLoad samples.host_run (reopen short_png) samples.fop5))
  = replicate 256 (0, 0, 0)%Z /\
  seq_has_alpha (snd (onLoad samples.host_run (reopen short_png) samples.fop5))
  = false.
Proof.
  apply (load_without_palette samples.host_run (reopen short_png) short_png
           samples.fop5).
  - repeat split.
  - right. right. left. reflexivity.
  - discriminate.
Defined.

(** ** The palette *)

Section Palette.
#[local] Arguments replicate : simpl never.

Lemma set_seq_palette_same fop : set_seq_palette (seq_palette fop) fop = fop.
Proof. destruct fop; reflexivity. Qed.

Lemma load_palette_run palette c fop :
  load_palette palette c fop
  = set_seq_palette (list_inserts c palette (seq_palette fop)) fop.
Proof.
  revert c fop. induction palette as [|[[r g] b] palette IH]; intros c fop; simpl.
  - symmetry. apply set_seq_palette_same.
  - rewrite IH. simpl. rewrite list_insert_inserts_lt by lia. reflexivity.
Qed.

Lemma fill_palette_run n c fop :
  fill_palette n c fop
  = set_seq_palette (list_inserts c (replicate n black) (seq_palette fop)) fop.
Proof.
  revert c fop. induction n as [|n IH]; intros c fop; simpl.
  - symmetry. apply set_seq_palette_same.
  - rewrite IH. simpl. rewrite list_insert_inserts_lt by lia. reflexivity.
Qed.

(** Writing the PLTE entries and then black up to entry 255 over a palette
    of 256 entries. *)
Lemma palette_filled (palette l : list png_color) :
  (length palette <= 256)%nat -> length l = 256%nat ->
  list_inserts (length palette)
               (replicate (256 - length palette) black)
               (list_inserts 0 palette l)
  = palette ++ replicate (256 - length palette) black.
Proof.
  intros Hp Hl.
  rewrite <- (take_drop (length palette) l) at 1.
  rewrite list_inserts_0_r by (rewrite length_take; lia).
  rewrite <- (Nat.add_0_r (length palette)) at 1.
  rewrite list_inserts_app_r. f_equal.
  apply list_inserts_all. rewrite length_replicate, length_drop. lia.
Qed.

Lemma palette_block_palette png palette fop pa fop' :
  png_color_type png = PNG_COLOR_TYPE_PALETTE ->
  png_PLTE png = Some palette ->
  load_palette_block png fop = Some (pa, fop') ->
  seq_palette fop'
  = list_inserts (length palette)
                 (replicate (256 - length palette) black)
                 (list_inserts 0 palette (seq_palette fop)).
Proof.
  intros Hct Hpl. unfold load_palette_block. rewrite Hct, Hpl. simpl.
  rewrite load_palette_run, fill_palette_run.
  destruct (load_trans _ _ _ _ _) as [[[pa' me'] fop3]|] eqn:Htr;
    [|discriminate].
  assert (Hp : seq_palette fop3
               = list_inserts (length palette)
                   (replicate (256 - length palette) black)
                   (list_inserts 0 palette (seq_palette fop))).
  { destruct (decide (length (default [] (png_tRNS png)) <= 256)%nat)
      as [Hlen|Hlen].
    - rewrite load_trans_run in Htr by (rewrite length_replicate; lia).
      injection Htr as _ _ <-. unfold flagged.
      destruct (existsb _ _); reflexivity.
    - rewrite load_trans_overflow in Htr
        by (rewrite ?length_replicate; lia). discriminate. }
  destruct (0 <=? me')%Z; intros [= _ <-]; exact Hp.
Qed.

Lemma onLoad_palette_kept host lib png fop f fop1 image pa fop3 :
  opens lib png ->
  select_format (png_color_type png) (png_read_header lib fop)
  = Some (f, fop1) ->
  sequence_image host f (png_width png) (png_height png) = Some image ->
  load_palette_block png
    (snd (fop_sequence_image host f (png_width png) (png_height png) fop1))
  = Some (pa, fop3) ->
  seq_palette (snd (onLoad host lib fop)) = seq_palette fop3.
Proof.
  intros Hopen Hsel Himg Hblock.
  destruct (onLoad_rows host lib png fop f fop1 image pa fop3 Hopen Hsel
              Himg Hblock) as (-> & _).
  pose proof (load_passes_kept host lib (png_color_type png) pa
                (transparentColor (sprite fop3)) (png_width png)
                (png_height png) (png_set_interlace_handling png)
                (png_set_interlace_handling png) 0 (png_rows png) fop3)
    as (_ & Hk & _).
  destruct (load_passes _ _ _ _ _ _ _ _ _ _ _ _); exact Hk.
Qed.

Lemma onLoad_palette host lib png palette image fop :
  opens lib png ->
  png_color_type png = PNG_COLOR_TYPE_PALETTE ->
  png_PLTE png = Some palette ->
  (length palette <= 256)%nat ->
  (length (default [] (png_tRNS png)) <= 256)%nat ->
  sequence_image host IMAGE_INDEXED (png_width png) (png_height png)
  = Some image ->
  length (seq_palette fop) = 256%nat ->
  seq_palette (snd (onLoad host lib fop))
  = palette ++ replicate (256 - length palette) black.
Proof.
  intros Hopen Hct Hpl Hlen Htr Himg Hpal.
  destruct (palette_block_run png palette
              (snd (fop_sequence_image host IMAGE_INDEXED (png_width png)
                      (png_height png) (png_read_header lib fop)))
              Hct Hpl Htr) as [p Hblock].
  assert (Hsel : select_format (png_color_type png) (png_read_header lib fop)
                 = Some (IMAGE_INDEXED, png_read_header lib fop))
    by (rewrite Hct; reflexivity).
  rewrite (onLoad_palette_kept host lib png fop IMAGE_INDEXED _ image _ _
             Hopen Hsel Himg Hblock).
  rewrite (palette_block_palette png palette _ _ _ Hct Hpl Hblock).
  unfold fop_sequence_image. rewrite Himg. calls.
  apply palette_filled; assumption.
Qed.

(** X8: loading a palette image sets the 256 entries of the palette of the
    file operation: the PLTE entries in order, black for the indices the
    chunk does not cover; this holds however the row loops end. *)
Theorem load_palette_entries host lib png palette image fop :
  opens lib png ->
  png_color_type png = PNG_COLOR_TYPE_PALETTE ->
  png_PLTE png = Some palette ->
  (length palette <= 256)%nat ->
  (length (default [] (png_tRNS png)) <= 256)%nat ->
  sequence_image host IMAGE_INDEXED (png_width png) (png_height png)
  = Some image ->
  length (seq_palette fop) = 256%nat ->
  seq_palette (snd (onLoad host lib fop))
  = palette ++ replicate (256 - length palette) (0, 0, 0)%Z.
Proof. exact (onLoad_palette host lib png palette image fop). Qed.

Lemma load_palette_entries_witness :
  seq_palette (snd (onLoad samples.host_cancel (reopen samples.indexed_png)
                           samples.fop5))
  = samples.colors ++ replicate 250 (0, 0, 0)%Z.
Proof.
  apply (load_palette_entries samples.host_cancel (reopen samples.indexed_png)
           samples.indexed_png samples.colors
           (samples.blank IMAGE_INDEXED 3 2) samples.fop5).
  - repeat split.
  - reflexivity.
  - reflexivity.
  - simpl. lia.
  - simpl. lia.
  - reflexivity.
  - reflexivity.
Defined.

End Palette.

(** ** What onSave writes *)

Section Encode.
#[local] Arguments replicate : simpl never.

Lemma take_reports k h :
  (k <= h)%nat ->
  (fun i => mkProgress 0 (i + 1) h 1) <$> seq 0 k
  = take k (pass_reports 0 h 1).
Proof.
  intros Hk. unfold pass_reports. rewrite <- fmap_take, take_seq.
  rewrite Nat.min_l by exact Hk. reflexivity.
Qed.

(** The row loop of [onSave], whatever libpng does: it reports the rows
    that libpng took, adds the texts of libpng to the messages and touches
    nothing else; all rows are reported when it ends normally. *)
Lemma save_rows_state lib image ct w h n y fop :
  exists k texts,
    (k <= n)%nat /\
    (is_Some (save_rows lib image ct w h n y fop).1 -> k = n) /\
    (save_rows lib image ct w h n y fop).2
    = mkFileOp (sprite fop) (seq_palette fop) (seq_image fop)
               (seq_has_alpha fop)
               (errors fop ++ (String.append "libpng: " <$> texts))
               (progress fop
                ++ ((fun i => mkProgress 0 (i + 1) h 1) <$> seq y k))
               (image_requests fop) (stop_polls fop).
Proof.
  revert y fop. induction n as [|n IH]; intros y fop; simpl.
  - exists 0%nat, []. simpl. rewrite !app_nil_r.
    split; [lia|]. split; [reflexivity|]. destruct fop; reflexivity.
  - rewrite png_call_logged. destruct (write_fails lib (WriteRow y)).
    + exists 0%nat, (callbacks lib (WriteRow y)). simpl. rewrite app_nil_r.
      split; [lia|]. split; [|reflexivity].
      intros [rows Hrows]. discriminate Hrows.
    + destruct (IH (S y)
                  (fop_progress (mkProgress 0 (y + 1) h 1)
                     (logged (String.append "libpng: "
                                <$> callbacks lib (WriteRow y)) fop)))
        as (k & texts & Hk & Hall & Hstate).
      destruct (save_rows lib image ct w h n (S y) _) as [rows fop3].
      simpl in *. exists (S k), (callbacks lib (WriteRow y) ++ texts).
      split; [lia|]. split.
      * intros Hsome. f_equal. apply Hall.
        destruct rows; [eauto|]. destruct Hsome as [? Hsome].
        discriminate Hsome.
      * rewrite Hstate, fmap_app, <- !app_assoc. reflexivity.
Qed.

(** The file operation after [onSave], on every path. *)
Lemma onSave_state lib fop :
  exists k texts,
    (onSave lib fop).1.2
    = mkFileOp (sprite fop) (seq_palette fop) (seq_image fop)
               (seq_has_alpha fop)
               (errors fop ++ (String.append "libpng: " <$> texts))
               (progress fop
                ++ take k (pass_reports 0
                             (from_option height 0%nat (seq_image fop)) 1))
               (image_requests fop) (stop_polls fop) /\
    forall png,
      (onSave lib fop).2 = Some png ->
      take k (pass_reports 0 (from_option height 0%nat (seq_image fop)) 1)
      = pass_reports 0 (png_height png) 1.
Proof.
  assert (Hstay : forall texts f,
             f = logged (String.append "libpng: " <$> texts) fop ->
             f = mkFileOp (sprite fop) (seq_palette fop) (seq_image fop)
                   (seq_has_alpha fop)
                   (errors fop ++ (String.append "libpng: " <$> texts))
                   (progress fop
                    ++ take 0 (pass_reports 0
                                 (from_option height 0%nat (seq_image fop)) 1))
                   (image_requests fop) (stop_polls fop)).
  { intros texts f ->. simpl. rewrite app_nil_r. reflexivity. }
  unfold onSave. rewrite (png_call_logged lib CreateStruct).
  set (fop0 := logged _ fop).
  destruct (create_struct lib); simpl;
    [|exists 0%nat; eexists; split; [apply Hstay; reflexivity|discriminate]].
  destruct (create_info_struct lib); simpl;
    [|exists 0%nat; eexists; split; [apply Hstay; reflexivity|discriminate]].
  destruct (seq_image fop) as [image|] eqn:Himg; simpl;
    [|exists 0%nat; eexists; split; [apply Hstay; reflexivity|discriminate]].
  match goal with
  | |- context [if ?b then (Undefined TransSize, _, _) else _] => destruct b
  end; [exists 0%nat; eexists; split; [apply Hstay; reflexivity|discriminate]|].
  rewrite (png_call_logged lib WriteInfo). subst fop0.
  rewrite logged_logged, <- fmap_app.
  destruct (write_fails lib WriteInfo);
    [exists 0%nat; eexists; split; [apply Hstay; reflexivity|discriminate]|].
  match goal with
  | |- context [save_rows lib image ?ct ?w ?h ?n ?y ?f] =>
      destruct (save_rows_state lib image ct w h n y f)
        as (k & texts & Hk & Hall & Hstate);
      destruct (save_rows lib image ct w h n y f) as [[rows|] fop2]
  end; simpl in *.
  - rewrite (png_call_logged lib WriteEnd), Hstate.
    rewrite (Hall ltac:(eauto)),
      (take_reports (height image) (height image)) by lia.
    unfold logged. simpl. rewrite <- !app_assoc, <- !fmap_app, Himg.
    destruct (write_fails lib WriteEnd); simpl.
    + eexists _, _. split; [reflexivity|discriminate].
    + eexists _, _. split; [reflexivity|].
      intros png [= <-]. simpl. apply take_ge.
      unfold pass_reports. rewrite length_fmap, length_seq. lia.
  - rewrite Hstate, (take_reports k (height image)) by exact Hk.
    rewrite <- !app_assoc, <- !fmap_app, Himg.
    eexists _, _. split; [reflexivity|discriminate].
Qed.

(** X9: [onSave] only reads the document: the sprite, the palette, the
    image and the alpha flag of the file operation are as before, no image
    is asked for and the cancellation flag is never polled.  Progress is
    reported for the rows that libpng took, as (y+1)/height, in order: for
    all of them, once per row, when a file is written. *)
Theorem save_is_read_only lib fop :
  sprite (onSave lib fop).1.2 = sprite fop /\
  seq_palette (onSave lib fop).1.2 = seq_palette fop /\
  seq_image (onSave lib fop).1.2 = seq_image fop /\
  seq_has_alpha (onSave lib fop).1.2 = seq_has_alpha fop /\
  image_requests (onSave lib fop).1.2 = image_requests fop /\
  stop_polls (onSave lib fop).1.2 = stop_polls fop /\
  (exists k,
      progress (onSave lib fop).1.2
      = progress fop
        ++ take k (pass_reports 0 (from_option height 0%nat (seq_image fop))
                                1)) /\
  (forall png,
      (onSave lib fop).2 = Some png ->
      progress (onSave lib fop).1.2
      = progress fop ++ pass_reports 0 (png_height png) 1).
Proof.
  destruct (onSave_state lib fop) as (k & texts & -> & Hfile). simpl.
  repeat (split; [reflexivity|]). split; [eauto|].
  intros png Hpng. rewrite (Hfile png Hpng). reflexivity.
Qed.

Lemma save_is_read_only_witness :
  exists png,
    (onSave samples.lib_ok
       (samples.with_image samples.rgb_image samples.sprite5)).2 = Some png /\
    progress (onSave samples.lib_ok
                (samples.with_image samples.rgb_image samples.sprite5)).1.2
    = [] ++ pass_reports 0 (png_height png) 1.
Proof.
  destruct (save_is_read_only samples.lib_ok
              (samples.with_image samples.rgb_image samples.sprite5))
    as (_ & _ & _ & _ & _ & _ & _ & Hfile).
  eexists. split; [reflexivity|]. apply Hfile. reflexivity.
Defined.

Lemma save_rgb_alpha_shape row :
  length (save_rgb_alpha (length row) row) = (4 * length row)%nat /\
  Forall is_byte (save_rgb_alpha (length row) row).
Proof.
  induction row as [|c row [IHl IHb]]; simpl; [split; [reflexivity|constructor]|].
  split; [lia|]. repeat (constructor; [apply sample_range|]). exact IHb.
Qed.

Lemma save_rgb_shape row :
  length (save_rgb (length row) row) = (3 * length row)%nat /\
  Forall is_byte (save_rgb (length row) row).
Proof.
  induction row as [|c row [IHl IHb]]; simpl; [split; [reflexivity|constructor]|].
  split; [lia|]. repeat (constructor; [apply sample_range|]). exact IHb.
Qed.

Lemma save_gray_alpha_shape row :
  length (save_gray_alpha (length row) row) = (2 * length row)%nat /\
  Forall is_byte (save_gray_alpha (length row) row).
Proof.
  induction row as [|c row [IHl IHb]]; simpl; [split; [reflexivity|constructor]|].
  split; [lia|]. repeat (constructor; [apply sample_range|]). exact IHb.
Qed.

Lemma save_gray_shape row :
  length (save_gray (length row) row) = (1 * length row)%nat /\
  Forall is_byte (save_gray (length row) row).
Proof.
  induction row as [|c row [IHl IHb]]; simpl; [split; [reflexivity|constructor]|].
  split; [lia|]. repeat (constructor; [apply sample_range|]). exact IHb.
Qed.

Lemma save_indexed_same row : save_indexed (length row) row = row.
Proof. induction row as [|c row IH]; simpl; [reflexivity|]. rewrite IH. reflexivity. Qed.

Lemma save_color_type_cases image s :
  (pixelFormat image = IMAGE_RGB /\ needAlpha s = true /\
   save_color_type image s = PNG_COLOR_TYPE_RGB_ALPHA) \/
  (pixelFormat image = IMAGE_RGB /\ needAlpha s = false /\
   save_color_type image s = PNG_COLOR_TYPE_RGB) \/
  (pixelFormat image = IMAGE_GRAYSCALE /\ needAlpha s = true /\
   save_color_type image s = PNG_COLOR_TYPE_GRAY_ALPHA) \/
  (pixelFormat image = IMAGE_GRAYSCALE /\ needAlpha s = false /\
   save_color_type image s = PNG_COLOR_TYPE_GRAY) \/
  (pixelFormat image = IMAGE_INDEXED /\
   save_color_type image s = PNG_COLOR_TYPE_PALETTE).
Proof.
  unfold save_color_type. destruct (pixelFormat image), (needAlpha s); auto 10.
Qed.

(** The rows written for a well-formed image: bytes, [channels * width] of
    them per row. *)
Lemma saved_rows_shape image s :
  wf_image image ->
  Forall (fun r => length r
                   = (channels (save_color_type image s) * width image)%nat /\
                   Forall is_byte r)
         (save_row (save_color_type image s) (width image) <$> pixels image).
Proof.
  intros [_ Hrows]. apply Forall_fmap.
  eapply Forall_impl; [exact Hrows|]. intros row [<- Hpx]. simpl.
  destruct (save_color_type_cases image s)
    as [(Hf&_&->)|[(Hf&_&->)|[(Hf&_&->)|[(Hf&_&->)|(Hf&->)]]]].
  - apply save_rgb_alpha_shape.
  - apply save_rgb_shape.
  - apply save_gray_alpha_shape.
  - apply save_gray_shape.
  - unfold save_row. simpl. rewrite save_indexed_same.
    split; [simpl; lia|]. rewrite Hf in Hpx. exact Hpx.
Qed.

(** The file that [onSave] writes when libpng gets through all its calls,
    field by field. *)
Lemma onSave_file lib fop image :
  seq_image fop = Some image ->
  create_struct lib = true -> create_info_struct lib = true ->
  completes lib ->
  (pixelFormat image = IMAGE_INDEXED ->
   (0 <= transparentColor (sprite fop))%Z) ->
  length (pixels image) = height image ->
  exists fop' png,
    onSave lib fop = (Returned true, fop', Some png) /\
    png_width png = width image /\ png_height png = height image /\
    png_bit_depth png = 8%Z /\
    png_interlace_type png = PNG_INTERLACE_NONE /\
    png_color_type png = save_color_type image (sprite fop) /\
    png_PLTE png
    = match pixelFormat image with
      | IMAGE_INDEXED => Some (save_palette fop)
      | _ => None
      end /\
    png_tRNS png
    = match pixelFormat image with
      | IMAGE_INDEXED =>
          if backgroundLayer (sprite fop) then None
          else Some (save_trans (transparentColor (sprite fop)))
      | _ => None
      end /\
    png_rows png
    = save_row (save_color_type image (sprite fop)) (width image)
        <$> pixels image.
Proof.
  intros Himg Hs Hi Hok Hm Hlen.
  destruct (onSave_run lib fop image Himg Hs Hi Hok Hm) as [fop' Hsave].
  rewrite (saved_rows image _ Hlen) in Hsave.
  eexists fop', _. split; [exact Hsave|]. simpl. auto 10.
Qed.

Lemma save_trans_short m :
  (m < 256)%Z -> (length (save_trans m) <= 256)%nat.
Proof. intros Hm. rewrite save_trans_length. lia. Qed.

Lemma onSave_well_formed lib fop image :
  seq_image fop = Some image ->
  wf_image image ->
  create_struct lib = true -> create_info_struct lib = true ->
  completes lib ->
  (0 <= transparentColor (sprite fop) < 256)%Z ->
  exists fop' png,
    onSave lib fop = (Returned true, fop', Some png) /\
    png_width png = width image /\ png_height png = height image /\
    png_bit_depth png = 8%Z /\
    png_interlace_type png = PNG_INTERLACE_NONE /\
    supported_color_type (png_color_type png) /\
    format_of (png_color_type png) = pixelFormat image /\
    length (png_rows png) = height image /\
    Forall (fun r => length r
                     = (channels (png_color_type png) * width image)%nat /\
                     Forall is_byte r) (png_rows png) /\
    well_read png.
Proof.
  intros Himg Hwf Hs Hi Hok Hm.
  destruct (onSave_file lib fop image Himg Hs Hi Hok ltac:(intros _; lia)
              (proj1 Hwf))
    as (fop' & png & Hsave & Hw & Hh & Hb & Hil & Hct & Hpl & Htr & Hrows).
  exists fop', png. split; [exact Hsave|].
  pose proof (saved_rows_shape image (sprite fop) Hwf) as Hshape.
  rewrite <- Hrows, <- Hct in Hshape.
  repeat (split; [assumption|]).
  assert (Hcases := save_color_type_cases image (sprite fop)).
  rewrite <- Hct in Hcases.
  split; [|split; [|split; [|split; [exact Hshape|split]]]].
  - unfold supported_color_type.
    destruct Hcases as [(_&_&->)|[(_&_&->)|[(_&_&->)|[(_&_&->)|(_&->)]]]];
      auto 10.
  - destruct Hcases as [(->&_&->)|[(->&_&->)|[(->&_&->)|[(->&_&->)|(->&->)]]]];
      reflexivity.
  - rewrite Hrows, length_fmap. apply Hwf.
  - intros Hpalette.
    destruct Hcases as [(_&_&E)|[(_&_&E)|[(_&_&E)|[(_&_&E)|(Hf&_)]]]];
      try (rewrite E in Hpalette; discriminate).
    rewrite Hpl, Htr, Hf. split; [eauto|].
    destruct (backgroundLayer (sprite fop)); simpl; [lia|].
    apply save_trans_short, Hm.
  - eapply Forall_impl; [exact Hshape|]. intros r [_ Hr]. exact Hr.
Qed.

(** X10: for a well-formed image and a mask index in 0..255, a save that
    libpng gets through writes a file that [onLoad] accepts: 8 bits, not
    interlaced, a supported colour type that stands for the format of the
    image, one row of [channels * width] bytes per image row, and for an
    indexed image a PLTE chunk and at most 256 tRNS entries. *)
Theorem saved_file_well_formed lib fop image :
  seq_image fop = Some image ->
  wf_image image ->
  create_struct lib = true -> create_info_struct lib = true ->
  completes lib ->
  (0 <= transparentColor (sprite fop) < 256)%Z ->
  exists fop' png,
    onSave lib fop = (Returned true, fop', Some png) /\
    png_width png = width image /\ png_height png = height image /\
    png_bit_depth png = 8%Z /\
    png_interlace_type png = PNG_INTERLACE_NONE /\
    supported_color_type (png_color_type png) /\
    format_of (png_color_type png) = pixelFormat image /\
    length (png_rows png) = height image /\
    Forall (fun r => length r
                     = (channels (png_color_type png) * width image)%nat /\
                     Forall is_byte r) (png_rows png) /\
    well_read png.
Proof. exact (onSave_well_formed lib fop image). Qed.

Lemma saved_file_well_formed_witness :
  exists fop' png,
    onSave samples.lib_ok (samples.with_image samples.rgb_image samples.sprite5)
    = (Returned true, fop', Some png) /\
    png_width png = 2%nat /\ png_height png = 2%nat /\
    png_bit_depth png = 8%Z /\
    png_interlace_type png = PNG_INTERLACE_NONE /\
    supported_color_type (png_color_type png) /\
    format_of (png_color_type png) = IMAGE_RGB /\
    length (png_rows png) = 2%nat /\
    Forall (fun r => length r = (channels (png_color_type png) * 2)%nat /\
                     Forall is_byte r) (png_rows png) /\
    well_read png.
Proof.
  apply (saved_file_well_formed samples.lib_ok
           (samples.with_image samples.rgb_image samples.sprite5)
           samples.rgb_image).
  - reflexivity.
  - split; [reflexivity|].
    repeat (constructor; [split; [reflexivity|]|]); repeat constructor;
      unfold is_pixel; simpl; lia.
  - reflexivity.
  - reflexivity.
  - intros call. reflexivity.
  - simpl. lia.
Defined.

End Encode.

(** ** Further round trips *)

Section RoundTrips.
#[local] Arguments replicate : simpl never.

Lemma load_save_rgb row :
  load_rgb (length row) (save_rgb (length row) row)
  = opaque_pixel IMAGE_RGB <$> row.
Proof.
  induction row as [|c row IH]; simpl; [reflexivity|]. rewrite IH. reflexivity.
Qed.

Lemma load_save_gray row :
  load_gray (length row) (save_gray (length row) row)
  = opaque_pixel IMAGE_GRAYSCALE <$> row.
Proof.
  induction row as [|c row IH]; simpl; [reflexivity|]. rewrite IH. reflexivity.
Qed.

(** Making a pixel opaque changes nothing when its alpha is 255 already. *)
Lemma opaque_pixel_same f c :
  is_pixel f c -> pixel_alpha f c = 255%Z -> opaque_pixel f c = c.
Proof.
  intros Hc Ha. destruct f; simpl in *.
  - rewrite <- Ha at 1. apply rgba_getters, Hc.
  - rewrite <- Ha at 1. apply graya_getters, Hc.
  - reflexivity.
Qed.

Lemma lookups_of_seq {A} (d : A) (l : list A) :
  (fun i => default d (l !! i)) <$> seq 0 (length l) = l.
Proof.
  apply list_eq. intros i. rewrite list_lookup_fmap.
  destruct (decide (i < length l)%nat) as [Hi|Hi].
  - rewrite lookup_seq_lt by lia. simpl.
    destruct (lookup_lt_is_Some_2 l i Hi) as [r ->]. reflexivity.
  - rewrite lookup_seq_ge by lia. simpl.
    rewrite lookup_ge_None_2 by lia. reflexivity.
Qed.

(** A palette of 256 colours is written as it is. *)
Lemma save_palette_same fop :
  length (seq_palette fop) = 256%nat ->
  Forall is_color (seq_palette fop) ->
  save_palette fop = seq_palette fop.
Proof.
  intros Hlen Hcol. unfold save_palette, fop_sequence_get_color.
  change PNG_MAX_PALETTE_LENGTH with 256%nat.
  apply list_eq. intros i. rewrite list_lookup_fmap.
  destruct (decide (i < 256)%nat) as [Hi|Hi].
  - rewrite lookup_seq_lt by lia. simpl.
    destruct (lookup_lt_is_Some_2 (seq_palette fop) i) as [[[r g] b] Hc];
      [lia|].
    unfold png_color in *. rewrite Hc. change (Some (uint8 r, uint8 g, uint8 b) = Some (r, g, b)).
    rewrite Forall_forall in Hcol.
    destruct (Hcol _ (list_elem_of_lookup_2 _ _ _ Hc)) as (Hr & Hg & Hb).
    rewrite !uint8_small by assumption. reflexivity.
  - rewrite lookup_seq_ge by lia. simpl.
    rewrite lookup_ge_None_2 by lia. reflexivity.
Qed.

Lemma is_pixel_indexed c : is_pixel IMAGE_INDEXED c -> is_byte c.
Proof. intros H. exact H. Qed.

(** The alpha of entry [c] in the table that [onSave] writes. *)
Lemma entry_alpha_saved m c :
  (0 <= m)%Z -> (0 <= c)%Z ->
  entry_alpha (save_trans m) c = if decide (c = m) then 0%Z else 255%Z.
Proof.
  intros Hm Hc. unfold entry_alpha.
  destruct (decide (Z.to_nat c <= Z.to_nat m)%nat) as [Hle|Hgt].
  - rewrite save_trans_lookup by lia. simpl.
    destruct (decide (Z.to_nat c = Z.to_nat m)) as [E|E];
      destruct (decide (c = m)) as [E'|E']; try reflexivity; lia.
  - rewrite lookup_ge_None_2 by (rewrite save_trans_length; lia). simpl.
    destruct (decide (c = m)); [lia|reflexivity].
Qed.

(** X11: an RGB or grayscale image saved without alpha, in a save that
    libpng gets through, and loaded again comes back with every pixel made
    opaque (its colour samples kept, its alpha 255); it is the image that
    was saved when that image was opaque already.  The alpha flag of the
    loading side is not touched. *)
Theorem roundtrip_without_alpha host lib fop image fop0 blank :
  seq_image fop = Some image ->
  wf_image image ->
  pixelFormat image = IMAGE_RGB \/ pixelFormat image = IMAGE_GRAYSCALE ->
  needAlpha (sprite fop) = false ->
  create_struct lib = true -> create_info_struct lib = true ->
  completes lib ->
  allocates host (pixelFormat image) (width image) (height image) blank ->
  not_stopped host fop0 (height image) ->
  exists fop1 png fop2 image',
    onSave lib fop = (Returned true, fop1, Some png) /\
    onLoad host (reopen png) fop0 = (Returned true, fop2) /\
    seq_image fop2 = Some image' /\
    pixels image' = opaque_rows (pixelFormat image) (pixels image) /\
    (Forall (Forall (fun c => pixel_alpha (pixelFormat image) c = 255%Z))
            (pixels image) ->
     pixels image' = pixels image) /\
    seq_has_alpha fop2 = seq_has_alpha fop0.
Proof.
  intros Himg [Hlen Hrows] Hfmt Halpha Hs Hi Hok
         (Hblank & Hbf & Hbw & Hbh & Hbl) Hgo.
  destruct (onSave_run lib fop image Himg Hs Hi Hok) as [fop1 Hsave];
    [destruct Hfmt as [-> | ->]; discriminate|].
  rewrite (saved_rows image _ Hlen) in Hsave.
  set (ct := save_color_type image (sprite fop)) in *.
  set (conv := if (ct =? PNG_COLOR_TYPE_RGB)%Z
               then load_rgb (width image)
               else load_gray (width image)).
  assert (Hct : (ct = PNG_COLOR_TYPE_RGB /\ pixelFormat image = IMAGE_RGB)
                \/ (ct = PNG_COLOR_TYPE_GRAY
                    /\ pixelFormat image = IMAGE_GRAYSCALE)).
  { subst ct. unfold save_color_type. rewrite Halpha.
    destruct Hfmt as [-> | ->]; auto. }
  match type of Hsave with
  | _ = (_, _, Some ?p) => set (png := p) in *
  end.
  assert (Hsel : select_format (png_color_type png) fop0
                 = Some (pixelFormat image, fop0)).
  { simpl. destruct Hct as [[-> ->] | [-> ->]]; reflexivity. }
  assert (Hconv : forall r,
             load_row (png_color_type png) (replicate 256 255%Z)
               (transparentColor (sprite fop0)) (png_width png) r
             = Some (Some (conv r))).
  { intros r. subst conv. simpl.
    destruct Hct as [[-> _] | [-> _]]; reflexivity. }
  destruct (onLoad_complete host (reopen png) png fop0 fop0
              (snd (fop_sequence_image host (pixelFormat image)
                      (png_width png) (png_height png) fop0))
              (pixelFormat image) blank (replicate 256 255%Z) conv)
    as (fop2 & Hload & Himg2 & (_ & _ & Hal & _)).
  - repeat split.
  - exact Hsel.
  - exact Hblank.
  - apply palette_block_skip. left. simpl.
    destruct Hct as [[-> _] | [-> _]]; discriminate.
  - simpl. exact Hbl.
  - simpl. rewrite length_fmap. lia.
  - apply Forall_forall. intros r _.
    unfold fop_sequence_image. simpl png_width. simpl png_height.
    rewrite Hblank. apply Hconv.
  - simpl. rewrite Nat.add_0_r. exact Hgo.
  - assert (Hpx : conv <$> (save_row ct (width image) <$> pixels image)
                  = opaque_rows (pixelFormat image) (pixels image)).
    { unfold opaque_rows. rewrite <- list_fmap_compose.
      apply Forall_fmap_ext_1.
      eapply Forall_impl; [exact Hrows|].
      intros row [Hw _]. unfold compose. subst conv. simpl.
      destruct Hct as [[-> ->] | [-> ->]]; simpl; rewrite <- Hw.
      + apply load_save_rgb.
      + apply load_save_gray. }
    exists fop1, png, fop2. eexists. split; [exact Hsave|].
    split; [exact Hload|]. split; [exact Himg2|]. simpl.
    rewrite drop_0, firstn_all2 by (rewrite length_fmap; lia).
    split; [exact Hpx|]. split.
    + intros Hopaque. rewrite Hpx. unfold opaque_rows. apply fmap_fixed.
      apply Forall_forall. intros row Hin.
      rewrite Forall_forall in Hrows, Hopaque.
      destruct (Hrows row Hin) as [_ Hpix]. specialize (Hopaque row Hin).
      apply fmap_fixed. rewrite Forall_forall in *.
      intros c Hc. apply opaque_pixel_same; auto.
    + rewrite Hal. unfold fop_sequence_image. simpl png_width.
      simpl png_height. rewrite Hblank. reflexivity.
Qed.

Lemma roundtrip_without_alpha_witness :
  exists fop1 png fop2 image',
    onSave samples.lib_ok (samples.with_image opaque_rgb_image sprite_opaque)
    = (Returned true, fop1, Some png) /\
    onLoad samples.host_run (reopen png) samples.fop5 = (Returned true, fop2) /\
    seq_image fop2 = Some image' /\
    pixels image' = opaque_rows IMAGE_RGB [[4278190335; 4278255873]]%Z /\
    (Forall (Forall (fun c => pixel_alpha IMAGE_RGB c = 255%Z))
            [[4278190335; 4278255873]]%Z ->
     pixels image' = [[4278190335; 4278255873]]%Z) /\
    seq_has_alpha fop2 = false.
Proof.
  apply (roundtrip_without_alpha samples.host_run samples.lib_ok
           (samples.with_image opaque_rgb_image sprite_opaque)
           opaque_rgb_image samples.fop5 (samples.blank IMAGE_RGB 2 1)).
  - reflexivity.
  - split; [reflexivity|].
    repeat (constructor; [split; [reflexivity|]|]); repeat constructor;
      unfold is_pixel; simpl; lia.
  - left. reflexivity.
  - reflexivity.
  - reflexivity.
  - reflexivity.
  - intros call. reflexivity.
  - repeat split.
  - intros k _. reflexivity.
Defined.

(** A byte is stored as it is when the alpha table is the one [onSave]
    wrote for the mask index [m], or the default one. *)
Lemma indexed_pixel_saved trans m c :
  is_byte c -> (0 <= m < 256)%Z ->
  trans = [] \/ trans = save_trans m ->
  indexed_pixel (list_inserts 0 trans (replicate 256 255%Z)) m c = c.
Proof.
  intros Hc Hm Htrans. unfold indexed_pixel.
  rewrite pal_alphas_lookup.
  - simpl. destruct Htrans as [->| ->].
    + unfold entry_alpha. rewrite lookup_nil. simpl. apply uint8_small, Hc.
    + rewrite entry_alpha_saved by (unfold is_byte in Hc; lia).
      destruct (decide (c = m)) as [->|Hne]; simpl; apply uint8_small;
        assumption.
  - destruct Htrans as [->| ->]; [simpl; lia|apply save_trans_short; lia].
  - exact Hc.
Qed.

(** X12: an indexed image saved, in a save that libpng gets through, and
    loaded again is the image that was saved, pixel for pixel.  When the
    sprite has no background layer the loading sprite gets the mask index
    of the saving one and the alpha flag is raised; with a background layer
    the loading sprite and the flag are not touched. *)
Theorem roundtrip_indexed host lib fop image fop0 blank :
  seq_image fop = Some image ->
  wf_image image ->
  pixelFormat image = IMAGE_INDEXED ->
  create_struct lib = true -> create_info_struct lib = true ->
  completes lib ->
  (0 <= transparentColor (sprite fop) < 256)%Z ->
  allocates host IMAGE_INDEXED (width image) (height image) blank ->
  not_stopped host fop0 (height image) ->
  exists fop1 png fop2 image',
    onSave lib fop = (Returned true, fop1, Some png) /\
    onLoad host (reopen png) fop0 = (Returned true, fop2) /\
    seq_image fop2 = Some image' /\
    pixels image' = pixels image /\
    if backgroundLayer (sprite fop)
    then sprite fop2 = sprite fop0 /\ seq_has_alpha fop2 = seq_has_alpha fop0
    else transparentColor (sprite fop2) = transparentColor (sprite fop) /\
         seq_has_alpha fop2 = true.
Proof.
  intros Himg [Hlen Hrows] Hfmt Hs Hi Hok Hm (Hblank & _ & _ & _ & Hbl) Hgo.
  destruct (onSave_run lib fop image Himg Hs Hi Hok ltac:(intros _; lia))
    as [fop1 Hsave].
  rewrite (saved_rows image _ Hlen) in Hsave.
  unfold save_color_type in Hsave. rewrite Hfmt in Hsave.
  set (m := transparentColor (sprite fop)) in *.
  match type of Hsave with
  | _ = (_, _, Some ?p) => set (png := p) in *
  end.
  set (trans := default [] (png_tRNS png)).
  assert (Hbg1 : backgroundLayer (sprite fop) = true -> trans = []).
  { intros Hbg. unfold trans, png. simpl. rewrite Hbg. reflexivity. }
  assert (Hbg0 : backgroundLayer (sprite fop) = false -> trans = save_trans m).
  { intros Hbg. unfold trans, png. simpl. rewrite Hbg. reflexivity. }
  assert (Htrans : trans = [] \/ trans = save_trans m).
  { destruct (backgroundLayer (sprite fop)); auto. }
  assert (Htlen : (length trans <= 256)%nat).
  { destruct Htrans as [->| ->]; [simpl; lia|apply save_trans_short; lia]. }
  destruct (palette_block_run png (save_palette fop)
              (snd (fop_sequence_image host IMAGE_INDEXED (png_width png)
                      (png_height png) fop0)) eq_refl eq_refl Htlen)
    as [p Hblock].
  fold trans in Hblock.
  match type of Hblock with
  | _ = Some (?a, ?b) => set (pa := a) in *; set (fop3 := b) in *
  end.
  assert (Hpa : length pa = 256%nat)
    by (subst pa; rewrite length_inserts, length_replicate; reflexivity).
  assert (Hme : backgroundLayer (sprite fop) = false ->
                transparentColor (sprite fop3) = m).
  { intros Hbg. subst fop3. rewrite (Hbg0 Hbg).
    rewrite save_trans_first by lia. simpl. lia. }
  assert (Hsame : forall c, is_byte c ->
            indexed_pixel pa (transparentColor (sprite fop3)) c = c).
  { intros c Hc. subst pa.
    destruct (backgroundLayer (sprite fop)) eqn:Hbg.
    - rewrite (Hbg1 eq_refl).
      unfold indexed_pixel. rewrite pal_alphas_lookup by (simpl; lia || exact Hc).
      unfold entry_alpha. rewrite lookup_nil. simpl. apply uint8_small, Hc.
    - rewrite (Hme eq_refl). apply indexed_pixel_saved; assumption. }
  destruct (onLoad_complete host (reopen png) png fop0 fop0 fop3 IMAGE_INDEXED
              blank pa
              (fun r => indexed_pixel pa (transparentColor (sprite fop3))
                          <$> take (png_width png) r))
    as (fop2 & Hload & Himg2 & (Hsp & _ & Hal & _)).
  - repeat split.
  - reflexivity.
  - exact Hblank.
  - exact Hblock.
  - exact Hbl.
  - simpl. rewrite length_fmap. lia.
  - apply Forall_take. simpl png_rows. apply Forall_fmap.
    eapply Forall_impl; [exact Hrows|]. intros row [Hw Hpx]. simpl.
    apply load_row_indexed; [exact Hpa|].
    unfold save_row. simpl. rewrite <- Hw, save_indexed_same.
    rewrite Hfmt in Hpx. exact Hpx.
  - simpl. rewrite Nat.add_0_r. exact Hgo.
  - exists fop1, png, fop2. eexists. split; [exact Hsave|].
    split; [exact Hload|]. split; [exact Himg2|]. simpl. split.
    + rewrite drop_0, firstn_all2 by (rewrite length_fmap; lia).
      rewrite <- list_fmap_compose. apply fmap_fixed.
      eapply Forall_impl; [exact Hrows|].
      intros row [Hw Hpx]. unfold compose, save_row. simpl.
      rewrite <- Hw, save_indexed_same, firstn_all.
      apply fmap_fixed. rewrite Hfmt in Hpx.
      eapply Forall_impl; [exact Hpx|]. intros c Hc. apply Hsame, Hc.
    + rewrite Hsp, Hal.
      destruct (backgroundLayer (sprite fop)) eqn:Hbg.
      * subst fop3. rewrite (Hbg1 eq_refl). simpl.
        unfold fop_sequence_image. rewrite Hblank. auto.
      * split; [apply Hme; reflexivity|].
        subst fop3. rewrite (Hbg0 eq_refl).
        rewrite save_trans_first by lia. reflexivity.
Qed.

Lemma roundtrip_indexed_witness :
  exists fop1 png fop2 image',
    onSave samples.lib_ok (samples.with_image samples.indexed_image sprite_mask2)
    = (Returned true, fop1, Some png) /\
    onLoad samples.host_run (reopen png) samples.fop5 = (Returned true, fop2) /\
    seq_image fop2 = Some image' /\
    pixels image' = [[2; 1]]%Z /\
    transparentColor (sprite fop2) = 2%Z /\
    seq_has_alpha fop2 = true.
Proof.
  apply (roundtrip_indexed samples.host_run samples.lib_ok
           (samples.with_image samples.indexed_image sprite_mask2)
           samples.indexed_image samples.fop5 (samples.blank IMAGE_INDEXED 2 1)).
  - reflexivity.
  - split; [reflexivity|].
    repeat (constructor; [split; [reflexivity|]|]); repeat constructor;
      unfold is_pixel; simpl; lia.
  - reflexivity.
  - reflexivity.
  - reflexivity.
  - intros call. reflexivity.
  - simpl. lia.
  - repeat split.
  - intros k _. reflexivity.
Defined.

(** X13: the palette of an indexed image that was saved, with a mask index
    in 0..255 and in a save that libpng gets through, comes back as it was,
    whatever becomes of the rows when it is loaded: a palette of 256 colours
    is written whole and read whole. *)
Theorem roundtrip_palette host lib fop image fop0 blank :
  seq_image fop = Some image ->
  length (pixels image) = height image ->
  pixelFormat image = IMAGE_INDEXED ->
  create_struct lib = true -> create_info_struct lib = true ->
  completes lib ->
  (0 <= transparentColor (sprite fop) < 256)%Z ->
  length (seq_palette fop) = 256%nat ->
  Forall is_color (seq_palette fop) ->
  length (seq_palette fop0) = 256%nat ->
  sequence_image host IMAGE_INDEXED (width image) (height image) = Some blank ->
  exists fop1 png,
    onSave lib fop = (Returned true, fop1, Some png) /\
    seq_palette (snd (onLoad host (reopen png) fop0)) = seq_palette fop.
Proof.
  intros Himg Hlen Hfmt Hs Hi Hok Hm Hpal Hcol Hpal0 Hblank.
  destruct (onSave_file lib fop image Himg Hs Hi Hok ltac:(intros _; lia)
              Hlen)
    as (fop1 & png & Hsave & Hw & Hh & _ & _ & Hct & Hpl & Htr & _).
  exists fop1, png. split; [exact Hsave|].
  unfold save_color_type in Hct. rewrite Hfmt in Hct, Hpl, Htr.
  rewrite (onLoad_palette host (reopen png) png (save_palette fop) blank fop0).
  - rewrite save_palette_same by assumption.
    rewrite Hpal. simpl. apply app_nil_r.
  - repeat split.
  - exact Hct.
  - exact Hpl.
  - rewrite save_palette_same by assumption. lia.
  - rewrite Htr. destruct (backgroundLayer (sprite fop)); simpl; [lia|].
    apply save_trans_short, Hm.
  - rewrite Hw, Hh. exact Hblank.
  - exact Hpal0.
Qed.

Lemma roundtrip_palette_witness :
  exists fop1 png,
    onSave samples.lib_ok fop_colors = (Returned true, fop1, Some png) /\
    seq_palette (snd (onLoad samples.host_cancel (reopen png) samples.fop5))
    = seq_palette fop_colors.
Proof.
  apply (roundtrip_palette samples.host_cancel samples.lib_ok fop_colors
           samples.indexed_image samples.fop5 (samples.blank IMAGE_INDEXED 2 1)).
  - reflexivity.
  - reflexivity.
  - reflexivity.
  - reflexivity.
  - reflexivity.
  - intros call. reflexivity.
  - simpl. lia.
  - reflexivity.
  - unfold fop_colors. simpl seq_palette.
    do 2 (constructor; [unfold is_color, is_byte; simpl; lia|]).
    apply Forall_replicate. unfold is_color, is_byte. simpl. lia.
  - reflexivity.
  - reflexivity.
Defined.

End RoundTrips.

(** ** A load cancelled from its first poll on *)

Section Stopped.
#[local] Arguments replicate : simpl never.

Lemma last_cons_take {A} (r : A) (l : list A) n :
  last (r :: take n l) = Some (default r (last (take n l))).
Proof.
  destruct (take n l) as [|a t] eqn:E; [reflexivity|].
  rewrite last_cons. destruct (last (a :: t)) eqn:El; [reflexivity|].
  apply last_None in El. discriminate.
Qed.

(** With the flag set at every poll each pass converts one row, into row 0
    of the image, and ends. *)
Lemma load_passes_stopped host lib ct pa me w h np (conv : list Z -> list Z)
    n pass rows fop image :
  (forall k, is_stop host k = true) ->
  (0 < h)%nat -> (n <= length rows)%nat ->
  Forall (fun r => load_row ct pa me w r = Some (Some (conv r))) (take n rows) ->
  seq_image fop = Some image ->
  exists fop',
    load_passes host lib ct pa me w h np n pass rows fop
    = Finished (drop n rows) fop' /\
    seq_image fop'
    = Some (with_pixels image
              (match last (take n rows) with
               | Some r => <[0%nat := conv r]> (pixels image)
               | None => pixels image
               end)) /\
    kept fop fop' /\ stop_polls fop' = (stop_polls fop + n)%nat.
Proof.
  intros Hstop Hh. revert pass rows fop image.
  induction n as [|n IH]; intros pass rows fop image Hlen Hconv Himg.
  - exists fop. simpl. rewrite drop_0, Nat.add_0_r.
    split; [reflexivity|]. split; [|split; [apply kept_refl|reflexivity]].
    rewrite Himg. destruct image; reflexivity.
  - destruct rows as [|r rows]; [simpl in Hlen; lia|]. simpl in Hlen.
    rewrite firstn_cons in Hconv. apply Forall_cons in Hconv as [Hr Hconv].
    destruct h as [|h']; [lia|].
    simpl load_passes. rewrite Hr, png_call_logged. unfold put_row. simpl.
    rewrite Himg. simpl. rewrite Hstop.
    match goal with
    | |- context [load_passes _ _ _ _ _ _ _ _ n (S pass) rows ?f] =>
        destruct (IH (S pass) rows f (putPixels image 0 (conv r)))
          as (fop' & -> & Himg' & Hk & Hp)
    end; [lia|exact Hconv|reflexivity|].
    exists fop'. split; [reflexivity|]. split; [|split].
    + rewrite Himg'. unfold with_pixels, putPixels. simpl.
      rewrite last_cons_take.
      destruct (last (take n rows)); simpl; [|reflexivity].
      rewrite list_insert_insert_eq. reflexivity.
    + destruct Hk as (?&?&?&Hrep&?). repeat split; try assumption.
      eapply reported_trans; [|exact Hrep]. apply reported_logged.
    + rewrite Hp. simpl. lia.
Qed.

(** X14: when the cancellation flag is set from the first poll on, [onLoad]
    still asks libpng for one row in every pass: it polls
    [number_passes] times, converts each of these rows into row 0 of the
    image, which ends as the conversion of the last of them, and returns
    true. *)
Theorem cancelled_from_start host lib png fop image r :
  opens lib png ->
  supported_color_type (png_color_type png) ->
  well_read png ->
  allocates host (format_of (png_color_type png)) (png_width png)
            (png_height png) image ->
  (forall k, is_stop host k = true) ->
  (0 < png_height png)%nat ->
  png_rows png !! (png_set_interlace_handling png - 1)%nat = Some r ->
  exists fop' image',
    onLoad host lib fop = (Returned true, fop') /\
    stop_polls fop' = (stop_polls fop + png_set_interlace_handling png)%nat /\
    seq_image fop' = Some image' /\
    pixels image'
    = <[0%nat := row_pixels (png_color_type png) (file_alphas png)
                            (transparentColor (sprite fop')) (png_width png) r]>
        (pixels image).
Proof.
  intros Hopen Hs Hwell (Himg & _) Hstop Hh Hr.
  destruct (onLoad_setup host lib png fop image Hopen Hs Hwell Himg)
    as (fop1 & pa & fop3 & Hsel & Hblock & Hconv & Himg3 & _ & _ & Hpolls).
  destruct (onLoad_rows host lib png fop _ fop1 image pa fop3 Hopen Hsel Himg
              Hblock) as (-> & _).
  assert (Hnp : (0 < png_set_interlace_handling png)%nat).
  { unfold png_set_interlace_handling.
    destruct (png_interlace_type png =? PNG_INTERLACE_NONE)%Z; lia. }
  pose proof (lookup_lt_Some _ _ _ Hr) as Hlt.
  destruct (load_passes_stopped host lib (png_color_type png) pa
              (transparentColor (sprite fop3)) (png_width png) (png_height png)
              (png_set_interlace_handling png)
              (row_pixels (png_color_type png) (file_alphas png)
                          (transparentColor (sprite fop3)) (png_width png))
              (png_set_interlace_handling png) 0 (png_rows png) fop3 image)
    as (fop' & -> & Himg' & (Hsp & _) & Hp);
    [exact Hstop|exact Hh|lia| |exact Himg3|].
  - apply Forall_take, byte_rows_convert; [exact Hconv|apply Hwell].
  - exists fop'. eexists. split; [reflexivity|].
    split; [rewrite Hp, Hpolls; reflexivity|]. split; [exact Himg'|]. simpl.
    rewrite Hsp.
    replace (png_set_interlace_handling png)
      with (S (png_set_interlace_handling png - 1)) at 1 by lia.
    rewrite (take_S_r _ _ _ Hr), last_snoc. reflexivity.
Qed.

Lemma cancelled_from_start_witness :
  exists fop' image',
    onLoad samples.host_cancel (reopen samples.interlaced_png) samples.fop5
    = (Returned true, fop') /\
    stop_polls fop' = 7%nat /\
    seq_image fop' = Some image' /\
    pixels image'
    = <[0%nat := row_pixels PNG_COLOR_TYPE_GRAY
                            (file_alphas samples.interlaced_png)
                            (transparentColor (sprite fop')) 1 [40%Z]]>
        [[0]; [0]]%Z.
Proof.
  apply (cancelled_from_start samples.host_cancel
           (reopen samples.interlaced_png) samples.interlaced_png samples.fop5
           (samples.blank IMAGE_GRAYSCALE 1 2) [40%Z]).
  - repeat split.
  - right. right. left. reflexivity.
  - split; [discriminate|].
    unfold byte_rows, is_byte. simpl.
    repeat (constructor; [repeat (constructor; [lia|]); constructor|]).
    constructor.
  - repeat split.
  - intros k. reflexivity.
  - simpl. lia.
  - reflexivity.
Defined.

End Stopped.

(** ** ReplaceImage: inverses, order and frame *)

Section ReplaceMore.
Import ReplaceImage.

Ltac registry :=
  apply map_eq; intros ?;
  repeat (rewrite lookup_insert || rewrite lookup_delete);
  repeat case_decide; subst; congruence.

Lemma replaceImage_lookup cur newImage s old i :
  images s !! cur = Some old ->
  getImageRef i (replaceImage cur newImage s)
  = if decide (id newImage = i) then Some newImage
    else if decide (cur = i) then None else getImageRef i s.
Proof.
  intros H. unfold getImageRef. rewrite (replaceImage_bound _ _ _ old H).
  rewrite lookup_insert. case_decide; [reflexivity|].
  rewrite lookup_delete. reflexivity.
Qed.

Lemma replaceImage_sprite cur newImage s imgs :
  images (replaceImage cur newImage s) = imgs ->
  replaceImage cur newImage s
  = mkSprite (transparentColor s) (needAlpha s) (backgroundLayer s) imgs.
Proof.
  intros <-. apply sprite_ext; simpl; try reflexivity;
    apply replaceImage_fields.
Qed.

Lemma sprite_eta s :
  mkSprite (transparentColor s) (needAlpha s) (backgroundLayer s) (images s) = s.
Proof. destruct s; reflexivity. Qed.

Lemma setId_fields i image :
  id (setId i image) = i /\ pixelFormat (setId i image) = pixelFormat image /\
  width (setId i image) = width image /\ height (setId i image) = height image /\
  pixels (setId i image) = pixels image.
Proof. repeat split. Qed.

(** Undo and then redo, from any sprite where the new identity is bound
    and the old one is not. *)
Lemma onUndo_onRedo cmd s newImage copy :
  m_oldImageId cmd <> m_newImageId cmd ->
  getImageRef (m_newImageId cmd) s = Some newImage ->
  id newImage = m_newImageId cmd ->
  getImageRef (m_oldImageId cmd) s = None ->
  m_copy cmd = Some copy ->
  exists s1,
    onUndo cmd s
    = Some (mkCmd (m_oldImageId cmd) (m_newImageId cmd) (m_newImage cmd)
                  (Some (createCopy newImage)), s1) /\
    getImageRef (m_oldImageId cmd) s1 = Some (setId (m_oldImageId cmd) copy) /\
    getImageRef (m_newImageId cmd) s1 = None /\
    onRedo (mkCmd (m_oldImageId cmd) (m_newImageId cmd) (m_newImage cmd)
                  (Some (createCopy newImage))) s1
    = Some (mkCmd (m_oldImageId cmd) (m_newImageId cmd) (m_newImage cmd)
                  (Some (createCopy (setId (m_oldImageId cmd) copy))), s).
Proof.
  intros Hne Hnew Hid Hold Hcopy.
  rewrite (onUndo_run cmd s newImage copy Hnew Hold Hcopy).
  eexists. split; [reflexivity|].
  assert (Ho1 : getImageRef (m_oldImageId cmd)
                  (replaceImage (m_newImageId cmd)
                     (setId (m_oldImageId cmd) copy) s)
                = Some (setId (m_oldImageId cmd) copy)).
  { rewrite (replaceImage_lookup _ _ _ newImage) by exact Hnew. simpl.
    rewrite decide_True by reflexivity. reflexivity. }
  assert (Hn1 : getImageRef (m_newImageId cmd)
                  (replaceImage (m_newImageId cmd)
                     (setId (m_oldImageId cmd) copy) s) = None).
  { rewrite (replaceImage_lookup _ _ _ newImage) by exact Hnew. simpl.
    rewrite decide_False by exact Hne. rewrite decide_True by reflexivity.
    reflexivity. }
  split; [exact Ho1|]. split; [exact Hn1|].
  rewrite (onRedo_run (mkCmd (m_oldImageId cmd) (m_newImageId cmd)
                             (m_newImage cmd) (Some (createCopy newImage)))
             _ _ (createCopy newImage) Ho1 Hn1 eq_refl). simpl.
  do 2 f_equal.
  rewrite <- Hid at 1. rewrite setId_own.
  rewrite (replaceImage_sprite _ _ _ (images s)).
  - rewrite !(proj1 (replaceImage_fields _ _ _)),
            !(proj1 (proj2 (replaceImage_fields _ _ _))),
            !(proj2 (proj2 (replaceImage_fields _ _ _))).
    apply sprite_eta.
  - rewrite (replaceImage_bound _ _ _ _ Ho1),
            (replaceImage_bound _ _ _ _ Hnew). simpl.
    unfold getImageRef in Hnew, Hold. rewrite Hid. registry.
Qed.

(** Redo and then undo, from any sprite where the old identity is bound
    and the new one is not. *)
Lemma onRedo_onUndo cmd s oldImage copy :
  m_oldImageId cmd <> m_newImageId cmd ->
  getImageRef (m_oldImageId cmd) s = Some oldImage ->
  id oldImage = m_oldImageId cmd ->
  getImageRef (m_newImageId cmd) s = None ->
  m_copy cmd = Some copy ->
  exists s1,
    onRedo cmd s
    = Some (mkCmd (m_oldImageId cmd) (m_newImageId cmd) (m_newImage cmd)
                  (Some (createCopy oldImage)), s1) /\
    getImageRef (m_newImageId cmd) s1 = Some (setId (m_newImageId cmd) copy) /\
    getImageRef (m_oldImageId cmd) s1 = None /\
    onUndo (mkCmd (m_oldImageId cmd) (m_newImageId cmd) (m_newImage cmd)
                  (Some (createCopy oldImage))) s1
    = Some (mkCmd (m_oldImageId cmd) (m_newImageId cmd) (m_newImage cmd)
                  (Some (createCopy (setId (m_newImageId cmd) copy))), s).
Proof.
  intros Hne Hold Hid Hnew Hcopy.
  rewrite (onRedo_run cmd s oldImage copy Hold Hnew Hcopy).
  eexists. split; [reflexivity|].
  assert (Hn1 : getImageRef (m_newImageId cmd)
                  (replaceImage (m_oldImageId cmd)
                     (setId (m_newImageId cmd) copy) s)
                = Some (setId (m_newImageId cmd) copy)).
  { rewrite (replaceImage_lookup _ _ _ oldImage) by exact Hold. simpl.
    rewrite decide_True by reflexivity. reflexivity. }
  assert (Ho1 : getImageRef (m_oldImageId cmd)
                  (replaceImage (m_oldImageId cmd)
                     (setId (m_newImageId cmd) copy) s) = None).
  { rewrite (replaceImage_lookup _ _ _ oldImage) by exact Hold. simpl.
    rewrite decide_False by (intros E; apply Hne; symmetry; exact E).
    rewrite decide_True by reflexivity. reflexivity. }
  split; [exact Hn1|]. split; [exact Ho1|].
  rewrite (onUndo_run (mkCmd (m_oldImageId cmd) (m_newImageId cmd)
                             (m_newImage cmd) (Some (createCopy oldImage)))
             _ _ (createCopy oldImage) Hn1 Ho1 eq_refl). simpl.
  do 2 f_equal.
  rewrite <- Hid at 1. rewrite setId_own.
  rewrite (replaceImage_sprite _ _ _ (images s)).
  - rewrite !(proj1 (replaceImage_fields _ _ _)),
            !(proj1 (proj2 (replaceImage_fields _ _ _))),
            !(proj2 (proj2 (replaceImage_fields _ _ _))).
    apply sprite_eta.
  - rewrite (replaceImage_bound _ _ _ _ Hn1),
            (replaceImage_bound _ _ _ _ Hold). simpl.
    unfold getImageRef in Hnew, Hold. rewrite Hid. registry.
Qed.

(** What a step that succeeds does to the two identities. *)
Lemma step_flips cmd s cmd' s' :
  wf_cmd cmd ->
  (onExecute cmd s = Some (cmd', s') \/ onRedo cmd s = Some (cmd', s') ->
   getImageRef (m_oldImageId cmd) s' = None /\
   exists image, getImageRef (m_newImageId cmd) s' = Some image
                 /\ id image = m_newImageId cmd) /\
  (onUndo cmd s = Some (cmd', s') ->
   getImageRef (m_newImageId cmd) s' = None /\
   exists image, getImageRef (m_oldImageId cmd) s' = Some image
                 /\ id image = m_oldImageId cmd).
Proof.
  intros [Hne Hwf]. split.
  - intros [H|H].
    + unfold onExecute in H.
      destruct (getImageRef (m_oldImageId cmd) s) as [oldImage|] eqn:Hold;
        [|discriminate].
      destruct (m_newImage cmd) as [newImage|] eqn:Hn; [|discriminate].
      injection H as _ <-. specialize (Hwf newImage eq_refl).
      rewrite !(replaceImage_lookup _ _ _ oldImage) by exact Hold.
      rewrite Hwf. rewrite decide_False by congruence.
      rewrite !decide_True by reflexivity. eauto.
    + unfold onRedo in H.
      destruct (getImageRef (m_oldImageId cmd) s) as [oldImage|] eqn:Hold;
        [|discriminate].
      destruct (getImageRef (m_newImageId cmd) s); [discriminate|].
      destruct (m_copy cmd) as [copy|]; [|discriminate].
      injection H as _ <-.
      rewrite !(replaceImage_lookup _ _ _ oldImage) by exact Hold. simpl.
      rewrite decide_False by congruence.
      rewrite !decide_True by reflexivity. eauto.
  - intros H. unfold onUndo in H.
    destruct (getImageRef (m_newImageId cmd) s) as [newImage|] eqn:Hnew;
      [|discriminate].
    destruct (getImageRef (m_oldImageId cmd) s); [discriminate|].
    destruct (m_copy cmd) as [copy|]; [|discriminate].
    injection H as _ <-.
    rewrite !(replaceImage_lookup _ _ _ newImage) by exact Hnew. simpl.
    rewrite decide_False by congruence.
    rewrite !decide_True by reflexivity. eauto.
Qed.

(** What every step keeps: the two identities of the command, its
    well-formedness, the images bound under other identities and the other
    properties of the sprite. *)
Lemma step_frame cmd s cmd' s' :
  wf_cmd cmd ->
  onExecute cmd s = Some (cmd', s') \/ onUndo cmd s = Some (cmd', s')
  \/ onRedo cmd s = Some (cmd', s') ->
  m_oldImageId cmd' = m_oldImageId cmd /\
  m_newImageId cmd' = m_newImageId cmd /\ wf_cmd cmd' /\
  transparentColor s' = transparentColor s /\ needAlpha s' = needAlpha s /\
  backgroundLayer s' = backgroundLayer s /\
  forall i, i <> m_oldImageId cmd -> i <> m_newImageId cmd ->
            getImageRef i s' = getImageRef i s.
Proof.
  intros [Hne Hwf] [H|[H|H]].
  - unfold onExecute in H.
    destruct (getImageRef (m_oldImageId cmd) s) as [oldImage|] eqn:Hold;
      [|discriminate].
    destruct (m_newImage cmd) as [newImage|] eqn:Hn; [|discriminate].
    injection H as <- <-. specialize (Hwf newImage eq_refl). simpl.
    split; [reflexivity|]. split; [reflexivity|].
    split; [split; [exact Hne|discriminate]|].
    repeat (split; [apply replaceImage_fields|]).
    intros i Ho Hn'. rewrite (replaceImage_lookup _ _ _ oldImage) by exact Hold.
    rewrite !decide_False by congruence. reflexivity.
  - unfold onUndo in H.
    destruct (getImageRef (m_newImageId cmd) s) as [newImage|] eqn:Hnew;
      [|discriminate].
    destruct (getImageRef (m_oldImageId cmd) s); [discriminate|].
    destruct (m_copy cmd) as [copy|]; [|discriminate].
    injection H as <- <-. simpl.
    split; [reflexivity|]. split; [reflexivity|].
    split; [split; [exact Hne|exact Hwf]|].
    repeat (split; [apply replaceImage_fields|]).
    intros i Ho Hn'. rewrite (replaceImage_lookup _ _ _ newImage) by exact Hnew.
    simpl. rewrite !decide_False by congruence. reflexivity.
  - unfold onRedo in H.
    destruct (getImageRef (m_oldImageId cmd) s) as [oldImage|] eqn:Hold;
      [|discriminate].
    destruct (getImageRef (m_newImageId cmd) s); [discriminate|].
    destruct (m_copy cmd) as [copy|]; [|discriminate].
    injection H as <- <-. simpl.
    split; [reflexivity|]. split; [reflexivity|].
    split; [split; [exact Hne|exact Hwf]|].
    repeat (split; [apply replaceImage_fields|]).
    intros i Ho Hn'. rewrite (replaceImage_lookup _ _ _ oldImage) by exact Hold.
    simpl. rewrite !decide_False by congruence. reflexivity.
Qed.

Lemma create_wf oldImage newImage :
  id oldImage <> id newImage -> wf_cmd (create oldImage newImage).
Proof. intros Hne. split; [exact Hne|]. simpl. intros image [= <-]. reflexivity. Qed.

(** X15: undo right after execute gives back the sprite that execute
    started from, when the new identity was not bound in it. *)
Theorem undo_after_execute s oldImage newImage :
  getImageRef (id oldImage) s = Some oldImage ->
  getImageRef (id newImage) s = None ->
  exists cmd1 s1 cmd2,
    onExecute (create oldImage newImage) s = Some (cmd1, s1) /\
    onUndo cmd1 s1 = Some (cmd2, s).
Proof.
  intros Hold Hnew.
  assert (Hne : id oldImage <> id newImage) by congruence.
  rewrite (onExecute_run (create oldImage newImage) s oldImage newImage Hold
             eq_refl). simpl.
  eexists _, _, _. split; [reflexivity|].
  destruct (onRedo_onUndo (mkCmd (id oldImage) (id newImage) None
                                 (Some (createCopy newImage)))
              s oldImage (createCopy newImage) Hne Hold eq_refl Hnew eq_refl)
    as (s1 & Hredo & _ & _ & Hundo).
  rewrite (onRedo_run (mkCmd (id oldImage) (id newImage) None
                             (Some (createCopy newImage)))
             s oldImage (createCopy newImage) Hold Hnew eq_refl) in Hredo.
  simpl in Hredo. rewrite setId_own in Hredo. injection Hredo as <-.
  simpl in Hundo. exact Hundo.
Qed.

Lemma undo_after_execute_witness :
  exists cmd1 s1 cmd2,
    onExecute (create samples.old_image samples.new_image) sprite_two
    = Some (cmd1, s1) /\
    onUndo cmd1 s1 = Some (cmd2, sprite_two).
Proof.
  apply (undo_after_execute sprite_two samples.old_image samples.new_image).
  - reflexivity.
  - reflexivity.
Defined.

(** X16: from any sprite where the new identity is bound and the old one
    is not (the new image may have been edited since execute), undo binds
    the old identity to the saved copy, stamped with that identity, and
    unbinds the new one; redo then gives back the very sprite undo started
    from. *)
Theorem undo_then_redo cmd s newImage copy :
  m_oldImageId cmd <> m_newImageId cmd ->
  getImageRef (m_newImageId cmd) s = Some newImage ->
  id newImage = m_newImageId cmd ->
  getImageRef (m_oldImageId cmd) s = None ->
  m_copy cmd = Some copy ->
  exists cmd1 s1 cmd2,
    onUndo cmd s = Some (cmd1, s1) /\
    getImageRef (m_oldImageId cmd) s1 = Some (setId (m_oldImageId cmd) copy) /\
    getImageRef (m_newImageId cmd) s1 = None /\
    onRedo cmd1 s1 = Some (cmd2, s).
Proof.
  intros Hne Hnew Hid Hold Hcopy.
  destruct (onUndo_onRedo cmd s newImage copy Hne Hnew Hid Hold Hcopy)
    as (s1 & Hundo & Ho & Hn & Hredo).
  eauto 10.
Qed.

Lemma undo_then_redo_witness :
  exists cmd1 s1 cmd2,
    onUndo (mkCmd 1 2 None (Some (createCopy samples.old_image)))
           (mkSprite 0 false true {[ 2%nat := edited_image ]})
    = Some (cmd1, s1) /\
    getImageRef 1%nat s1 = Some (setId 1 (createCopy samples.old_image)) /\
    getImageRef 2%nat s1 = None /\
    onRedo cmd1 s1
    = Some (cmd2, mkSprite 0 false true {[ 2%nat := edited_image ]}).
Proof.
  apply (undo_then_redo (mkCmd 1 2 None (Some (createCopy samples.old_image)))
           (mkSprite 0 false true {[ 2%nat := edited_image ]}) edited_image
           (createCopy samples.old_image)).
  - simpl. lia.
  - reflexivity.
  - reflexivity.
  - reflexivity.
  - reflexivity.
Defined.

(** X17: from any sprite where the old identity is bound and the new one
    is not, redo binds the new identity to the saved copy, stamped with that
    identity, and unbinds the old one; undo then gives back the very sprite
    redo started from. *)
Theorem redo_then_undo cmd s oldImage copy :
  m_oldImageId cmd <> m_newImageId cmd ->
  getImageRef (m_oldImageId cmd) s = Some oldImage ->
  id oldImage = m_oldImageId cmd ->
  getImageRef (m_newImageId cmd) s = None ->
  m_copy cmd = Some copy ->
  exists cmd1 s1 cmd2,
    onRedo cmd s = Some (cmd1, s1) /\
    getImageRef (m_newImageId cmd) s1 = Some (setId (m_newImageId cmd) copy) /\
    getImageRef (m_oldImageId cmd) s1 = None /\
    onUndo cmd1 s1 = Some (cmd2, s).
Proof.
  intros Hne Hold Hid Hnew Hcopy.
  destruct (onRedo_onUndo cmd s oldImage copy Hne Hold Hid Hnew Hcopy)
    as (s1 & Hredo & Hn & Ho & Hundo).
  eauto 10.
Qed.

Lemma redo_then_undo_witness :
  exists cmd1 s1 cmd2,
    onRedo (mkCmd 1 2 None (Some (createCopy edited_image))) sprite_two
    = Some (cmd1, s1) /\
    getImageRef 2%nat s1 = Some (setId 2 (createCopy edited_image)) /\
    getImageRef 1%nat s1 = None /\
    onUndo cmd1 s1 = Some (cmd2, sprite_two).
Proof.
  apply (redo_then_undo (mkCmd 1 2 None (Some (createCopy edited_image)))
           sprite_two samples.old_image (createCopy edited_image)).
  - simpl. lia.
  - reflexivity.
  - reflexivity.
  - reflexivity.
  - reflexivity.
Defined.

(** X18: a step that succeeds touches nothing but the two identities of
    the command: images bound under other identities stay bound as they
    were, the transparent colour, the alpha need and the background layer of
    the sprite are kept, and the command keeps its two identities. *)
Theorem replace_image_frame cmd s cmd' s' :
  wf_cmd cmd ->
  onExecute cmd s = Some (cmd', s') \/ onUndo cmd s = Some (cmd', s')
  \/ onRedo cmd s = Some (cmd', s') ->
  m_oldImageId cmd' = m_oldImageId cmd /\
  m_newImageId cmd' = m_newImageId cmd /\ wf_cmd cmd' /\
  transparentColor s' = transparentColor s /\ needAlpha s' = needAlpha s /\
  backgroundLayer s' = backgroundLayer s /\
  forall i, i <> m_oldImageId cmd -> i <> m_newImageId cmd ->
            getImageRef i s' = getImageRef i s.
Proof. exact (step_frame cmd s cmd' s'). Qed.

Lemma replace_image_frame_witness :
  getImageRef 5%nat
    (replaceImage 1 samples.new_image sprite_two) = Some other_image.
Proof.
  destruct (replace_image_frame
              (create samples.old_image samples.new_image) sprite_two
              (mkCmd 1 2 None (Some (createCopy samples.old_image)))
              (replaceImage 1 samples.new_image sprite_two))
    as (_ & _ & _ & _ & _ & _ & Hother).
  - apply create_wf. simpl. lia.
  - left. reflexivity.
  - rewrite (Hother 5%nat); [reflexivity|simpl; lia|simpl; lia].
Defined.

(** X19: a step that succeeds swaps which of the two identities is bound:
    after execute or redo the old identity is unbound and the new one is
    bound, after undo the new identity is unbound and the old one is bound;
    the image bound carries the identity it is bound under. *)
Theorem replace_image_flips cmd s cmd' s' :
  wf_cmd cmd ->
  (onExecute cmd s = Some (cmd', s') \/ onRedo cmd s = Some (cmd', s') ->
   getImageRef (m_oldImageId cmd) s' = None /\
   exists image, getImageRef (m_newImageId cmd) s' = Some image
                 /\ id image = m_newImageId cmd) /\
  (onUndo cmd s = Some (cmd', s') ->
   getImageRef (m_newImageId cmd) s' = None /\
   exists image, getImageRef (m_oldImageId cmd) s' = Some image
                 /\ id image = m_oldImageId cmd).
Proof. exact (step_flips cmd s cmd' s'). Qed.

Lemma replace_image_flips_witness :
  getImageRef 1%nat (replaceImage 1 samples.new_image sprite_two) = None /\
  exists image,
    getImageRef 2%nat (replaceImage 1 samples.new_image sprite_two)
    = Some image /\ id image = 2%nat.
Proof.
  apply (replace_image_flips
           (create samples.old_image samples.new_image) sprite_two
           (mkCmd 1 2 None (Some (createCopy samples.old_image)))
           (replaceImage 1 samples.new_image sprite_two)).
  - apply create_wf. simpl. lia.
  - left. reflexivity.
Defined.

(** X20: the steps refuse to be called out of order: a command that was
    just created can be neither undone nor redone; after execute or redo,
    neither execute nor redo goes through (the old identity is not bound);
    after undo, undo does not go through (the new identity is not bound). *)
Theorem replace_image_order cmd s cmd' s' :
  wf_cmd cmd ->
  (forall oldImage newImage s0,
      onUndo (create oldImage newImage) s0 = None /\
      onRedo (create oldImage newImage) s0 = None) /\
  (onExecute cmd s = Some (cmd', s') \/ onRedo cmd s = Some (cmd', s') ->
   onRedo cmd' s' = None /\ onExecute cmd' s' = None) /\
  (onUndo cmd s = Some (cmd', s') -> onUndo cmd' s' = None).
Proof.
  intros Hwf. split; [|split].
  - intros oldImage newImage s0. unfold onUndo, onRedo. simpl.
    destruct (getImageRef (id newImage) s0), (getImageRef (id oldImage) s0);
      auto.
  - intros H.
    destruct (step_frame cmd s cmd' s' Hwf) as (Ho & Hn & _); [tauto|].
    destruct (proj1 (step_flips cmd s cmd' s' Hwf) H) as [Hold _].
    rewrite <- Ho in Hold.
    split; [unfold onRedo; rewrite Hold; reflexivity|].
    unfold onExecute; rewrite Hold; reflexivity.
  - intros H.
    destruct (step_frame cmd s cmd' s' Hwf) as (Ho & Hn & _); [tauto|].
    destruct (proj2 (step_flips cmd s cmd' s' Hwf) H) as [Hnew _].
    rewrite <- Hn in Hnew.
    unfold onUndo; rewrite Hnew; reflexivity.
Qed.

Lemma replace_image_order_witness :
  onRedo (mkCmd 1 2 None (Some (createCopy samples.old_image)))
         (replaceImage 1 samples.new_image sprite_two) = None /\
  onExecute (mkCmd 1 2 None (Some (createCopy samples.old_image)))
            (replaceImage 1 samples.new_image sprite_two) = None.
Proof.
  destruct (replace_image_order
              (create samples.old_image samples.new_image) sprite_two
              (mkCmd 1 2 None (Some (createCopy samples.old_image)))
              (replaceImage 1 samples.new_image sprite_two))
    as (_ & Hafter & _).
  - apply create_wf. simpl. lia.
  - destruct Hafter as (Hredo & Hexec); [left; reflexivity|].
    split; [exact Hredo|exact Hexec].
Defined.

(** Undo and redo can be repeated any number of times. *)
Lemma undo_redo_run n cmd s newImage copy :
  m_oldImageId cmd <> m_newImageId cmd ->
  getImageRef (m_newImageId cmd) s = Some newImage ->
  id newImage = m_newImageId cmd ->
  getImageRef (m_oldImageId cmd) s = None ->
  m_copy cmd = Some copy ->
  exists cmd',
    undo_redo n cmd s = Some (cmd', s) /\
    m_oldImageId cmd' = m_oldImageId cmd /\
    m_newImageId cmd' = m_newImageId cmd /\
    exists copy', m_copy cmd' = Some copy' /\ pixels copy' = pixels copy.
Proof.
  revert cmd copy. induction n as [|n IH]; intros cmd copy Hne Hnew Hid Hold Hcopy.
  - exists cmd. simpl. eauto 10.
  - destruct (onUndo_onRedo cmd s newImage copy Hne Hnew Hid Hold Hcopy)
      as (s1 & Hundo & _ & _ & Hredo).
    simpl. rewrite Hundo, Hredo.
    match goal with
    | |- context [undo_redo n ?c s] =>
        destruct (IH c (createCopy (setId (m_oldImageId cmd) copy)))
          as (cmd' & -> & Ho & Hn & copy' & Hc & Hpx)
    end; try assumption; try reflexivity.
    exists cmd'. simpl in *. eauto 10.
Qed.

(** X21: from any sprite where the new identity is bound and the old one
    is not, undo followed by redo can be repeated any number of times: each
    round succeeds and ends on the same sprite, and the copy the command
    holds keeps the pixels of the displaced image. *)
Theorem undo_redo_cycles n cmd s newImage copy :
  m_oldImageId cmd <> m_newImageId cmd ->
  getImageRef (m_newImageId cmd) s = Some newImage ->
  id newImage = m_newImageId cmd ->
  getImageRef (m_oldImageId cmd) s = None ->
  m_copy cmd = Some copy ->
  exists cmd',
    undo_redo n cmd s = Some (cmd', s) /\
    m_oldImageId cmd' = m_oldImageId cmd /\
    m_newImageId cmd' = m_newImageId cmd /\
    exists copy', m_copy cmd' = Some copy' /\ pixels copy' = pixels copy.
Proof. exact (undo_redo_run n cmd s newImage copy). Qed.

Lemma undo_redo_cycles_witness :
  exists cmd',
    undo_redo 3 (mkCmd 1 2 None (Some (createCopy samples.old_image)))
              (mkSprite 0 false true {[ 2%nat := edited_image ]})
    = Some (cmd', mkSprite 0 false true {[ 2%nat := edited_image ]}) /\
    m_oldImageId cmd' = 1%nat /\ m_newImageId cmd' = 2%nat /\
    exists copy', m_copy cmd' = Some copy' /\ pixels copy' = [[1; 2]]%Z.
Proof.
  apply (undo_redo_cycles 3
           (mkCmd 1 2 None (Some (createCopy samples.old_image)))
           (mkSprite 0 false true {[ 2%nat := edited_image ]}) edited_image
           (createCopy samples.old_image)).
  - simpl. lia.
  - reflexivity.
  - reflexivity.
  - reflexivity.
  - reflexivity.
Defined.

End ReplaceMore.

(** ** Samples of loaded pixels *)

Section LoadedSamples.
#[local] Arguments replicate : simpl never.
Local Open Scope Z_scope.

Lemma uint8_testbit x m :
  Z.testbit (uint8 x) m = (0 <=? m) && (m <? 8) && Z.testbit x m.
Proof.
  unfold uint8. change 256 with (2 ^ 8).
  destruct (Z.leb_spec 0 m) as [Hm|Hm]; simpl.
  - rewrite Z.testbit_mod_pow2 by lia. reflexivity.
  - apply Z.testbit_neg_r. lia.
Qed.

Ltac bits :=
  apply Z.bits_inj'; intros n Hn;
  rewrite sample_testbit by lia;
  rewrite ?Z.lor_spec, ?Z.shiftl_spec by lia;
  rewrite !uint8_testbit;
  repeat match goal with
         | |- context [(?a <=? ?b)] => destruct (Z.leb_spec a b); try lia
         | |- context [(?a <? ?b)] => destruct (Z.ltb_spec a b); try lia
         end;
  simpl; rewrite ?andb_false_r, ?andb_true_r, ?orb_false_r; simpl;
  try reflexivity; try (f_equal; lia).

(** Each getter gives back the sample that was packed. *)
Lemma rgba_getr_pack r g b a : rgba_getr (rgba r g b a) = uint8 r.
Proof.
  unfold rgba_getr, rgba, rgba_r_shift, rgba_g_shift, rgba_b_shift,
    rgba_a_shift. bits.
Qed.

Lemma rgba_getg_pack r g b a : rgba_getg (rgba r g b a) = uint8 g.
Proof.
  unfold rgba_getg, rgba, rgba_r_shift, rgba_g_shift, rgba_b_shift,
    rgba_a_shift. bits.
Qed.

Lemma rgba_getb_pack r g b a : rgba_getb (rgba r g b a) = uint8 b.
Proof.
  unfold rgba_getb, rgba, rgba_r_shift, rgba_g_shift, rgba_b_shift,
    rgba_a_shift. bits.
Qed.

Lemma rgba_geta_pack r g b a : rgba_geta (rgba r g b a) = uint8 a.
Proof.
  unfold rgba_geta, rgba, rgba_r_shift, rgba_g_shift, rgba_b_shift,
    rgba_a_shift. bits.
Qed.

Lemma graya_geta_pack v a : graya_geta (graya v a) = uint8 a.
Proof. unfold graya_geta, graya, graya_v_shift, graya_a_shift. bits. Qed.

Lemma load_rgb_opaque w src :
  Forall (fun c => rgba_geta c = 255) (load_rgb w src).
Proof.
  revert src. induction w as [|w IH]; intros src; simpl; [constructor|].
  destruct src as [|r [|g [|b src]]]; try constructor.
  - apply rgba_geta_pack.
  - apply IH.
Qed.

Lemma load_gray_opaque w src :
  Forall (fun c => graya_geta c = 255) (load_gray w src).
Proof.
  revert src. induction w as [|w IH]; intros src; simpl; [constructor|].
  destruct src as [|k src]; constructor.
  - apply graya_geta_pack.
  - apply IH.
Qed.

(** X22: a complete load of a file without alpha channel (RGB or gray)
    gives an image all of whose pixels have alpha 255. *)
Theorem load_fills_alpha host lib png fop image :
  opens lib png ->
  png_color_type png = PNG_COLOR_TYPE_RGB
  \/ png_color_type png = PNG_COLOR_TYPE_GRAY ->
  byte_rows (png_rows png) ->
  allocates host (format_of (png_color_type png)) (png_width png)
            (png_height png) image ->
  (png_set_interlace_handling png * png_height png
   <= length (png_rows png))%nat ->
  not_stopped host fop (png_set_interlace_handling png * png_height png) ->
  exists fop' image',
    onLoad host lib fop = (Returned true, fop') /\
    seq_image fop' = Some image' /\
    Forall (Forall (fun c => pixel_alpha (format_of (png_color_type png)) c
                             = 255))
           (pixels image').
Proof.
  intros Hopen Hct Hbytes Halloc Hrows Hgo.
  destruct (complete_load_run host lib png fop image)
    as (fop' & Hload & Himg); try assumption.
  - destruct Hct as [-> | ->]; unfold supported_color_type; auto.
  - split; [|exact Hbytes]. destruct Hct as [-> | ->]; discriminate.
  - exists fop'. eexists. split; [exact Hload|]. split; [exact Himg|].
    simpl. apply Forall_fmap, Forall_forall. intros r _. simpl.
    destruct Hct as [-> | ->].
    + apply load_rgb_opaque.
    + apply load_gray_opaque.
Qed.

Lemma load_fills_alpha_witness :
  exists fop' image',
    onLoad samples.host_run (reopen rgb_png) samples.fop5
    = (Returned true, fop') /\
    seq_image fop' = Some image' /\
    Forall (Forall (fun c => pixel_alpha IMAGE_RGB c = 255)) (pixels image').
Proof.
  apply (load_fills_alpha samples.host_run (reopen rgb_png) rgb_png
           samples.fop5 (samples.blank IMAGE_RGB 1 1)).
  - repeat split.
  - left. reflexivity.
  - unfold byte_rows, is_byte. simpl.
    repeat (constructor; [repeat (constructor; [lia|]); constructor|]).
    constructor.
  - repeat split.
  - simpl. lia.
  - intros k _. reflexivity.
Defined.

Lemma load_rgb_alpha_lookup (x w : nat) src r g b a :
  (x < w)%nat ->
  src !! (4 * x)%nat = Some r -> src !! (4 * x + 1)%nat = Some g ->
  src !! (4 * x + 2)%nat = Some b -> src !! (4 * x + 3)%nat = Some a ->
  load_rgb_alpha w src !! x = Some (rgba r g b a).
Proof.
  revert w src. induction x as [|x IH]; intros w src Hx Hr Hg Hb Ha.
  - destruct w as [|w]; [lia|].
    destruct src as [|r0 [|g0 [|b0 [|a0 src]]]]; try discriminate.
    simpl in *. congruence.
  - destruct w as [|w]; [lia|].
    remember (4 * x)%nat as k eqn:Hk.
    replace (4 * S x)%nat with (S (S (S (S k)))) in * by lia.
    destruct src as [|r0 [|g0 [|b0 [|a0 src]]]]; try discriminate.
    change (src !! k = Some r) in Hr.
    change (src !! (k + 1)%nat = Some g) in Hg.
    change (src !! (k + 2)%nat = Some b) in Hb.
    change (src !! (k + 3)%nat = Some a) in Ha.
    change (load_rgb_alpha w src !! x = Some (rgba r g b a)).
    subst k. apply IH; [lia|assumption..].
Qed.

(** X23: in a complete load of an RGB file with alpha, pixel [(x, y)] is
    made of bytes [4x] to [4x+3] of row [y] of the last pass: they are its
    red, green, blue and alpha samples. *)
Theorem load_rgb_alpha_samples host lib png fop image (x y : nat) row r g b a :
  opens lib png ->
  png_color_type png = PNG_COLOR_TYPE_RGB_ALPHA ->
  byte_rows (png_rows png) ->
  allocates host IMAGE_RGB (png_width png) (png_height png) image ->
  (png_set_interlace_handling png * png_height png
   <= length (png_rows png))%nat ->
  not_stopped host fop (png_set_interlace_handling png * png_height png) ->
  (y < png_height png)%nat -> (x < png_width png)%nat ->
  png_rows png !! ((png_set_interlace_handling png - 1) * png_height png + y)%nat
  = Some row ->
  row !! (4 * x)%nat = Some r -> row !! (4 * x + 1)%nat = Some g ->
  row !! (4 * x + 2)%nat = Some b -> row !! (4 * x + 3)%nat = Some a ->
  exists fop' image' c,
    onLoad host lib fop = (Returned true, fop') /\
    seq_image fop' = Some image' /\
    pixel_at image' x y = Some c /\
    rgba_getr c = r /\ rgba_getg c = g /\ rgba_getb c = b /\ rgba_geta c = a.
Proof.
  intros Hopen Hct Hbytes Halloc Hrows Hgo Hy Hx Hrow Hr Hg Hb Ha.
  destruct (complete_load_run host lib png fop image)
    as (fop' & Hload & Himg); try assumption.
  - rewrite Hct. unfold supported_color_type. auto.
  - split; [|exact Hbytes]. rewrite Hct. discriminate.
  - rewrite Hct. exact Halloc.
  - exists fop'. eexists. exists (rgba r g b a).
    split; [exact Hload|]. split; [exact Himg|].
    assert (Hrowb : Forall is_byte row).
    { unfold byte_rows in Hbytes. rewrite Forall_forall in Hbytes.
      apply Hbytes. eapply list_elem_of_lookup_2, Hrow. }
    rewrite Forall_forall in Hrowb.
    split.
    + unfold pixel_at, with_pixels. simpl.
      rewrite list_lookup_fmap, lookup_take_lt, lookup_drop, Hrow by lia.
      simpl. rewrite Hct. apply load_rgb_alpha_lookup; assumption.
    + rewrite rgba_getr_pack, rgba_getg_pack, rgba_getb_pack, rgba_geta_pack.
      repeat split; apply uint8_small, Hrowb;
        eapply list_elem_of_lookup_2; eassumption.
Qed.

Lemma load_rgb_alpha_samples_witness :
  exists fop' image' c,
    onLoad samples.host_run
           (reopen (mkPngData 1 1 8 PNG_COLOR_TYPE_RGB_ALPHA PNG_INTERLACE_NONE
                              None None [[1; 2; 3; 4]]))
           samples.fop5 = (Returned true, fop') /\
    seq_image fop' = Some image' /\
    pixel_at image' 0 0 = Some c /\
    rgba_getr c = 1 /\ rgba_getg c = 2 /\ rgba_getb c = 3 /\ rgba_geta c = 4.
Proof.
  apply (load_rgb_alpha_samples samples.host_run
           (reopen (mkPngData 1 1 8 PNG_COLOR_TYPE_RGB_ALPHA PNG_INTERLACE_NONE
                              None None [[1; 2; 3; 4]]))
           (mkPngData 1 1 8 PNG_COLOR_TYPE_RGB_ALPHA PNG_INTERLACE_NONE
                      None None [[1; 2; 3; 4]])
           samples.fop5 (samples.blank IMAGE_RGB 1 1) 0%nat 0%nat
           [1; 2; 3; 4] 1 2 3 4).
  - repeat split.
  - reflexivity.
  - unfold byte_rows, is_byte. simpl.
    repeat (constructor; [repeat (constructor; [lia|]); constructor|]).
    constructor.
  - repeat split.
  - simpl. lia.
  - intros k _. reflexivity.
  - simpl. lia.
  - simpl. lia.
  - reflexivity.
  - reflexivity.
  - reflexivity.
  - reflexivity.
  - reflexivity.
Defined.

End LoadedSamples.

(** ** Write errors *)

Section WriteErrors.
#[local] Arguments replicate : simpl never.

(** The row loop ends normally exactly when libpng takes every row. *)
Lemma save_rows_taken lib image ct w h n y fop :
  is_Some (save_rows lib image ct w h n y fop).1 <->
  forall y', (y <= y' < y + n)%nat -> write_fails lib (WriteRow y') = false.
Proof.
  revert y fop. induction n as [|n IH]; intros y fop; simpl.
  - split; [intros _ y' Hy'; lia|eauto].
  - destruct (write_fails lib (WriteRow y)) eqn:Hy; simpl.
    + split; [intros [? H]; discriminate H|].
      intros H. rewrite H in Hy by lia. discriminate Hy.
    + specialize (IH (S y)
                     (fop_progress (mkProgress 0 (y + 1) h 1)
                                   (png_call lib (WriteRow y) fop))).
      destruct (save_rows lib image ct w h n (S y) _) as [rows fop3].
      simpl in *. split.
      * intros Hsome y' Hy'.
        destruct (decide (y' = y)) as [->|Hne]; [exact Hy|].
        apply IH; [|lia]. destruct rows; [eauto|].
        destruct Hsome as [? Hsome]. discriminate Hsome.
      * intros Hall. destruct (proj2 IH) as [rows' ->]; [|simpl; eauto].
        intros y' Hy'. apply Hall. lia.
Qed.

(** The row loop up to the row at which libpng fails: the rows before it
    are reported, and the texts of the failing call are the last ones. *)
Lemma save_rows_failed lib image ct w h n y k fop :
  (forall y', (y <= y' < y + k)%nat -> write_fails lib (WriteRow y') = false) ->
  (k < n)%nat ->
  write_fails lib (WriteRow (y + k)) = true ->
  exists texts,
    save_rows lib image ct w h n y fop
    = (None,
       mkFileOp (sprite fop) (seq_palette fop) (seq_image fop)
                (seq_has_alpha fop)
                (errors fop
                 ++ (String.append "libpng: "
                       <$> texts ++ callbacks lib (WriteRow (y + k))))
                (progress fop
                 ++ ((fun i => mkProgress 0 (i + 1) h 1) <$> seq y k))
                (image_requests fop) (stop_polls fop)).
Proof.
  revert n y fop. induction k as [|k IH]; intros n y fop Hok Hk Hfail.
  - destruct n as [|n]; [lia|]. simpl. rewrite Nat.add_0_r in Hfail.
    rewrite Hfail, png_call_logged, Nat.add_0_r. exists []. simpl.
    rewrite app_nil_r. reflexivity.
  - destruct n as [|n]; [lia|]. simpl.
    rewrite (Hok y) by lia. rewrite png_call_logged.
    destruct (IH n (S y)
                (fop_progress (mkProgress 0 (y + 1) h 1)
                   (logged (String.append "libpng: "
                              <$> callbacks lib (WriteRow y)) fop)))
      as [texts ->].
    + intros y' Hy'. apply Hok. lia.
    + lia.
    + rewrite <- Hfail. f_equal. f_equal. lia.
    + exists (callbacks lib (WriteRow y) ++ texts). simpl.
      replace (S (y + k)) with (y + S k)%nat by lia.
      rewrite !fmap_app, <- !app_assoc. reflexivity.
Qed.

Lemma save_size_ok image fop :
  (pixelFormat image = IMAGE_INDEXED ->
   (0 <= transparentColor (sprite fop))%Z) ->
  (match pixelFormat image with
   | IMAGE_INDEXED => true
   | _ => false
   end && negb (backgroundLayer (sprite fop))
   && (transparentColor (sprite fop) + 1 <? 0)%Z) = false.
Proof.
  intros Hm. destruct (pixelFormat image); try reflexivity.
  specialize (Hm eq_refl).
  destruct (Z.ltb_spec (transparentColor (sprite fop) + 1) 0); [lia|].
  apply andb_false_r.
Qed.

Lemma onSave_result lib fop image :
  seq_image fop = Some image ->
  create_struct lib = true -> create_info_struct lib = true ->
  (pixelFormat image = IMAGE_INDEXED ->
   (0 <= transparentColor (sprite fop))%Z) ->
  (Forall (fun call => write_fails lib call = false)
          (save_calls (height image)) ->
   exists fop' png, onSave lib fop = (Returned true, fop', Some png)) /\
  (Exists (fun call => write_fails lib call = true)
          (save_calls (height image)) ->
   exists fop', onSave lib fop = (Returned false, fop', None)).
Proof.
  intros Himg Hs Hi Hm. unfold onSave, save_calls.
  rewrite Hs, Hi, (png_call_logged lib CreateStruct). simpl. rewrite Himg.
  rewrite (save_size_ok image fop Hm).
  destruct (write_fails lib WriteInfo) eqn:Hinfo.
  { split; [|eauto]. intros Hall. apply Forall_cons in Hall as [Hall _].
    rewrite Hinfo in Hall. discriminate Hall. }
  match goal with
  | |- context [save_rows lib image ?ct ?w ?h ?n ?y ?f] =>
      pose proof (save_rows_taken lib image ct w h n y f) as Htaken;
      destruct (save_rows lib image ct w h n y f) as [[rows|] fop2]
  end; simpl in Htaken.
  - pose proof (proj1 Htaken ltac:(eauto)) as Hrows.
    destruct (write_fails lib WriteEnd) eqn:Hend.
    + split; [|eauto]. intros Hall. apply Forall_cons in Hall as [_ Hall].
      apply Forall_app in Hall as [_ Hall].
      apply (proj1 (Forall_singleton _ _)) in Hall. simpl in Hall.
      rewrite Hend in Hall. discriminate Hall.
    + split; [eauto|]. intros Hex.
      apply Exists_cons in Hex as [Hex|Hex];
        [rewrite Hinfo in Hex; discriminate Hex|].
      apply Exists_app in Hex as [Hex|Hex].
      * apply Exists_exists in Hex as (call & Hin & Hfail).
        apply list_elem_of_fmap in Hin as (y & -> & Hy).
        apply elem_of_seq in Hy. rewrite Hrows in Hfail by lia.
        discriminate Hfail.
      * apply Exists_cons in Hex as [Hex|Hex];
          [rewrite Hend in Hex; discriminate Hex|].
        apply Exists_nil in Hex. contradiction.
  - split; [|eauto]. intros Hall. exfalso.
    assert (Hsome : is_Some (@None (list (list Z)))); [|destruct Hsome as [? H]; discriminate H].
    apply Htaken. intros y' Hy'.
    apply Forall_cons in Hall as [_ Hall].
    apply Forall_app in Hall as [Hall _].
    rewrite Forall_forall in Hall. apply Hall.
    apply list_elem_of_fmap. exists y'. split; [reflexivity|].
    apply elem_of_seq. lia.
Qed.

(** X24: once the structs exist and the image is there, [onSave] returns
    true and hands over a file when libpng fails in none of its calls
    (header, rows 0 to height-1, end), and returns false without a file as
    soon as libpng fails in one of them. *)
Theorem save_fails_with_libpng lib fop image :
  seq_image fop = Some image ->
  create_struct lib = true -> create_info_struct lib = true ->
  (pixelFormat image = IMAGE_INDEXED ->
   (0 <= transparentColor (sprite fop))%Z) ->
  (Forall (fun call => write_fails lib call = false)
          (save_calls (height image)) ->
   exists fop' png, onSave lib fop = (Returned true, fop', Some png)) /\
  (Exists (fun call => write_fails lib call = true)
          (save_calls (height image)) ->
   exists fop', onSave lib fop = (Returned false, fop', None)).
Proof. exact (onSave_result lib fop image). Qed.

Lemma save_fails_with_libpng_witness :
  exists fop',
    onSave (lib_fail_at 1)
           (samples.with_image samples.rgb_image samples.sprite5)
    = (Returned false, fop', None).
Proof.
  apply (save_fails_with_libpng (lib_fail_at 1)
           (samples.with_image samples.rgb_image samples.sprite5)
           samples.rgb_image).
  - reflexivity.
  - reflexivity.
  - reflexivity.
  - discriminate.
  - apply Exists_cons_tl, Exists_cons_tl, Exists_cons_hd. reflexivity.
Defined.

Lemma onSave_row_error lib fop image y :
  seq_image fop = Some image ->
  create_struct lib = true -> create_info_struct lib = true ->
  (pixelFormat image = IMAGE_INDEXED ->
   (0 <= transparentColor (sprite fop))%Z) ->
  write_fails lib WriteInfo = false ->
  (forall y', (y' < y)%nat -> write_fails lib (WriteRow y') = false) ->
  (y < height image)%nat ->
  write_fails lib (WriteRow y) = true ->
  exists fop',
    onSave lib fop = (Returned false, fop', None) /\
    progress fop' = progress fop ++ take y (pass_reports 0 (height image) 1) /\
    forall text,
      last (callbacks lib (WriteRow y)) = Some text ->
      last (errors fop') = Some ("libpng: " +:+ text).
Proof.
  intros Himg Hs Hi Hm Hinfo Hbefore Hy Hfail. unfold onSave.
  rewrite Hs, Hi, (png_call_logged lib CreateStruct). simpl. rewrite Himg.
  rewrite (save_size_ok image fop Hm), Hinfo, (png_call_logged lib WriteInfo).
  match goal with
  | |- context [save_rows lib image ?ct ?w ?h ?n ?y0 ?f] =>
      destruct (save_rows_failed lib image ct w h n y0 y f)
        as [texts ->]; [intros y' Hy'; apply Hbefore; lia|exact Hy
                       |exact Hfail|]
  end.
  eexists. split; [reflexivity|]. simpl. split.
  - rewrite (take_reports y) by lia. reflexivity.
  - intros text Hlast. rewrite fmap_app, !app_assoc.
    destruct (callbacks lib (WriteRow y)) as [|t ts _] using rev_ind;
      [discriminate Hlast|].
    rewrite last_snoc in Hlast. injection Hlast as ->.
    rewrite fmap_app, app_assoc. simpl. apply last_snoc.
Qed.

(** X25: when libpng fails at row [y] of a save, after it took the header
    and the rows before, [onSave] returns false without a file; progress
    was reported for the [y] rows before, and the last message of the file
    operation is the last text of that call, as "libpng: %s". *)
Theorem save_write_error lib fop image y :
  seq_image fop = Some image ->
  create_struct lib = true -> create_info_struct lib = true ->
  (pixelFormat image = IMAGE_INDEXED ->
   (0 <= transparentColor (sprite fop))%Z) ->
  write_fails lib WriteInfo = false ->
  (forall y', (y' < y)%nat -> write_fails lib (WriteRow y') = false) ->
  (y < height image)%nat ->
  write_fails lib (WriteRow y) = true ->
  exists fop',
    onSave lib fop = (Returned false, fop', None) /\
    progress fop' = progress fop ++ take y (pass_reports 0 (height image) 1) /\
    forall text,
      last (callbacks lib (WriteRow y)) = Some text ->
      last (errors fop') = Some ("libpng: " +:+ text).
Proof. exact (onSave_row_error lib fop image y). Qed.

Lemma save_write_error_witness :
  exists fop',
    onSave (lib_fail_at 1)
           (samples.with_image samples.rgb_image samples.sprite5)
    = (Returned false, fop', None) /\
    progress fop' = [] ++ take 1 (pass_reports 0 2 1) /\
    forall text,
      Some "Write Error" = Some text ->
      last (errors fop') = Some ("libpng: " +:+ text).
Proof.
  apply (save_write_error (lib_fail_at 1)
           (samples.with_image samples.rgb_image samples.sprite5)
           samples.rgb_image 1%nat).
  - reflexivity.
  - reflexivity.
  - reflexivity.
  - discriminate.
  - reflexivity.
  - intros y' Hy'. destruct y' as [|y']; [reflexivity|lia].
  - simpl. lia.
  - reflexivity.
Defined.

End WriteErrors.

(** ** The messages of a load and of a save *)

Section Messages.
#[local] Arguments replicate : simpl never.






End Messages.
